(** * Resilient LLM inference demos: batched probes and log reconciliation

    A shallow embedding of the demonstration scripts
    [demo_cris.py], [demo_account_sharding.py] and [demo_load_balancing.py]:
    the per-request probe ([send_bedrock_request], [send_request]), the
    dispatch of a batch through a thread pool, the result analysis and the
    CloudWatch polling loop, and the command-line validation of [main];
    then the CloudWatch query itself (start, wait, fetch, parse), the tables
    the scripts print, the loop mode of [demo_load_balancing.py], and the
    shared data and figures of [demo_fallback.py] and
    [demo_quota_isolation.py].

    Conventions of the embedding.
    - A Python [dict] with a fixed set of keys is a record; a [dict] used as
      a map ([region_distribution], [all_cloudwatch_results]) is a [gmap].
    - Python [float] values (response times, rates) are exact rationals [Q];
      equalities between them are stated with [==].
    - What the outside world answers (Bedrock, CloudWatch, [random.choice])
      is an explicit argument of the function that consumes it.
    - Console output is kept as structured log lines, not formatted text. *)

From Stdlib Require Import ZArith QArith String List Bool Lia Permutation.
From stdpp Require Import base option list relations gmap strings.
From stdpp Require Import sorting.

Import ListNotations.
Local Open Scope string_scope.
Local Open Scope list_scope.

(** ** Python string operations used by the scripts *)

Module PyStr.

(** [sub in s]: [sub] occurs in [s] as a contiguous substring. *)
Fixpoint contains (sub s : string) : bool :=
  if String.prefix sub s then true
  else match s with
       | EmptyString => false
       | String _ s' => contains sub s'
       end.

(** [sub] occurs in [s]. *)
Definition occurs (sub s : string) : Prop :=
  exists pre post, s = (pre ++ sub ++ post)%string.

(** [s[:n]] *)
Definition take (n : nat) (s : string) : string := String.substring 0 n s.

End PyStr.

(** ** Python numbers *)

Module PyNum.

(** An [int] used where a [float] is expected. *)
Definition of_int (n : nat) : Q := inject_Z (Z.of_nat n).

(** [sum(xs)]: a left fold that starts from [0]. *)
Definition sum (xs : list Q) : Q := fold_left Qplus xs 0%Q.


End PyNum.

(** ** concurrent.futures.ThreadPoolExecutor, as the scripts use it

    [executor.submit(worker, i) for i in range(n)] queues the tasks in order;
    at most [max_workers] of them run at a time; a running task finishes by
    appending its result to the shared list under [results_lock], so appends
    are atomic and happen in completion order.  Leaving the [with] block
    waits until no task is queued or running. *)

Module Executor.
Section Pool.
Context {A : Type}.
Variable worker : nat -> A.
Variable max_workers : nat.

Record pool_state := {
  queued : list nat;
  running : list nat;
  results : list A
}.

Inductive step : relation pool_state :=
| step_start i q r res :
    (length r < max_workers)%nat ->
    step {| queued := i :: q; running := r; results := res |}
         {| queued := q; running := r ++ [i]; results := res |}
| step_finish q r1 i r2 res :
    step {| queued := q; running := r1 ++ i :: r2; results := res |}
         {| queued := q; running := r1 ++ r2; results := res ++ [worker i] |}.

(** All [n] tasks submitted, none started. *)
Definition submitted (n : nat) : pool_state :=
  {| queued := seq 0 n; running := []; results := [] |}.

(** The state in which the [with] block is left: nothing can move. *)
Definition joined (s : pool_state) : Prop := nf step s.

(** [s] is the state at the barrier of a batch of [n] tasks. *)
Definition at_barrier (n : nat) (s : pool_state) : Prop :=
  rtc step (submitted n) s /\ joined s.

(** One particular schedule: every task runs alone, in submission order. *)
Definition run_in_order (n : nat) : pool_state :=
  {| queued := []; running := []; results := map worker (seq 0 n) |}.

(** Tasks still owed a result. *)
Definition pending (s : pool_state) : list nat := queued s ++ running s.

(** Twice the tasks queued plus the tasks running: it decreases at every
    step. *)
Definition measure (s : pool_state) : nat :=
  2 * length (queued s) + length (running s).

End Pool.
End Executor.

(** ** CloudWatch Logs Insights, as the pollers see it *)

Module CloudWatch.

(** What one call of [query_cloudwatch_distribution] meets: any of the
    paths that return [None] (no credentials, query not started, query
    failed, cancelled, not found or timed out), a result set whose rows
    are [(inferenceRegion, invocationCount)], or a result set that cannot
    be parsed (the [except] branch of [get_cloudwatch_results]). *)
Inductive query_outcome :=
| Unavailable
| Results (rows : list (string * Z))
| Malformed.

Definition sum_counts (rows : list (string * Z)) : Z :=
  fold_left (fun acc row => (acc + snd row)%Z) rows 0%Z.

Definition distribution_of (rows : list (string * Z)) : gmap string Z :=
  fold_left (fun d row => <[fst row := snd row]> d) rows ∅.

End CloudWatch.

(** ** demo_cris.py *)

Module Cris.

(** *** send_bedrock_request *)

(** The dictionary returned by [send_bedrock_request]. *)
Record ProbeResult := {
  request_id : nat;
  success : bool;
  model_used : option string;
  response_time : Q;
  content : option string;
  error : option string
}.

(** What happens inside the [try] block: either [invoke_model] answers and
    the body parses ([elapsed] is [round(end_time - start_time, 2)], [text]
    the first content block), or an exception [e] is raised and
    [error_msg] is [str(e)]. *)
Inductive invoke_outcome :=
| Responded (elapsed : Q) (text : string)
| Raised (error_msg : string).

(** Bedrock: the outcome of the call made for a request id, a model id
    and a question. *)
Definition bedrock := nat -> string -> string -> invoke_outcome.

(** The progress line written by [log_with_timestamp]. *)
Inductive log_line :=
| LogSuccess (request_id : nat) (elapsed : Q)
| LogThrottled (request_id : nat)
| LogError (request_id : nat) (sanitized_error : string).

(** The label of the error progress line (the [else] branch). *)
Definition sanitized_error (error_msg : string) : string :=
  if PyStr.contains "ValidationException" error_msg then "Validation Error"
  else if PyStr.contains "AccessDenied" error_msg then "Access Denied"
  else if PyStr.contains "ResourceNotFound" error_msg then "Resource Not Found"
  else "API Error".

(** The [error_type] chosen in the [except] branch. *)
Definition error_type (error_msg : string) : string :=
  if PyStr.contains "ThrottlingException" error_msg
     || PyStr.contains "ServiceQuota" error_msg
  then "ThrottlingException"
  else "Error".

Definition truncate_content (text : string) : string :=
  if (50 <? String.length text)%nat then PyStr.take 50 text ++ "..." else text.

Definition send_bedrock_request (invoke_model : bedrock)
    (request_id : nat) (model_id question : string) : log_line * ProbeResult :=
  match invoke_model request_id model_id question with
  | Responded elapsed text =>
      (LogSuccess request_id elapsed,
       {| request_id := request_id;
          success := true;
          model_used := Some model_id;
          response_time := elapsed;
          content := Some (truncate_content text);
          error := None |})
  | Raised error_msg =>
      (if PyStr.contains "ThrottlingException" error_msg
          || PyStr.contains "ServiceQuota" error_msg
       then LogThrottled request_id
       else LogError request_id (sanitized_error error_msg),
       {| request_id := request_id;
          success := false;
          model_used := None;
          response_time := 0;
          content := None;
          error := Some (error_type error_msg) |})
  end.

(** *** run_cris_demo: the dispatch *)

Definition questions : list string :=
  [ "Hello from CRIS request!";
    "Test message for cross-region demo";
    "CRIS demo request";
    "Cross-region test message";
    "Regional distribution test" ].

(** The result the nested [worker(req_id)] appends to [results]. *)
Definition worker (invoke_model : bedrock) (model_id : string)
    (req_id : nat) : ProbeResult :=
  let question := nth (req_id mod length questions) questions "" in
  snd (send_bedrock_request invoke_model (req_id + 1) model_id question).

(** [ThreadPoolExecutor(max_workers=num_requests)] *)
Definition max_workers (num_requests : Z) : Z := num_requests.

(** The pool once every task is submitted; the constructor raises
    [ValueError] unless [max_workers > 0]. *)
Definition dispatch (num_requests : Z)
    : option (Executor.pool_state (A := ProbeResult)) :=
  if (max_workers num_requests <=? 0)%Z then None
  else Some (Executor.submitted (Z.to_nat num_requests)).

(** [results] is what the shared list holds when the [with] block of
    [run_cris_demo] is left. *)
Definition collected (invoke_model : bedrock) (model_id : string)
    (num_requests : Z) (results : list ProbeResult) : Prop :=
  exists s,
    Executor.at_barrier (worker invoke_model model_id)
      (Z.to_nat (max_workers num_requests)) (Z.to_nat num_requests) s
    /\ Executor.results s = results.

(** *** analyze_cris_results: the statistics *)

Record Summary := {
  total_requests : nat;
  successful : nat;
  failed : nat;
  success_rate : Q;
  avg_response_time : Q;
  total_time : Q
}.

Definition successful_results (results : list ProbeResult) : list ProbeResult :=
  List.filter (fun r => success r) results.

Definition statistics (results : list ProbeResult) (total_time : Q) : Summary :=
  let successful := length (List.filter (fun r => success r) results) in
  let failed := length (List.filter (fun r => negb (success r)) results) in
  let total := length results in
  let success_rate :=
    if (0 <? total)%nat
    then ((PyNum.of_int successful / PyNum.of_int total) * 100)%Q
    else 0%Q in
  let avg_response_time :=
    match successful_results results with
    | [] => 0%Q
    | _ :: _ =>
        (PyNum.sum (map response_time (successful_results results))
         / PyNum.of_int (length (successful_results results)))%Q
    end in
  {| total_requests := total;
     successful := successful;
     failed := failed;
     success_rate := success_rate;
     avg_response_time := avg_response_time;
     total_time := total_time |}.

(** *** analyze_cris_results: the CloudWatch polling loop *)

(** The dictionary returned by [get_cloudwatch_results]. *)
Record Snapshot := {
  region_distribution : gmap string Z;
  total_invocations : Z
}.

(** The value of [cloudwatch_results]: [None], [{}] or a snapshot. *)
Inductive cw_result :=
| CwNone
| CwEmpty
| CwData (snapshot : Snapshot).

Definition get_cloudwatch_results (rows : list (string * Z)) : cw_result :=
  match rows with
  | [] => CwEmpty
  | _ :: _ =>
      CwData {| region_distribution := CloudWatch.distribution_of rows;
                total_invocations := CloudWatch.sum_counts rows |}
  end.

Definition query_cloudwatch_distribution (o : CloudWatch.query_outcome)
    : cw_result :=
  match o with
  | CloudWatch.Unavailable => CwNone
  | CloudWatch.Results rows => get_cloudwatch_results rows
  | CloudWatch.Malformed => CwEmpty
  end.

(** What the query of an attempt returns. *)
Definition answer (query : nat -> CloudWatch.query_outcome) (attempt : nat)
    : cw_result :=
  query_cloudwatch_distribution (query attempt).

(** [cloudwatch_results.get('total_invocations', 0) if cloudwatch_results else 0] *)
Definition found_count (r : cw_result) : Z :=
  match r with
  | CwData s => total_invocations s
  | _ => 0%Z
  end.

(** [cloudwatch_results and
     cloudwatch_results.get('total_invocations', 0) == successful] *)
Definition complete (r : cw_result) (successful : nat) : bool :=
  match r with
  | CwData s => (total_invocations s =? Z.of_nat successful)%Z
  | _ => false
  end.

Inductive event :=
| EvSleep (seconds : nat)
| EvQuery (attempt : nat)
| EvRetryLog (attempt : nat) (found : Z).

Definition max_attempts : nat := 5.

(** The body of [for attempt in range(max_attempts)], over the attempts
    still to make; [query attempt] is what CloudWatch answers then. *)
Fixpoint poll_loop (query : nat -> CloudWatch.query_outcome) (successful : nat)
    (attempts : list nat) (cloudwatch_results : cw_result)
    : list event * cw_result :=
  match attempts with
  | [] => ([], cloudwatch_results)
  | attempt :: rest =>
      let wait_time := if (attempt =? 0)%nat then 60%nat else 30%nat in
      let cloudwatch_results := query_cloudwatch_distribution (query attempt) in
      if complete cloudwatch_results successful
      then ([EvSleep wait_time; EvQuery attempt], cloudwatch_results)
      else
        let retry_log :=
          if (attempt <? 4)%nat
          then [EvRetryLog attempt (found_count cloudwatch_results)]
          else [] in
        let '(events, final) :=
          poll_loop query successful rest cloudwatch_results in
        ([EvSleep wait_time; EvQuery attempt] ++ retry_log ++ events, final)
  end.

Definition poll (query : nat -> CloudWatch.query_outcome) (successful : nat)
    : list event * cw_result :=
  poll_loop query successful (seq 0 max_attempts) CwNone.

(** The attempts at which CloudWatch was queried, in order. *)
Definition queried (events : list event) : list nat :=
  flat_map (fun e => match e with EvQuery a => [a] | _ => [] end) events.

(** What the function does after the statistics: poll only when some
    request succeeded, then return the summary. *)
Definition analyze_cris_results (query : nat -> CloudWatch.query_outcome)
    (results : list ProbeResult) (total_time : Q)
    : list event * cw_result * Summary :=
  let summary := statistics results total_time in
  if (0 <? successful summary)%nat
  then (poll query (successful summary), summary)
  else ([], CwNone, summary).

(** *** main *)

Inductive main_outcome :=
| Exit (status : Z) (message : string)
| Run (num_requests : Z).

Definition main (requests : Z) : main_outcome :=
  if (requests <? 1)%Z
  then Exit 1 "Error: Number of requests must be at least 1"
  else if (100 <? requests)%Z
  then Exit 1 "Error: Maximum 100 requests allowed to avoid overwhelming the system"
  else Run requests.

End Cris.

(** ** demo_account_sharding.py *)

Module Sharding.

(** *** send_bedrock_request *)

Record ProbeResult := {
  request_id : nat;
  success : bool;
  account_type : string;
  profile : string;
  model_used : option string;
  response_time : Q;
  content : option string;
  error : option string
}.

Inductive invoke_outcome :=
| Responded (elapsed : Q) (text : string)
| Raised (error_msg : string).

(** Bedrock: the outcome of the call made for a request id, a model id,
    a question and an AWS profile. *)
Definition bedrock := nat -> string -> string -> string -> invoke_outcome.

Inductive log_line :=
| LogSuccess (request_id : nat) (account_type : string) (elapsed : Q)
| LogThrottled (request_id : nat) (account_type : string)
| LogError (request_id : nat) (account_type : string) (shown : string).

Definition error_type (error_msg : string) : string :=
  if PyStr.contains "ThrottlingException" error_msg
     || PyStr.contains "ServiceQuota" error_msg
  then "ThrottlingException"
  else "Error".

Definition truncate_content (text : string) : string :=
  if (50 <? String.length text)%nat then PyStr.take 50 text ++ "..." else text.

Definition send_bedrock_request (invoke_model : bedrock)
    (request_id : nat) (model_id question profile_name account_type : string)
    : log_line * ProbeResult :=
  match invoke_model request_id model_id question profile_name with
  | Responded elapsed text =>
      (LogSuccess request_id account_type elapsed,
       {| request_id := request_id;
          success := true;
          account_type := account_type;
          profile := profile_name;
          model_used := Some model_id;
          response_time := elapsed;
          content := Some (truncate_content text);
          error := None |})
  | Raised error_msg =>
      (if PyStr.contains "ThrottlingException" error_msg
          || PyStr.contains "ServiceQuota" error_msg
       then LogThrottled request_id account_type
       else LogError request_id account_type (PyStr.take 50 error_msg ++ "..."),
       {| request_id := request_id;
          success := false;
          account_type := account_type;
          profile := profile_name;
          model_used := None;
          response_time := 0;
          content := None;
          error := Some (error_type error_msg) |})
  end.

(** *** run_cross_account_demo: the dispatch *)

Definition questions : list string :=
  [ "Hello from cross-account request!";
    "Test message for account isolation demo";
    "Cross-account demo request";
    "Multi-account test message";
    "Account distribution test" ].

(** Which account the nested [worker(req_id)] uses; [random_choice req_id]
    is what [random.choice([True, False])] returns in that worker. *)
Definition use_primary (distribution_strategy : string) (num_requests : Z)
    (random_choice : nat -> bool) (req_id : nat) : bool :=
  if String.eqb distribution_strategy "round-robin"
  then (req_id mod 2 =? 0)%nat
  else if String.eqb distribution_strategy "split"
  then (Z.of_nat req_id <? num_requests / 2)%Z
  else random_choice req_id.

Section Dispatch.
Variable invoke_model : bedrock.
Variables primary_profile secondary_profile model_id : string.
Variable distribution_strategy : string.
Variable random_choice : nat -> bool.
Variable num_requests : Z.

(** The result the nested [worker(req_id)] appends to [results]. *)
Definition worker (req_id : nat) : ProbeResult :=
  let question := nth (req_id mod length questions) questions "" in
  let use_primary :=
    use_primary distribution_strategy num_requests random_choice req_id in
  let profile := if use_primary then primary_profile else secondary_profile in
  let account_type := if use_primary then "ACCOUNT1" else "ACCOUNT2" in
  snd (send_bedrock_request invoke_model (req_id + 1) model_id question
         profile account_type).

(** [ThreadPoolExecutor(max_workers=min(num_requests, 20))] *)
Definition max_workers : Z := Z.min num_requests 20.

Definition dispatch : option (Executor.pool_state (A := ProbeResult)) :=
  if (max_workers <=? 0)%Z then None
  else Some (Executor.submitted (Z.to_nat num_requests)).

(** [results] is what the shared list holds when the [with] block of
    [run_cross_account_demo] is left. *)
Definition collected (results : list ProbeResult) : Prop :=
  exists s,
    Executor.at_barrier worker (Z.to_nat max_workers)
      (Z.to_nat num_requests) s
    /\ Executor.results s = results.
End Dispatch.

(** *** analyze_cross_account_results: the statistics *)

(** The results of the dispatcher of demo_account_sharding.py carry one of
    its two account labels. *)
Definition labelled (r : ProbeResult) : Prop :=
  account_type r = "ACCOUNT1" \/ account_type r = "ACCOUNT2".


Definition primary_results (results : list ProbeResult) : list ProbeResult :=
  List.filter (fun r => String.eqb (account_type r) "ACCOUNT1") results.

Definition secondary_results (results : list ProbeResult) : list ProbeResult :=
  List.filter (fun r => String.eqb (account_type r) "ACCOUNT2") results.

(** [len([r for r in rs if r["success"]])] *)
Definition count_successful (rs : list ProbeResult) : nat :=
  length (List.filter (fun r => success r) rs).

(** [len([r for r in rs if not r["success"]])] *)
Definition count_failed (rs : list ProbeResult) : nat :=
  length (List.filter (fun r => negb (success r)) rs).

(** [len([r for r in rs if r.get("error") == "ThrottlingException"])] *)
Definition count_throttled (rs : list ProbeResult) : nat :=
  length (List.filter
            (fun r => match error r with
                      | Some e => String.eqb e "ThrottlingException"
                      | None => false
                      end) rs).

(** [sum(r["response_time"] for r in rs if r["success"]) / n if n else 0]
    with [n] the number of successes of [rs]. *)
Definition avg_time (rs : list ProbeResult) : Q :=
  if (0 <? count_successful rs)%nat
  then (PyNum.sum (map response_time (List.filter (fun r => success r) rs))
        / PyNum.of_int (count_successful rs))%Q
  else 0%Q.

Definition primary_successful results := count_successful (primary_results results).
Definition secondary_successful results := count_successful (secondary_results results).
Definition primary_avg_time results := avg_time (primary_results results).
Definition secondary_avg_time results := avg_time (secondary_results results).

Definition total_successful (results : list ProbeResult) : nat :=
  (primary_successful results + secondary_successful results)%nat.

Definition success_rate_of (results : list ProbeResult) : Q :=
  if (0 <? length results)%nat
  then ((PyNum.of_int (total_successful results)
         / PyNum.of_int (length results)) * 100)%Q
  else 0%Q.

(** One line of the printed table. *)
Record table_row := {
  row_total : nat;
  row_success : nat;
  row_failed : nat;
  row_success_rate : Q;
  row_avg_time : Q
}.

(** The line of an account, printed when it has results. *)
Definition account_row (rs : list ProbeResult) : option table_row :=
  if (0 <? length rs)%nat
  then Some {| row_total := length rs;
               row_success := count_successful rs;
               row_failed := count_failed rs;
               row_success_rate :=
                 ((PyNum.of_int (count_successful rs)
                   / PyNum.of_int (length rs)) * 100)%Q;
               row_avg_time := avg_time rs |}
  else None.

(** The TOTAL line. *)
Definition total_row (results : list ProbeResult) : table_row :=
  {| row_total := length results;
     row_success := total_successful results;
     row_failed := (length results - total_successful results)%nat;
     row_success_rate := success_rate_of results;
     row_avg_time :=
       ((primary_avg_time results + secondary_avg_time results) / 2)%Q |}.

(** The dictionary the function returns. *)
Record Summary := {
  total_requests : nat;
  successful : nat;
  failed : nat;
  success_rate : Q;
  primary_requests : nat;
  secondary_requests : nat;
  total_time : Q
}.

Definition statistics (results : list ProbeResult) (total_time : Q) : Summary :=
  {| total_requests := length results;
     successful := total_successful results;
     failed := (length results - total_successful results)%nat;
     success_rate := success_rate_of results;
     primary_requests := length (primary_results results);
     secondary_requests := length (secondary_results results);
     total_time := total_time |}.

(** *** analyze_cross_account_results: the CloudWatch polling loop *)

(** The dictionary returned by [get_cloudwatch_results]. *)
Record Snapshot := {
  region_distribution : gmap string Z;
  total_invocations : Z;
  cw_account_type : string
}.

Inductive cw_result :=
| CwNone
| CwEmpty
| CwData (snapshot : Snapshot).

Definition get_cloudwatch_results (rows : list (string * Z))
    (account_type : string) : cw_result :=
  match rows with
  | [] => CwEmpty
  | _ :: _ =>
      CwData {| region_distribution := CloudWatch.distribution_of rows;
                total_invocations := CloudWatch.sum_counts rows;
                cw_account_type := account_type |}
  end.

Definition query_cloudwatch_distribution_for_account (account_type : string)
    (o : CloudWatch.query_outcome) : cw_result :=
  match o with
  | CloudWatch.Unavailable => CwNone
  | CloudWatch.Results rows => get_cloudwatch_results rows account_type
  | CloudWatch.Malformed => CwEmpty
  end.

(** [if result and result.get('region_distribution'):
       all_cloudwatch_results[result['account_type']] = result] *)
Definition store (result : cw_result) (all : gmap string Snapshot)
    : gmap string Snapshot :=
  match result with
  | CwData s =>
      if decide (region_distribution s = ∅) then all
      else <[cw_account_type s := s]> all
  | _ => all
  end.

(** [label in all and all[label].get('total_invocations', 0) == expected] *)
Definition got (label : string) (expected : nat)
    (all : gmap string Snapshot) : bool :=
  match all !! label with
  | Some s => (total_invocations s =? Z.of_nat expected)%Z
  | None => false
  end.

(** [all.get(label, {}).get('total_invocations', 0)] *)
Definition found (label : string) (all : gmap string Snapshot) : Z :=
  match all !! label with
  | Some s => total_invocations s
  | None => 0%Z
  end.

Inductive event :=
| EvSleep (seconds : nat)
| EvQuery (attempt : nat) (account_type : string)
| EvRetryLog (attempt : nat) (missing : list (string * Z * nat)).

Definition max_attempts : nat := 5.

Section Poller.
(** [query attempt account] is what CloudWatch answers to the query of
    that account in that attempt; [reversed attempt] tells whether
    [as_completed] yields the two futures in reverse submission order. *)
Variable query : nat -> string -> CloudWatch.query_outcome.
Variable reversed : nat -> bool.
Variables primary_successful secondary_successful : nat.

(** The accounts queried in one attempt, in submission order. *)
Definition futures : list string :=
  (if (0 <? primary_successful)%nat then ["ACCOUNT1"] else [])
  ++ (if (0 <? secondary_successful)%nat then ["ACCOUNT2"] else []).

(** [for future in as_completed(futures): ...] *)
Definition collect (attempt : nat) (all : gmap string Snapshot)
    : gmap string Snapshot :=
  fold_left
    (fun all account =>
       store (query_cloudwatch_distribution_for_account account
                (query attempt account)) all)
    (if reversed attempt then rev futures else futures)
    all.

(** The test of the [break]. *)
Definition all_complete (all : gmap string Snapshot) : bool :=
  let expected_primary := (0 <? primary_successful)%nat in
  let expected_secondary := (0 <? secondary_successful)%nat in
  let got_primary := got "ACCOUNT1" primary_successful all in
  let got_secondary := got "ACCOUNT2" secondary_successful all in
  (negb expected_primary || got_primary)
  && (negb expected_secondary || got_secondary).

Definition missing (all : gmap string Snapshot) : list (string * Z * nat) :=
  (if (0 <? primary_successful)%nat
      && negb (got "ACCOUNT1" primary_successful all)
   then [("ACCOUNT1", found "ACCOUNT1" all, primary_successful)] else [])
  ++ (if (0 <? secondary_successful)%nat
         && negb (got "ACCOUNT2" secondary_successful all)
      then [("ACCOUNT2", found "ACCOUNT2" all, secondary_successful)] else []).

Fixpoint poll_loop (attempts : list nat) (all : gmap string Snapshot)
    : list event * gmap string Snapshot :=
  match attempts with
  | [] => ([], all)
  | attempt :: rest =>
      let wait_time := if (attempt =? 0)%nat then 60%nat else 30%nat in
      let queries := map (EvQuery attempt) futures in
      let all := collect attempt all in
      if all_complete all
      then (EvSleep wait_time :: queries, all)
      else
        let retry_log :=
          if (attempt <? 4)%nat
          then [EvRetryLog attempt (missing all)]
          else [] in
        let '(events, final) := poll_loop rest all in
        (EvSleep wait_time :: queries ++ retry_log ++ events, final)
  end.

Definition poll : list event * gmap string Snapshot :=
  poll_loop (seq 0 max_attempts) ∅.

(** Notions in which the behaviour of the loop is stated. *)

(** What the query of an account returns in an attempt. *)
Definition answer (attempt : nat) (account : string) : cw_result :=
  query_cloudwatch_distribution_for_account account (query attempt account).

(** The snapshot an answer makes available, if any. *)
Definition available (r : cw_result) : option Snapshot :=
  match r with
  | CwData s =>
      if decide (region_distribution s = ∅) then None else Some s
  | _ => None
  end.

(** The last snapshot made available for an account by the attempts
    [0, ..., k-1]. *)
Fixpoint latest (account : string) (k : nat) : option Snapshot :=
  match k with
  | O => None
  | S k' =>
      match available (answer k' account) with
      | Some s => Some s
      | None => latest account k'
      end
  end.

(** The store after the attempts [b, ..., b+k-1], started from [all], when
    the loop does not stop in between. *)
Definition store_from (all : gmap string Snapshot) (b k : nat)
    : gmap string Snapshot :=
  fold_left (fun all a => collect a all) (seq b k) all.

(** The waits of a run, in order. *)
Definition slept (events : list event) : list nat :=
  flat_map (fun e => match e with EvSleep w => [w] | _ => [] end) events.

(** The queries that one attempt submits. *)
Definition queries_of (attempt : nat) : list (nat * string) :=
  map (pair attempt) futures.

End Poller.

(** The [(attempt, account)] pairs at which CloudWatch was queried. *)
Definition queried (events : list event) : list (nat * string) :=
  flat_map (fun e => match e with
                     | EvQuery a account => [(a, account)]
                     | _ => []
                     end) events.

Definition analyze_cross_account_results
    (query : nat -> string -> CloudWatch.query_outcome) (reversed : nat -> bool)
    (results : list ProbeResult) (total_time : Q)
    : list event * gmap string Snapshot * Summary :=
  let summary := statistics results total_time in
  if (0 <? total_successful results)%nat
  then (poll query reversed (primary_successful results)
          (secondary_successful results), summary)
  else ([], ∅, summary).

(** *** main *)

Inductive main_outcome :=
| Exit (status : Z) (message : string)
| Run (num_requests : Z) (distribution_strategy : string).

Definition main (requests : Z) (strategy : string) : main_outcome :=
  if (requests <? 1)%Z
  then Exit 1 "Error: Number of requests must be at least 1"
  else if (100 <? requests)%Z
  then Exit 1 "Error: Maximum 100 requests allowed to avoid overwhelming the system"
  else Run requests strategy.

End Sharding.

(** ** demo_load_balancing.py *)

Module LoadBalancing.

(** The dictionary returned by [send_request]; the key ["error"] is only
    present on failure. *)
Record ProbeResult := {
  request_id : nat;
  model_used : option string;
  response_time : Q;
  success : bool;
  error : option string
}.

(** [model] is [getattr(response, 'model', 'unknown')]. *)
Inductive completion_outcome :=
| Completed (elapsed : Q) (model : string)
| Raised (error_msg : string).

Definition send_request (request_id : nat) (outcome : completion_outcome)
    : ProbeResult :=
  match outcome with
  | Completed elapsed model =>
      {| request_id := request_id;
         model_used := Some model;
         response_time := elapsed;
         success := true;
         error := None |}
  | Raised error_msg =>
      {| request_id := request_id;
         model_used := Some "error";
         response_time := 0;
         success := false;
         error := Some error_msg |}
  end.

(** [avg_response_time] of [demo_load_balancing] *)
Definition avg_response_time (results : list ProbeResult) : Q :=
  let successful_requests := length (List.filter (fun r => success r) results) in
  if (0 <? successful_requests)%nat
  then (PyNum.sum (map response_time (List.filter (fun r => success r) results))
        / PyNum.of_int successful_requests)%Q
  else 0%Q.

(** *** main *)

Inductive main_outcome :=
| Exit (status : Z) (message : string)
| RunLoop (interval_seconds : Z)
| RunOnce.

Definition main (loop : bool) (interval : Z) : main_outcome :=
  if loop
  then if (interval <? 5)%Z
       then Exit 1 "Error: Minimum interval is 5 seconds"
       else RunLoop interval
  else RunOnce.

End LoadBalancing.


(** ** Two runs used as examples *)

Module Scenario.

(** The end-to-end scenario: four probes of demo_cris.py, the first and
    third answered in one second, the second and fourth throttled. *)
Definition bedrock : Cris.bedrock :=
  fun request_id _ _ =>
    if Nat.odd request_id then Cris.Responded 1 "ok"
    else Cris.Raised "ThrottlingException: rate exceeded".

Definition results : list Cris.ProbeResult :=
  map (Cris.worker bedrock "r1") (seq 0 4).

(** A CloudWatch that has the records of ACCOUNT1 at once and those of
    ACCOUNT2 from the second attempt on; one success in each account. *)
Definition late_secondary (attempt : nat) (account : string)
    : CloudWatch.query_outcome :=
  if String.eqb account "ACCOUNT1" then CloudWatch.Results [("us-east-1", 1%Z)]
  else if (attempt =? 0)%nat then CloudWatch.Unavailable
  else CloudWatch.Results [("us-west-2", 1%Z)].

End Scenario.

(** ** The error kinds as the specification names them

    Only used to compare the specification's wording with [error_type]. *)

Module SpecErrorKind.

Inductive error_kind := Throttled | AccessDenied | GenericError.

(** The classification in the specification's words. *)
Definition classify_spec (error_msg : string) : error_kind :=
  if PyStr.contains "ThrottlingException" error_msg then Throttled
  else if PyStr.contains "AccessDenied" error_msg then AccessDenied
  else GenericError.

(** The kind that an [error] entry of a result names. *)
Definition kind_of_entry (entry : option string) : option error_kind :=
  match entry with
  | Some e =>
      if String.eqb e "ThrottlingException" then Some Throttled
      else if String.eqb e "AccessDenied" then Some AccessDenied
      else if String.eqb e "Error" then Some GenericError
      else None
  | None => None
  end.

End SpecErrorKind.

(** * Further parts of the scripts *)

(** ** The waits of the polling loop of demo_cris.py *)

Module Waits.

(** The waits of a run of [analyze_cris_results], in order. *)
Definition cris_slept (events : list Cris.event) : list nat :=
  flat_map (fun e => match e with Cris.EvSleep w => [w] | _ => [] end) events.

(** The wait before an attempt: a minute before the first, half a minute
    before the others. *)
Definition wait_before (attempt : nat) : nat :=
  if (attempt =? 0)%nat then 60%nat else 30%nat.

End Waits.

(** ** wait_for_query_completion

    The function is the same in demo_cris.py and demo_account_sharding.py up
    to the text of its log lines. *)

Module QueryStatus.

(** One entry of [response.get('queries', [])]; a key that is absent is
    [None]. *)
Record query_info := {
  queryId : option string;
  status : option string
}.

(** What one call of [logs_client.describe_queries()] gives. *)
Inductive describe_outcome :=
| DescribeRaised
| Described (queries : list query_info).

Section Wait.
(** [describe k] is the answer to the [k]-th call, [elapsed k] the value of
    [time.time() - start_time] at the [k]-th test of the [while]. *)
Variable describe : nat -> describe_outcome.
Variable elapsed : nat -> Q.
Variable query_id : string.
Variable timeout_seconds : Q.

(** [for query in ...: if query.get('queryId') == query_id: ...; break] *)
Definition our_query (queries : list query_info) : option query_info :=
  List.find (fun q => match queryId q with
                      | Some i => String.eqb i query_id
                      | None => false
                      end) queries.

(** What one pass through the body of the loop decides: return a value, or
    sleep two seconds and test again. *)
Inductive pass := Return (b : bool) | SleepAndRetry.

Definition check (o : describe_outcome) : pass :=
  match o with
  | DescribeRaised => Return false
  | Described queries =>
      match our_query queries with
      | None => Return false
      | Some q =>
          match status q with
          | None => Return false
          | Some st =>
              if String.eqb st "Complete" then Return true
              else if String.eqb st "Failed" || String.eqb st "Cancelled"
              then Return false
              else SleepAndRetry
          end
      end
  end.

(** The [while] loop from its [k]-th test on; the result comes with the
    number of calls of [describe_queries] made.  [None]: the fuel ran out. *)
Fixpoint wait_loop (fuel k : nat) : option (bool * nat) :=
  match fuel with
  | O => None
  | S fuel' =>
      if Qlt_le_dec (elapsed k) timeout_seconds
      then match check (describe k) with
           | Return b => Some (b, S k)
           | SleepAndRetry => wait_loop fuel' (S k)
           end
      else Some (false, k)
  end.

Definition wait_for_query_completion (fuel : nat) : option (bool * nat) :=
  wait_loop fuel 0.

(** The status seen by the [k]-th call is neither final nor an error. *)
Definition pending (k : nat) : Prop := check (describe k) = SleepAndRetry.

End Wait.
End QueryStatus.

(** ** get_cloudwatch_results, from the rows as CloudWatch returns them *)

Module RawResults.

(** One field of a result row: [{'field': ..., 'value': ...}]. *)
Record result_field := {
  field : string;
  value : string
}.

(** What [logs_client.get_query_results] gives: an exception, or a response
    whose ['results'] may be absent. *)
Inductive fetch_outcome :=
| FetchRaised
| Fetched (results : option (list (list result_field))).

Section Parse.
(** Python's [int] on a string; [None] stands for [ValueError]. *)
Variable int : string -> option Z.

(** The [for row in response['results']] loop; [None] when [int] raises. *)
Fixpoint parse_rows (rows : list (list result_field))
    (region_distribution : gmap string Z) (total_invocations : Z)
    : option (gmap string Z * Z) :=
  match rows with
  | [] => Some (region_distribution, total_invocations)
  | row :: rest =>
      match row with
      | f0 :: f1 :: _ =>
          match int (value f1) with
          | Some count =>
              parse_rows rest (<[value f0 := count]> region_distribution)
                (total_invocations + count)%Z
          | None => None
          end
      | _ => parse_rows rest region_distribution total_invocations
      end
  end.

Definition get_cloudwatch_results (o : fetch_outcome) : Cris.cw_result :=
  match o with
  | FetchRaised => Cris.CwEmpty
  | Fetched None => Cris.CwEmpty
  | Fetched (Some []) => Cris.CwEmpty
  | Fetched (Some (row :: rows)) =>
      match parse_rows (row :: rows) ∅ 0%Z with
      | Some (region_distribution, total_invocations) =>
          Cris.CwData {| Cris.region_distribution := region_distribution;
                         Cris.total_invocations := total_invocations |}
      | None => Cris.CwEmpty
      end
  end.

(** The rows that count, as [(region, count)] pairs: rows with fewer than
    two fields are passed over; [None] when some count does not parse. *)
Fixpoint counted (rows : list (list result_field)) : option (list (string * Z)) :=
  match rows with
  | [] => Some []
  | row :: rest =>
      match row with
      | f0 :: f1 :: _ =>
          match int (value f1), counted rest with
          | Some count, Some ps => Some ((value f0, count) :: ps)
          | _, _ => None
          end
      | _ => counted rest
      end
  end.

End Parse.

(** The sum of the counts of a region table. *)
Definition table_total (region_distribution : gmap string Z) : Z :=
  map_fold (fun _ count acc => (acc + count)%Z) 0%Z region_distribution.

End RawResults.

(** ** query_cloudwatch_distribution: one query from start to results *)

Module QueryPipeline.

(** The calls made to the CloudWatch Logs client. *)
Inductive call :=
| DescribeLogGroups
| StartQuery
| DescribeQueries
| GetQueryResults.

Section Pipeline.
(** What the outside world does during one call of the function:
    [session_ok] tells whether the boto3 session and client are created
    without an exception, [credentials_ok] whether [describe_log_groups]
    succeeds, [started] is the ['queryId'] of the response of [start_query]
    ([None] when that call raises); the rest is as in [QueryStatus] and
    [RawResults]. *)
Variable int : string -> option Z.
Variable session_ok : bool.
Variable credentials_ok : bool.
Variable started : option string.
Variable describe : string -> nat -> QueryStatus.describe_outcome.
Variable elapsed : nat -> Q.
Variable fetch : string -> RawResults.fetch_outcome.

(** The query that is waited for: the id that [start_query] gave, when the
    steps before the wait all went well. *)
Definition awaited (query_id : string) : Prop :=
  session_ok = true /\ credentials_ok = true
  /\ started = Some query_id /\ query_id <> "".

(** [None]: the loop of [wait_for_query_completion] ran out of fuel. *)
Definition query_cloudwatch_distribution (fuel : nat)
    : option (list call * Cris.cw_result) :=
  if negb session_ok then Some ([], Cris.CwNone)
  else if negb credentials_ok then Some ([DescribeLogGroups], Cris.CwNone)
  else
    match started with
    | None => Some ([DescribeLogGroups; StartQuery], Cris.CwNone)
    | Some query_id =>
        if String.eqb query_id ""
        then Some ([DescribeLogGroups; StartQuery], Cris.CwNone)
        else
          match QueryStatus.wait_for_query_completion (describe query_id)
                  elapsed query_id 60 fuel with
          | None => None
          | Some (completed, polls) =>
              let calls :=
                [DescribeLogGroups; StartQuery] ++ repeat DescribeQueries polls in
              if completed
              then Some (calls ++ [GetQueryResults],
                         RawResults.get_cloudwatch_results int (fetch query_id))
              else Some (calls, Cris.CwNone)
          end
    end.

End Pipeline.
End QueryPipeline.

(** ** The region table printed by analyze_cris_results *)

Module CrisReport.

(** The order in which [sorted] puts strings. *)
Definition str_le (a b : string) : Prop := String.leb a b = true.

#[export] Instance str_le_dec : RelDecision str_le.
Proof. intros a b. unfold str_le. apply _. Defined.

Record table_line := {
  region : string;
  count : Z;
  percentage : Q
}.

Inductive report :=
| Table (lines : list table_line)
| Unavailable.

(** [(count / total_cw_invocations * 100) if total_cw_invocations > 0 else 0] *)
Definition percentage_of (count total : Z) : Q :=
  if (0 <? total)%Z then (inject_Z count / inject_Z total * 100)%Q else 0%Q.

(** [sorted(region_dist.keys())] *)
Definition sorted_regions (region_dist : gmap string Z) : list string :=
  merge_sort str_le (map fst (map_to_list region_dist)).

Definition display (cloudwatch_results : Cris.cw_result) : report :=
  match cloudwatch_results with
  | Cris.CwData s =>
      if decide (Cris.region_distribution s = ∅) then Unavailable
      else
        let region_dist := Cris.region_distribution s in
        let total_cw_invocations := Cris.total_invocations s in
        Table (map (fun region =>
                      let count := default 0%Z (region_dist !! region) in
                      {| region := region;
                         count := count;
                         percentage := percentage_of count total_cw_invocations |})
                 (sorted_regions region_dist))
  | _ => Unavailable
  end.

End CrisReport.

(** ** collections.defaultdict(int), as the scripts use it *)

Module DefaultDict.
Section Counts.
Context `{Countable K}.

(** [d[key]] when the table is only read. *)
Definition count (key : K) (d : gmap K nat) : nat :=
  default 0%nat (d !! key).

(** [d[key] += n] *)
Definition bump (key : K) (n : nat) (d : gmap K nat) : gmap K nat :=
  <[key := (count key d + n)%nat]> d.

(** The sum of the counts of a table. *)
Definition table_total (d : gmap K nat) : nat :=
  map_fold (fun _ count acc => (acc + count)%nat) 0%nat d.

End Counts.
End DefaultDict.

(** ** How far the pool lets a result move ahead *)

Module PoolOrder.
Section Window.
Context {A : Type}.
Variable worker : nat -> A.
Variable max_workers : nat.

(** The tasks started so far are the first [started] ones, and the result
    collected in position [k] is the one of a task among the first
    [max_workers + k]. *)
Definition in_order_window (n : nat) (s : Executor.pool_state (A := A)) : Prop :=
  exists started ids,
    Executor.queued s = seq started (n - started)
    /\ (started <= n)%nat
    /\ Forall (fun i => (i < started)%nat) (Executor.running s)
    /\ Executor.results s = map worker ids
    /\ (length ids + length (Executor.running s) = started)%nat
    /\ (length (Executor.running s) <= max_workers)%nat
    /\ forall k i, nth_error ids k = Some i -> (i < max_workers + k)%nat.

End Window.
End PoolOrder.

(** ** demo_load_balancing.py: one run and the loop mode *)

Module LoadBalancingDemo.

(** What a worker does under [results_lock] with its result. *)
Definition record (state : list LoadBalancing.ProbeResult * gmap (option string) nat)
    (result : LoadBalancing.ProbeResult)
    : list LoadBalancing.ProbeResult * gmap (option string) nat :=
  (fst state ++ [result],
   if LoadBalancing.success result
   then DefaultDict.bump (LoadBalancing.model_used result) 1 (snd state)
   else snd state).

(** The shared list and table once the results have arrived in the order
    [arrivals]. *)
Definition collect (arrivals : list LoadBalancing.ProbeResult)
    : list LoadBalancing.ProbeResult * gmap (option string) nat :=
  fold_left record arrivals ([], ∅).

Definition questions : list string :=
  [ "What is machine learning?";
    "Explain cloud computing briefly.";
    "What are microservices?";
    "Define artificial intelligence.";
    "What is serverless computing?";
    "Explain containerization.";
    "What is DevOps?";
    "Define data science.";
    "What is edge computing?";
    "Explain API design." ].

(** The result of the thread started for the [i]-th question (from 0); its
    request id is [i + 1].  [completion id] is what the proxy does with the
    request of that id. *)
Definition worker (completion : nat -> LoadBalancing.completion_outcome)
    (i : nat) : LoadBalancing.ProbeResult :=
  LoadBalancing.send_request (S i) (completion (S i)).

(** [arrivals] is an order in which the ten threads can hand in their
    results before they are all joined. *)
Definition arrived (completion : nat -> LoadBalancing.completion_outcome)
    (arrivals : list LoadBalancing.ProbeResult) : Prop :=
  exists s,
    Executor.at_barrier (worker completion) (length questions)
      (length questions) s
    /\ Executor.results s = arrivals.

(** The dictionary returned by [demo_load_balancing]. *)
Record run_summary := {
  successful_requests : nat;
  failed_requests : nat;
  model_distribution : gmap (option string) nat;
  avg_response_time : Q
}.

Definition demo_load_balancing (arrivals : list LoadBalancing.ProbeResult)
    : run_summary :=
  let results := fst (collect arrivals) in
  {| successful_requests :=
       length (List.filter (fun r => LoadBalancing.success r) results);
     failed_requests :=
       length (List.filter (fun r => negb (LoadBalancing.success r)) results);
     model_distribution := snd (collect arrivals);
     avg_response_time := LoadBalancing.avg_response_time results |}.

(** The percentage printed beside a model. *)
Definition percentage (count successful_requests : nat) : Q :=
  if (0 <? successful_requests)%nat
  then (PyNum.of_int count / PyNum.of_int successful_requests * 100)%Q
  else 0%Q.

(** [total_stats] of [run_loop_mode]. *)
Record total_stats := {
  total_successful : nat;
  total_failed : nat;
  total_runs : nat;
  cumulative_model_distribution : gmap (option string) nat
}.

Definition initial_stats : total_stats :=
  {| total_successful := 0;
     total_failed := 0;
     total_runs := 0;
     cumulative_model_distribution := ∅ |}.

(** The update of [total_stats] after one run. *)
Definition add_run (stats : total_stats) (results : run_summary) : total_stats :=
  {| total_successful := total_successful stats + successful_requests results;
     total_failed := total_failed stats + failed_requests results;
     total_runs := total_runs stats + 1;
     cumulative_model_distribution :=
       fold_left (fun cumulative item => DefaultDict.bump (fst item) (snd item) cumulative)
         (map_to_list (model_distribution results))
         (cumulative_model_distribution stats) |}.

(** [total_stats] after the runs made before the shutdown was requested. *)
Definition run_loop_mode (runs : list run_summary) : total_stats :=
  fold_left add_run runs initial_stats.

(** The wait between two runs: [for _ in range(interval_seconds)], leaving
    at the first test that finds the shutdown requested; the value is the
    number of one-second sleeps made.  [shutdown_requested k] is the flag at
    the [k]-th test. *)
Fixpoint wait_for_next_run (shutdown_requested : nat -> bool)
    (interval_seconds k : nat) : nat :=
  match interval_seconds with
  | O => O
  | S rest =>
      if shutdown_requested k then O
      else S (wait_for_next_run shutdown_requested rest (S k))
  end.

(** The number of successful results of [results] that name [model]. *)
Definition answered_by (model : option string)
    (results : list LoadBalancing.ProbeResult) : nat :=
  length (List.filter
            (fun r => LoadBalancing.success r
                      && bool_decide (LoadBalancing.model_used r = model))
            results).

(** The "Success Rate" of the final statistics; [None] stands for "N/A". *)
Definition final_success_rate (stats : total_stats) : option Q :=
  if (0 <? total_successful stats + total_failed stats)%nat
  then Some (PyNum.of_int (total_successful stats)
             / PyNum.of_int (total_successful stats + total_failed stats)
             * 100)%Q
  else None.

End LoadBalancingDemo.

(** ** demo_fallback.py *)

Module Fallback.

(** [str.lower] on the characters that matter for the test below: the
    letters [A] to [Z] become [a] to [z]. *)
Definition lower_char (c : Ascii.ascii) : Ascii.ascii :=
  let n := Ascii.nat_of_ascii c in
  if (65 <=? n)%nat && (n <=? 90)%nat then Ascii.ascii_of_nat (n + 32) else c.

Fixpoint lower (s : string) : string :=
  match s with
  | EmptyString => EmptyString
  | String c s' => String (lower_char c) (lower s')
  end.

(** ['sonnet-3-5' in model_used.lower() or '3-5-sonnet' in model_used.lower()] *)
Definition names_fallback (model_used : string) : bool :=
  PyStr.contains "sonnet-3-5" (lower model_used)
  || PyStr.contains "3-5-sonnet" (lower model_used).

(** What the call of the proxy does: it answers, or raises
    [openai.RateLimitError], another [openai.APIError], or another
    exception; [model] is [getattr(response, 'model', 'unknown')]. *)
Inductive completion_outcome :=
| Completed (elapsed : Q) (model : string)
| RateLimitError (error_msg : string)
| APIError (error_msg : string)
| Raised (error_msg : string).

(** One entry of [results]; a key that is absent is [None]. *)
Record Result := {
  request_id : nat;
  model : option string;
  response_time : option Q;
  is_fallback : option bool;
  error : option string;
  success : bool
}.

(** One entry of [fallback_events]. *)
Record FallbackEvent := {
  event_request_id : nat;
  event_model : string;
  time : Q
}.

(** The data the threads share. *)
Record shared := {
  results : list Result;
  model_usage : gmap string nat;
  fallback_events : list FallbackEvent
}.

Definition initial : shared :=
  {| results := []; model_usage := ∅; fallback_events := [] |}.

Definition failure (req_id : nat) (error : string) : Result :=
  {| request_id := req_id;
     model := None;
     response_time := None;
     is_fallback := None;
     error := Some error;
     success := false |}.

(** What [worker] does to the shared data under [results_lock]. *)
Definition worker (st : shared) (arrival : nat * completion_outcome) : shared :=
  let req_id := fst arrival in
  match snd arrival with
  | Completed elapsed model_used =>
      let is_fallback := names_fallback model_used in
      {| results :=
           results st ++ [{| request_id := req_id;
                             model := Some model_used;
                             response_time := Some elapsed;
                             is_fallback := Some is_fallback;
                             error := None;
                             success := true |}];
         model_usage := DefaultDict.bump model_used 1 (model_usage st);
         fallback_events :=
           if is_fallback
           then fallback_events st ++ [{| event_request_id := req_id;
                                          event_model := model_used;
                                          time := elapsed |}]
           else fallback_events st |}
  | RateLimitError _ =>
      {| results := results st ++ [failure req_id "RateLimitError"];
         model_usage := model_usage st;
         fallback_events := fallback_events st |}
  | APIError _ =>
      {| results := results st ++ [failure req_id "APIError"];
         model_usage := model_usage st;
         fallback_events := fallback_events st |}
  | Raised error_msg =>
      {| results := results st ++ [failure req_id error_msg];
         model_usage := model_usage st;
         fallback_events := fallback_events st |}
  end.

(** The shared data once the threads have taken the lock in the order
    [arrivals]. *)
Definition run (arrivals : list (nat * completion_outcome)) : shared :=
  fold_left worker arrivals initial.

(** The figures printed under "FALLBACK DEMONSTRATION RESULTS". *)
Record summary := {
  total_requests : nat;
  successful_requests : nat;
  failed_requests : nat;
  primary_count : Z;
  fallback_count : nat
}.

Definition trigger_rate_limit_scenario (arrivals : list (nat * completion_outcome))
    : summary :=
  let st := run arrivals in
  let successful_requests :=
    length (List.filter (fun r => success r) (results st)) in
  let failed_requests :=
    length (List.filter (fun r => negb (success r)) (results st)) in
  let fallback_count := length (fallback_events st) in
  {| total_requests := length (results st);
     successful_requests := successful_requests;
     failed_requests := failed_requests;
     primary_count := (Z.of_nat successful_requests - Z.of_nat fallback_count)%Z;
     fallback_count := fallback_count |}.

(** The arrivals that are answers, by a fallback model or not. *)
Definition answered (fallback : bool) (arrival : nat * completion_outcome) : bool :=
  match snd arrival with
  | Completed _ model_used => Bool.eqb (names_fallback model_used) fallback
  | _ => false
  end.

End Fallback.

(** ** demo_quota_isolation.py *)

Module QuotaIsolation.

(** What the [try] block of [send_consumer_request] meets: an answer,
    [openai.RateLimitError], or another exception with its [str(e)]. *)
Inductive completion_outcome :=
| Completed (elapsed : Q) (model : string)
| RateLimitError
| Raised (error_msg : string).

Record Result := {
  consumer_id : string;
  request_id : nat;
  success : bool;
  model_used : option string;
  response_time : Q;
  error : option string
}.

Definition send_consumer_request (consumer_id : string) (request_id : nat)
    (outcome : completion_outcome) : Result :=
  match outcome with
  | Completed elapsed model =>
      {| consumer_id := consumer_id;
         request_id := request_id;
         success := true;
         model_used := Some model;
         response_time := elapsed;
         error := None |}
  | RateLimitError =>
      {| consumer_id := consumer_id;
         request_id := request_id;
         success := false;
         model_used := None;
         response_time := 0;
         error := Some "RateLimitError" |}
  | Raised error_msg =>
      {| consumer_id := consumer_id;
         request_id := request_id;
         success := false;
         model_used := None;
         response_time := 0;
         error := Some error_msg |}
  end.

(** [worker] of [run_consumer_workload]: task [req_id] sends the request
    [req_id + 1]. *)
Definition worker (consumer_id : string) (completion : nat -> completion_outcome)
    (req_id : nat) : Result :=
  send_consumer_request consumer_id (S req_id) (completion (S req_id)).

(** The lists [run_consumer_workload] can return. *)
Definition run_consumer_workload (consumer_id : string)
    (completion : nat -> completion_outcome) (num_requests : nat)
    (results : list Result) : Prop :=
  exists s,
    Executor.at_barrier (worker consumer_id completion) num_requests
      num_requests s
    /\ Executor.results s = results.

Record consumer := {
  id : string;
  type : string;
  requests : nat
}.

Definition consumers : list consumer :=
  [ {| id := "A"; type := "NOISY"; requests := 5 |};
    {| id := "B"; type := "NORMAL"; requests := 5 |};
    {| id := "C"; type := "NORMAL"; requests := 5 |} ].

(** One entry of [consumer_stats]. *)
Record stats := {
  stats_type : string;
  total : nat;
  successful : nat;
  failed : nat;
  rate_limited : nat;
  success_rate : Q;
  avg_response_time : Q
}.

(** [r.get("error") == "RateLimitError"] *)
Definition is_rate_limited (r : Result) : bool :=
  match error r with
  | Some e => String.eqb e "RateLimitError"
  | None => false
  end.

Definition stats_of (type : string) (results : list Result) : stats :=
  let successful := length (List.filter (fun r => success r) results) in
  {| stats_type := type;
     total := length results;
     successful := successful;
     failed := length (List.filter (fun r => negb (success r)) results);
     rate_limited := length (List.filter is_rate_limited results);
     success_rate :=
       match results with
       | [] => 0
       | _ => (PyNum.of_int successful / PyNum.of_int (length results) * 100)%Q
       end;
     avg_response_time :=
       if (0 <? successful)%nat
       then (PyNum.sum (map response_time
                          (List.filter (fun r => success r) results))
             / PyNum.of_int successful)%Q
       else 0 |}.

(** The dictionary returned by [analyze_and_display_results]. *)
Record analysis := {
  consumer_stats : gmap string stats;
  isolation_effective : bool;
  noisy_rate_limited : bool
}.

Definition Qge_bool (a b : Q) : bool := if Qlt_le_dec a b then false else true.

Definition analyze_and_display_results (all_results : gmap string (list Result))
    (consumers : list consumer) : analysis :=
  let consumer_stats :=
    fold_left (fun acc c =>
                 <[id c := stats_of (type c) (default [] (all_results !! id c))]> acc)
      consumers ∅ in
  let normal_b_success_rate :=
    default 0%Q (success_rate <$> consumer_stats !! "B") in
  let normal_c_success_rate :=
    default 0%Q (success_rate <$> consumer_stats !! "C") in
  {| consumer_stats := consumer_stats;
     isolation_effective :=
       Qge_bool normal_b_success_rate 80 && Qge_bool normal_c_success_rate 80;
     noisy_rate_limited :=
       (0 <? default 0%nat (rate_limited <$> consumer_stats !! "A"))%nat |}.

(** The line of a consumer is printed without colour. *)
Definition printed_plain (s : stats) : bool :=
  if Qeq_dec (success_rate s) 100 then true else false.

(** [all_results] once the three workloads have returned. *)
Definition demo_quota_isolation (results_a results_b results_c : list Result)
    : analysis :=
  analyze_and_display_results
    (<["C" := results_c]> (<["B" := results_b]> (<["A" := results_a]> ∅)))
    consumers.

End QuotaIsolation.

(** * Properties *)

(** ** Substrings *)

Section Substrings.

Lemma append_cons (c : Ascii.ascii) (s t : string) :
  (String c s ++ t)%string = String c (s ++ t)%string.
Proof. reflexivity. Qed.

Lemma append_nil (t : string) : ("" ++ t)%string = t.
Proof. reflexivity. Qed.

Lemma prefix_true_iff (sub s : string) :
  String.prefix sub s = true <-> exists post, s = (sub ++ post)%string.
Proof.
  revert s. induction sub as [|a sub IH]; intros s.
  - split; [intros _; exists s; reflexivity | intros _; destruct s; reflexivity].
  - destruct s as [|b s].
    + split; [discriminate |].
      intros [post H]. rewrite append_cons in H. discriminate.
    + change (String.prefix (String a sub) (String b s))
        with (if Ascii.ascii_dec a b then String.prefix sub s else false).
      destruct (Ascii.ascii_dec a b) as [->|Hne].
      * rewrite IH. split; intros [post H]; exists post.
        -- rewrite append_cons. now rewrite H.
        -- rewrite append_cons in H. now injection H.
      * split; [discriminate |].
        intros [post H]. rewrite append_cons in H. injection H; intros; congruence.
Qed.

Lemma contains_unfold (sub s : string) :
  PyStr.contains sub s =
  if String.prefix sub s then true
  else match s with
       | EmptyString => false
       | String _ s' => PyStr.contains sub s'
       end.
Proof. destruct s; reflexivity. Qed.

Lemma contains_true_iff (sub s : string) :
  PyStr.contains sub s = true <-> PyStr.occurs sub s.
Proof.
  unfold PyStr.occurs. induction s as [|c s IH]; rewrite contains_unfold.
  - destruct (String.prefix sub "") eqn:Hp.
    + split; [intros _ | intros _; reflexivity].
      apply prefix_true_iff in Hp as [post Hp]. exists "", post. exact Hp.
    + split; [discriminate |].
      intros (pre & post & H). destruct pre; [|rewrite append_cons in H; discriminate].
      rewrite append_nil in H.
      assert (String.prefix sub "" = true) as Hp'
        by (apply prefix_true_iff; exists post; exact H).
      congruence.
  - destruct (String.prefix sub (String c s)) eqn:Hp.
    + split; [intros _ | intros _; reflexivity].
      apply prefix_true_iff in Hp as [post Hp]. exists "", post. exact Hp.
    + rewrite IH. split.
      * intros (pre & post & H). exists (String c pre), post.
        rewrite append_cons. now rewrite H.
      * intros (pre & post & H). destruct pre as [|c' pre].
        -- rewrite append_nil in H.
           assert (String.prefix sub (String c s) = true) as Hp'
             by (apply prefix_true_iff; exists post; exact H).
           congruence.
        -- rewrite append_cons in H. injection H as _ H. exists pre, post. exact H.
Qed.

Lemma contains_false_iff (sub s : string) :
  PyStr.contains sub s = false <-> ~ PyStr.occurs sub s.
Proof.
  rewrite <- contains_true_iff.
  destruct (PyStr.contains sub s); split; congruence.
Qed.

End Substrings.

(** ** Sums of response times *)

Section Sums.
Local Open Scope Q_scope.

Lemma fold_left_Qplus_acc (xs : list Q) (a : Q) :
  fold_left Qplus xs a == a + PyNum.sum xs.
Proof.
  unfold PyNum.sum. revert a.
  induction xs as [|x xs IH]; intros a; simpl.
  - ring.
  - rewrite (IH (a + x)), (IH (0 + x)). ring.
Qed.

Lemma sum_cons (x : Q) (xs : list Q) :
  PyNum.sum (x :: xs) == x + PyNum.sum xs.
Proof.
  unfold PyNum.sum at 1. simpl. rewrite fold_left_Qplus_acc. ring.
Qed.

Lemma sum_nil : PyNum.sum [] = 0.
Proof. reflexivity. Qed.

(** Entries that the filter drops and whose value is zero do not change
    a sum. *)
Lemma sum_filter_zero {A : Type} (value : A -> Q) (keep : A -> bool)
    (l : list A) :
  Forall (fun r => keep r = false -> value r == 0) l ->
  PyNum.sum (map value l) == PyNum.sum (map value (List.filter keep l)).
Proof.
  induction 1 as [|r l Hr _ IH]; simpl.
  - reflexivity.
  - destruct (keep r) eqn:Hk; simpl.
    + rewrite !sum_cons, IH. reflexivity.
    + rewrite sum_cons, IH, (Hr eq_refl). ring.
Qed.

Lemma filter_partition_length {A : Type} (keep : A -> bool) (l : list A) :
  (length (List.filter keep l)
   + length (List.filter (fun r => negb (keep r)) l) = length l)%nat.
Proof.
  induction l as [|r l IH]; simpl; [reflexivity|].
  destruct (keep r); simpl; lia.
Qed.


End Sums.

(** ** Failed probes: error kind and fields *)

Section FailedProbes.
Local Open Scope Q_scope.

Lemma cris_error_type_throttled (msg : string) :
  PyStr.occurs "ThrottlingException" msg \/ PyStr.occurs "ServiceQuota" msg ->
  Cris.error_type msg = "ThrottlingException".
Proof.
  unfold Cris.error_type.
  intros [H|H]; apply contains_true_iff in H; rewrite H;
    [reflexivity | now rewrite orb_true_r].
Qed.

Lemma cris_error_type_generic (msg : string) :
  ~ PyStr.occurs "ThrottlingException" msg -> ~ PyStr.occurs "ServiceQuota" msg ->
  Cris.error_type msg = "Error".
Proof.
  unfold Cris.error_type.
  intros H1%contains_false_iff H2%contains_false_iff. now rewrite H1, H2.
Qed.

Lemma sharding_error_type_eq (msg : string) :
  Sharding.error_type msg = Cris.error_type msg.
Proof. reflexivity. Qed.

Lemma cris_worker_failed_zero (invoke_model : Cris.bedrock) (model_id : string)
    (req_id : nat) :
  Cris.success (Cris.worker invoke_model model_id req_id) = false ->
  Cris.response_time (Cris.worker invoke_model model_id req_id) == 0.
Proof.
  unfold Cris.worker, Cris.send_bedrock_request.
  destruct (invoke_model _ _ _); simpl; [discriminate | reflexivity].
Qed.

Lemma sharding_worker_failed_zero invoke_model p1 p2 model_id strategy
    random_choice n (req_id : nat) :
  let r := Sharding.worker invoke_model p1 p2 model_id strategy random_choice
             n req_id in
  Sharding.success r = false -> Sharding.response_time r == 0.
Proof.
  unfold Sharding.worker, Sharding.send_bedrock_request.
  destruct (invoke_model _ _ _ _); simpl; [discriminate | reflexivity].
Qed.

Lemma load_balancing_failed_zero (req_id : nat)
    (o : LoadBalancing.completion_outcome) :
  LoadBalancing.success (LoadBalancing.send_request req_id o) = false ->
  LoadBalancing.response_time (LoadBalancing.send_request req_id o) == 0.
Proof. destruct o; simpl; [discriminate | reflexivity]. Qed.

End FailedProbes.

(** C6, as stated, fails: a message that contains ["AccessDenied"] (and no
    throttling marker) gives a result whose [error] entry is ["Error"], the
    generic kind, in both scripts; the claim wants the AccessDenied kind. *)
Lemma access_denied_is_reported_as_generic_error :
  let msg := "An error occurred (AccessDeniedException) when calling InvokeModel" in
  let rc := snd (Cris.send_bedrock_request (fun _ _ _ => Cris.Raised msg) 1 "m" "q") in
  let rs := snd (Sharding.send_bedrock_request (fun _ _ _ _ => Sharding.Raised msg)
                   1 "m" "q" "default" "ACCOUNT1") in
  PyStr.contains "AccessDenied" msg = true
  /\ SpecErrorKind.classify_spec msg = SpecErrorKind.AccessDenied
  /\ Cris.error rc = Some "Error"
  /\ Sharding.error rs = Some "Error"
  /\ SpecErrorKind.kind_of_entry (Cris.error rc) = Some SpecErrorKind.GenericError
  /\ SpecErrorKind.kind_of_entry (Cris.error rc)
     <> Some (SpecErrorKind.classify_spec msg)
  /\ SpecErrorKind.kind_of_entry (Sharding.error rs)
     <> Some (SpecErrorKind.classify_spec msg).
Proof. vm_compute. repeat split; discriminate. Qed.

(** C6, amended: the [error] entry of a failed probe has two values only.
    A message in which ["ThrottlingException"] or ["ServiceQuota"] occurs
    gives ["ThrottlingException"]; every other message, one containing
    ["AccessDenied"] included, gives the generic ["Error"].  In demo_cris.py
    only the progress line tells such a message apart, as "Access Denied",
    when ["ValidationException"] does not occur in it. *)
Theorem failed_probe_error_kind
    (cris_invoke : Cris.bedrock) (sharding_invoke : Sharding.bedrock)
    (request_id : nat) (model_id question profile_name account_type msg : string)
    (Hc : cris_invoke request_id model_id question = Cris.Raised msg)
    (Hs : sharding_invoke request_id model_id question profile_name
          = Sharding.Raised msg) :
  let rc := Cris.send_bedrock_request cris_invoke request_id model_id question in
  let rs := Sharding.send_bedrock_request sharding_invoke request_id model_id
              question profile_name account_type in
  (PyStr.occurs "ThrottlingException" msg \/ PyStr.occurs "ServiceQuota" msg ->
     Cris.error (snd rc) = Some "ThrottlingException"
     /\ Sharding.error (snd rs) = Some "ThrottlingException")
  /\ (~ PyStr.occurs "ThrottlingException" msg -> ~ PyStr.occurs "ServiceQuota" msg ->
     Cris.error (snd rc) = Some "Error"
     /\ Sharding.error (snd rs) = Some "Error")
  /\ (PyStr.occurs "AccessDenied" msg ->
      ~ PyStr.occurs "ThrottlingException" msg -> ~ PyStr.occurs "ServiceQuota" msg ->
      ~ PyStr.occurs "ValidationException" msg ->
      fst rc = Cris.LogError request_id "Access Denied").
Proof.
  intros rc rs. subst rc rs.
  unfold Cris.send_bedrock_request, Sharding.send_bedrock_request.
  rewrite Hc, Hs. simpl. repeat split.
  - now rewrite cris_error_type_throttled.
  - now rewrite sharding_error_type_eq, cris_error_type_throttled.
  - now rewrite cris_error_type_generic.
  - now rewrite sharding_error_type_eq, cris_error_type_generic.
  - intros Ha%contains_true_iff Ht%contains_false_iff Hq%contains_false_iff
      Hv%contains_false_iff.
    unfold Cris.sanitized_error. now rewrite Ht, Hq, Hv, Ha.
Qed.

Lemma failed_probe_error_kind_witness :
  let msg := "AccessDeniedException: not authorized" in
  Cris.error (snd (Cris.send_bedrock_request (fun _ _ _ => Cris.Raised msg) 3 "m" "q"))
    = Some "Error"
  /\ Sharding.error (snd (Sharding.send_bedrock_request
                           (fun _ _ _ _ => Sharding.Raised msg) 3 "m" "q" "p" "ACCOUNT2"))
    = Some "Error".
Proof.
  intros msg.
  apply (failed_probe_error_kind (fun _ _ _ => Cris.Raised msg)
           (fun _ _ _ _ => Sharding.Raised msg) 3 "m" "q" "p" "ACCOUNT2" msg
           eq_refl eq_refl);
    apply contains_false_iff; vm_compute; reflexivity.
Defined.

(** C10, as stated, fails in demo_load_balancing.py: the result of a failed
    call carries [model_used = "error"], not [None]. *)
Lemma load_balancing_failure_names_a_model :
  let r := LoadBalancing.send_request 1 (LoadBalancing.Raised "Connection error.") in
  LoadBalancing.success r = false
  /\ LoadBalancing.model_used r = Some "error"
  /\ LoadBalancing.model_used r <> None.
Proof. simpl. repeat split; discriminate. Qed.

(** C10, amended: a failed probe gives [success = False] and
    [response_time = 0] in the three scripts; [model_used] is [None] in
    demo_cris.py and demo_account_sharding.py and the string ["error"] in
    demo_load_balancing.py.  Hence summing [response_time] over all results
    of a batch gives what summing over the successful ones gives. *)
Theorem failed_probe_fields
    (cris_invoke : Cris.bedrock) (sharding_invoke : Sharding.bedrock)
    (request_id : nat) (model_id question profile_name account_type msg : string)
    (Hc : cris_invoke request_id model_id question = Cris.Raised msg)
    (Hs : sharding_invoke request_id model_id question profile_name
          = Sharding.Raised msg) :
  let rc := snd (Cris.send_bedrock_request cris_invoke request_id model_id question) in
  let rs := snd (Sharding.send_bedrock_request sharding_invoke request_id model_id
                   question profile_name account_type) in
  let rl := LoadBalancing.send_request request_id (LoadBalancing.Raised msg) in
  (Cris.success rc = false /\ Cris.response_time rc = 0%Q
   /\ Cris.model_used rc = None)
  /\ (Sharding.success rs = false /\ Sharding.response_time rs = 0%Q
      /\ Sharding.model_used rs = None)
  /\ (LoadBalancing.success rl = false /\ LoadBalancing.response_time rl = 0%Q
      /\ LoadBalancing.model_used rl = Some "error")
  /\ (forall ids : list nat,
        let results := map (Cris.worker cris_invoke model_id) ids in
        (PyNum.sum (map Cris.response_time results)
         == PyNum.sum (map Cris.response_time (Cris.successful_results results)))%Q)
  /\ (forall (p1 p2 strategy : string) (random_choice : nat -> bool) (n : Z)
             (ids : list nat),
        let results :=
          map (Sharding.worker sharding_invoke p1 p2 model_id strategy
                 random_choice n) ids in
        (PyNum.sum (map Sharding.response_time results)
         == PyNum.sum (map Sharding.response_time
                         (List.filter (fun r => Sharding.success r) results)))%Q)
  /\ (forall outcomes : list (nat * LoadBalancing.completion_outcome),
        let results := map (fun p => LoadBalancing.send_request (fst p) (snd p))
                         outcomes in
        (PyNum.sum (map LoadBalancing.response_time results)
         == PyNum.sum (map LoadBalancing.response_time
                         (List.filter (fun r => LoadBalancing.success r) results)))%Q).
Proof.
  intros rc rs rl. subst rc rs rl.
  unfold Cris.send_bedrock_request, Sharding.send_bedrock_request.
  rewrite Hc, Hs. simpl. repeat split.
  - intros ids. apply sum_filter_zero, List.Forall_forall.
    intros r [i [<- _]]%in_map_iff. apply cris_worker_failed_zero.
  - intros p1 p2 strategy random_choice n ids.
    apply sum_filter_zero, List.Forall_forall.
    intros r [i [<- _]]%in_map_iff. apply sharding_worker_failed_zero.
  - intros outcomes. apply sum_filter_zero, List.Forall_forall.
    intros r [[i o] [<- _]]%in_map_iff. apply load_balancing_failed_zero.
Qed.

Lemma failed_probe_fields_witness :
  let r := snd (Cris.send_bedrock_request
                  (fun _ _ _ => Cris.Raised "ThrottlingException: slow down")
                  2 "m" "q") in
  Cris.success r = false /\ Cris.response_time r = 0%Q /\ Cris.model_used r = None.
Proof.
  exact (proj1 (failed_probe_fields
                  (fun _ _ _ => Cris.Raised "ThrottlingException: slow down")
                  (fun _ _ _ _ => Sharding.Raised "ThrottlingException: slow down")
                  2 "m" "q" "p" "ACCOUNT1" "ThrottlingException: slow down"
                  eq_refl eq_refl)).
Defined.

(** ** Statistics of a batch *)

Section Statistics.
Local Open Scope Q_scope.




Lemma worker_labelled invoke_model p1 p2 model_id strategy random_choice n i :
  Sharding.labelled
    (Sharding.worker invoke_model p1 p2 model_id strategy random_choice n i).
Proof.
  unfold Sharding.labelled, Sharding.worker, Sharding.send_bedrock_request.
  destruct (Sharding.use_primary _ _ _ _); destruct (invoke_model _ _ _ _);
    simpl; auto.
Qed.




End Statistics.





(** A remark on the same scenario in demo_account_sharding.py, round-robin:
    both successes fall to ACCOUNT1, whose mean is 1, ACCOUNT2 has none and
    reports 0, and the TOTAL line of the table prints the half-sum of the
    two account means. *)
Remark sharding_total_row_scenario :
  let invoke : Sharding.bedrock :=
    fun request_id _ _ _ =>
      if Nat.odd request_id then Sharding.Responded 1 "ok"
      else Sharding.Raised "ThrottlingException: rate exceeded" in
  let results :=
    map (Sharding.worker invoke "p1" "p2" "r1" "round-robin" (fun _ => true) 4)
      (seq 0 4) in
  (Sharding.primary_avg_time results == 1)%Q
  /\ (Sharding.secondary_avg_time results == 0)%Q
  /\ (Sharding.row_avg_time (Sharding.total_row results) == 1 # 2)%Q.
Proof. vm_compute. repeat split. Qed.

(** ** The thread pool *)

Section PoolProperties.
Context {A : Type}.
Variable worker : nat -> A.
Variable max_workers : nat.

Local Abbreviation step := (Executor.step worker max_workers).
Local Abbreviation pool_state := (Executor.pool_state (A := A)).

Lemma step_measure (s s' : pool_state) :
  step s s' -> (Executor.measure s' < Executor.measure s)%nat.
Proof.
  destruct 1; unfold Executor.measure; simpl; rewrite ?length_app; simpl; lia.
Qed.

(** No schedule runs forever. *)
Lemma step_terminates (s : pool_state) : sn step s.
Proof.
  assert (forall n s, (Executor.measure s < n)%nat -> sn step s) as H.
  { induction n as [|n IH]; intros s0 Hn; [lia|].
    constructor. intros s' Hs'. apply IH.
    apply step_measure in Hs'. lia. }
  apply (H (S (Executor.measure s))). lia.
Qed.

(** Every task is queued, running, or has its result in the list. *)
Lemma step_keeps_tasks (s s' : pool_state) :
  step s s' ->
  Permutation (map worker (Executor.pending s') ++ Executor.results s')
              (map worker (Executor.pending s) ++ Executor.results s).
Proof.
  destruct 1; unfold Executor.pending; cbn [Executor.queued Executor.running
                                              Executor.results].
  - apply Permutation_app_tail, Permutation_map.
    simpl. rewrite app_assoc. symmetry. apply Permutation_cons_append.
  - transitivity (map worker ((q ++ r1 ++ r2) ++ [i]) ++ res).
    + rewrite (map_app worker (q ++ r1 ++ r2) [i]). simpl.
      rewrite <- app_assoc. apply Permutation_app_head, Permutation_app_comm.
    + apply Permutation_app_tail, Permutation_map.
      rewrite <- !app_assoc. do 2 apply Permutation_app_head.
      symmetry. apply Permutation_cons_append.
Qed.

Lemma steps_keep_tasks (s s' : pool_state) :
  rtc step s s' ->
  Permutation (map worker (Executor.pending s') ++ Executor.results s')
              (map worker (Executor.pending s) ++ Executor.results s).
Proof.
  induction 1 as [|s1 s2 s3 H12 _ IH]; [reflexivity|].
  rewrite IH. now apply step_keeps_tasks.
Qed.

(** Never more than [max_workers] tasks in flight. *)
Lemma steps_bound_running (s s' : pool_state) :
  rtc step s s' ->
  (length (Executor.running s) <= max_workers)%nat ->
  (length (Executor.running s') <= max_workers)%nat.
Proof.
  induction 1 as [|s1 s2 s3 H12 _ IH]; [auto|].
  intros Hb. apply IH. destruct H12; simpl in *; rewrite ?length_app in *;
    simpl in *; lia.
Qed.

(** With a pool of at least one worker, the [with] block is left exactly
    when nothing is queued and nothing runs. *)
Lemma joined_iff (s : pool_state) :
  (0 < max_workers)%nat ->
  Executor.joined worker max_workers s
  <-> Executor.queued s = [] /\ Executor.running s = [].
Proof.
  intros Hw. unfold Executor.joined, nf, red. split.
  - intros Hnf. destruct s as [q r res]. simpl.
    destruct r as [|i r].
    + destruct q as [|i q]; [auto|].
      exfalso. apply Hnf. eexists. apply Executor.step_start. simpl. exact Hw.
    + exfalso. apply Hnf. eexists. apply (Executor.step_finish _ _ q [] i r res).
  - intros [Hq Hr] [s' Hs']. destruct Hs'; simpl in *.
    + discriminate.
    + destruct r1; discriminate.
Qed.

(** The schedule that runs the tasks one after the other. *)
Lemma run_in_order_steps (q : list nat) (res : list A) :
  (0 < max_workers)%nat ->
  rtc step {| Executor.queued := q; Executor.running := []; Executor.results := res |}
           {| Executor.queued := []; Executor.running := [];
              Executor.results := res ++ map worker q |}.
Proof.
  intros Hw. revert res. induction q as [|i q IH]; intros res; simpl.
  - rewrite app_nil_r. apply rtc_refl.
  - eapply rtc_l; [apply Executor.step_start; simpl; exact Hw|].
    eapply rtc_l; [apply (Executor.step_finish _ _ q [] i [] res)|].
    simpl. specialize (IH (res ++ [worker i])).
    rewrite <- app_assoc in IH. exact IH.
Qed.

Lemma barrier_reached (n : nat) :
  (0 < max_workers)%nat ->
  Executor.at_barrier worker max_workers n (Executor.run_in_order worker n).
Proof.
  intros Hw. split.
  - apply (run_in_order_steps (seq 0 n) [] Hw).
  - apply joined_iff; auto.
Qed.

(** At the barrier the list holds the result of every task, once. *)
Lemma barrier_results (n : nat) (s : pool_state) :
  (0 < max_workers)%nat ->
  Executor.at_barrier worker max_workers n s ->
  Permutation (Executor.results s) (map worker (seq 0 n))
  /\ length (Executor.results s) = n.
Proof.
  intros Hw [Hsteps Hj]. apply joined_iff in Hj as [Hq Hr]; [|exact Hw].
  pose proof (steps_keep_tasks _ _ Hsteps) as HP.
  unfold Executor.pending in HP. rewrite Hq, Hr in HP. simpl in HP.
  rewrite !app_nil_r in HP.
  split; [exact HP|].
  rewrite (Permutation_length HP), length_map. apply length_seq.
Qed.

(** All [max_workers] slots can be taken at once. *)
Lemma pool_fills (k : nat) (q r : list nat) (res : list A) :
  (length r + k <= max_workers)%nat -> (k <= length q)%nat ->
  rtc step {| Executor.queued := q; Executor.running := r; Executor.results := res |}
           {| Executor.queued := skipn k q; Executor.running := r ++ firstn k q;
              Executor.results := res |}.
Proof.
  revert q r. induction k as [|k IH]; intros q r Hr Hq.
  - simpl. rewrite app_nil_r. apply rtc_refl.
  - destruct q as [|i q]; simpl in Hq; [lia|].
    eapply rtc_l; [apply Executor.step_start; lia|].
    simpl. specialize (IH q (r ++ [i])).
    rewrite length_app, <- app_assoc in IH. simpl in IH.
    apply IH; lia.
Qed.

End PoolProperties.

(** ** The dispatchers *)

Section Dispatchers.

Lemma mod2_even (i : nat) : (i mod 2 =? 0)%nat = Nat.even i.
Proof.
  pose proof (Nat.div_mod_eq i 2) as Hd.
  pose proof (Nat.mod_upper_bound i 2 ltac:(lia)) as Hb.
  destruct (Nat.even i) eqn:He.
  - apply Nat.even_spec in He as [k Hk]. apply Nat.eqb_eq. lia.
  - apply Nat.eqb_neq. intros Hz.
    assert (Nat.even i = true) as He'
      by (apply Nat.even_spec; exists (i / 2)%nat; lia).
    congruence.
Qed.

Lemma use_primary_split_20 (random_choice : nat -> bool) (i : nat) :
  Sharding.use_primary "split" 20 random_choice i = (i <? 10)%nat.
Proof.
  unfold Sharding.use_primary.
  change (String.eqb "split" "round-robin") with false.
  change (String.eqb "split" "split") with true.
  change (20 / 2)%Z with 10%Z. cbv iota.
  destruct (Z.ltb_spec (Z.of_nat i) 10), (Nat.ltb_spec i 10); auto; lia.
Qed.

Lemma use_primary_round_robin (n : Z) (random_choice : nat -> bool) (i : nat) :
  Sharding.use_primary "round-robin" n random_choice i = Nat.even i.
Proof.
  unfold Sharding.use_primary.
  change (String.eqb "round-robin" "round-robin") with true. cbv iota.
  apply mod2_even.
Qed.

Lemma worker_account invoke_model p1 p2 model_id strategy random_choice n i :
  let r := Sharding.worker invoke_model p1 p2 model_id strategy random_choice n i in
  Sharding.account_type r
  = (if Sharding.use_primary strategy n random_choice i
     then "ACCOUNT1" else "ACCOUNT2")
  /\ Sharding.profile r
     = (if Sharding.use_primary strategy n random_choice i then p1 else p2).
Proof.
  unfold Sharding.worker, Sharding.send_bedrock_request.
  destruct (Sharding.use_primary _ _ _ _); destruct (invoke_model _ _ _ _);
    simpl; auto.
Qed.

(** Whatever the schedule, the list collected by the dispatcher of
    demo_account_sharding.py holds labelled results only. *)
Lemma collected_labelled invoke_model p1 p2 model_id strategy random_choice n
    (results : list Sharding.ProbeResult) :
  Sharding.collected invoke_model p1 p2 model_id strategy random_choice n results ->
  Forall Sharding.labelled results.
Proof.
  intros (s & [Hsteps _] & <-). apply List.Forall_forall. intros r Hr.
  pose proof (steps_keep_tasks _ _ _ _ Hsteps) as HP.
  assert (In r (map (Sharding.worker invoke_model p1 p2 model_id strategy
                       random_choice n) (Executor.pending s)
                ++ Executor.results s)) as Hin
    by (apply in_or_app; right; exact Hr).
  apply (Permutation_in _ HP) in Hin. apply in_app_or in Hin as [Hin|[]].
  apply in_map_iff in Hin as (i & <- & _). apply worker_labelled.
Qed.

End Dispatchers.

(** C7: under the split strategy with 20 requests the 0-based ids 0..9, and
    only they, go to the primary account (ACCOUNT1) and the ids 10..19 to
    the secondary one; under round-robin an id goes to the primary account
    exactly when it is even, whatever the batch size. *)
Theorem partition_assignment
    (invoke_model : Sharding.bedrock) (p1 p2 model_id : string)
    (random_choice : nat -> bool) :
  (forall i : nat,
     Sharding.account_type
       (Sharding.worker invoke_model p1 p2 model_id "split" random_choice 20 i)
     = if (i <? 10)%nat then "ACCOUNT1" else "ACCOUNT2")
  /\ List.filter (Sharding.use_primary "split" 20 random_choice) (seq 0 20)
     = seq 0 10
  /\ List.filter (fun i => negb (Sharding.use_primary "split" 20 random_choice i))
       (seq 0 20)
     = seq 10 10
  /\ (forall (n : Z) (i : nat),
        Sharding.use_primary "round-robin" n random_choice i = Nat.even i)
  /\ (forall (n : Z) (i : nat),
        Sharding.account_type
          (Sharding.worker invoke_model p1 p2 model_id "round-robin"
             random_choice n i)
        = if Nat.even i then "ACCOUNT1" else "ACCOUNT2").
Proof.
  repeat split.
  - intros i.
    rewrite (proj1 (worker_account invoke_model p1 p2 model_id "split"
                      random_choice 20 i)).
    now rewrite use_primary_split_20.
  - intros n i. apply use_primary_round_robin.
  - intros n i.
    rewrite (proj1 (worker_account invoke_model p1 p2 model_id "round-robin"
                      random_choice n i)).
    now rewrite use_primary_round_robin.
Qed.

(** C8, as stated, fails in demo_cris.py: for 50 requests the pool has 50
    workers, not [min(50, 20) = 20], and all 50 calls can be in flight
    together. *)
Lemma cris_pool_is_not_capped :
  Cris.max_workers 50 = 50%Z
  /\ Cris.max_workers 50 <> Z.min 50 20
  /\ forall (invoke_model : Cris.bedrock) (model_id : string),
       exists s,
         rtc (Executor.step (Cris.worker invoke_model model_id)
                (Z.to_nat (Cris.max_workers 50)))
             (Executor.submitted 50) s
         /\ length (Executor.running s) = 50%nat.
Proof.
  split; [reflexivity | split; [discriminate|]].
  intros invoke_model model_id. eexists. split.
  - apply (pool_fills (Cris.worker invoke_model model_id) 50 50 (seq 0 50) [] []);
      simpl; lia.
  - reflexivity.
Qed.

(** C8, amended: the pool of demo_account_sharding.py has [min(N, 20)]
    workers and never more than that many calls in flight; the pool of
    demo_cris.py has [N] workers, one per request, so that its size is
    bounded by the batch size alone. *)
Theorem worker_pool_size (num_requests : Z) :
  Sharding.max_workers num_requests = Z.min num_requests 20
  /\ Cris.max_workers num_requests = num_requests
  /\ (forall invoke_model p1 p2 model_id strategy random_choice s,
        rtc (Executor.step
               (Sharding.worker invoke_model p1 p2 model_id strategy
                  random_choice num_requests)
               (Z.to_nat (Sharding.max_workers num_requests)))
            (Executor.submitted (Z.to_nat num_requests)) s ->
        (Z.of_nat (length (Executor.running s)) <= Z.max 0 (Z.min num_requests 20))%Z)
  /\ (forall invoke_model model_id s,
        rtc (Executor.step (Cris.worker invoke_model model_id)
               (Z.to_nat (Cris.max_workers num_requests)))
            (Executor.submitted (Z.to_nat num_requests)) s ->
        (Z.of_nat (length (Executor.running s)) <= Z.max 0 num_requests)%Z).
Proof.
  repeat split.
  - intros invoke_model p1 p2 model_id strategy random_choice s Hs.
    apply steps_bound_running in Hs; [|simpl; lia].
    unfold Sharding.max_workers in Hs. lia.
  - intros invoke_model model_id s Hs.
    apply steps_bound_running in Hs; [|simpl; lia].
    unfold Cris.max_workers in Hs. lia.
Qed.

Lemma worker_pool_size_witness :
  (Z.of_nat (length (Executor.running
                       (Executor.submitted (A := Sharding.ProbeResult) 30)))
   <= Z.max 0 (Z.min 30 20))%Z.
Proof.
  exact (proj1 (proj2 (proj2 (worker_pool_size 30)))
           (fun _ _ _ _ => Sharding.Raised "boom") "p1" "p2" "m" "split"
           (fun _ => true) (Executor.submitted 30) (rtc_refl _ _)).
Defined.

(** C3: for a batch of [N] requests, [1 <= N <= 100], the pool is created,
    no schedule of the dispatch runs forever, the barrier is reached, and at
    the barrier the shared list holds exactly [N] results, the one of each
    dispatched request, be it a success or a failure: in demo_cris.py, and
    in demo_account_sharding.py under every strategy. *)
Theorem batch_collects_every_result (num_requests : Z)
    (Hn : (1 <= num_requests <= 100)%Z) :
  (forall (invoke_model : Cris.bedrock) (model_id : string),
     Cris.dispatch num_requests
     = Some (Executor.submitted (Z.to_nat num_requests))
     /\ sn (Executor.step (Cris.worker invoke_model model_id)
              (Z.to_nat (Cris.max_workers num_requests)))
           (Executor.submitted (Z.to_nat num_requests))
     /\ (exists results, Cris.collected invoke_model model_id num_requests results)
     /\ (forall results,
           Cris.collected invoke_model model_id num_requests results ->
           Z.of_nat (length results) = num_requests
           /\ Permutation results
                (map (Cris.worker invoke_model model_id)
                   (seq 0 (Z.to_nat num_requests)))))
  /\
  (forall (invoke_model : Sharding.bedrock) (p1 p2 model_id strategy : string)
          (random_choice : nat -> bool),
     Sharding.dispatch num_requests
     = Some (Executor.submitted (Z.to_nat num_requests))
     /\ sn (Executor.step
              (Sharding.worker invoke_model p1 p2 model_id strategy
                 random_choice num_requests)
              (Z.to_nat (Sharding.max_workers num_requests)))
           (Executor.submitted (Z.to_nat num_requests))
     /\ (exists results,
           Sharding.collected invoke_model p1 p2 model_id strategy
             random_choice num_requests results)
     /\ (forall results,
           Sharding.collected invoke_model p1 p2 model_id strategy
             random_choice num_requests results ->
           Z.of_nat (length results) = num_requests
           /\ Permutation results
                (map (Sharding.worker invoke_model p1 p2 model_id strategy
                        random_choice num_requests)
                   (seq 0 (Z.to_nat num_requests))))).
Proof.
  assert (0 < Z.to_nat (Cris.max_workers num_requests))%nat as Hc
    by (unfold Cris.max_workers; lia).
  assert (0 < Z.to_nat (Sharding.max_workers num_requests))%nat as Hs
    by (unfold Sharding.max_workers; lia).
  split.
  - intros invoke_model model_id. split; [|split; [|split]].
    + unfold Cris.dispatch, Cris.max_workers.
      destruct (Z.leb_spec num_requests 0); [lia | reflexivity].
    + apply step_terminates.
    + eexists. eexists. split; [apply barrier_reached; exact Hc | reflexivity].
    + intros results (s & Hb & <-).
      apply barrier_results in Hb as [HP Hlen]; [|exact Hc].
      split; [lia | exact HP].
  - intros invoke_model p1 p2 model_id strategy random_choice.
    split; [|split; [|split]].
    + unfold Sharding.dispatch, Sharding.max_workers.
      destruct (Z.leb_spec (Z.min num_requests 20) 0); [lia | reflexivity].
    + apply step_terminates.
    + eexists. eexists. split; [apply barrier_reached; exact Hs | reflexivity].
    + intros results (s & Hb & <-).
      apply barrier_results in Hb as [HP Hlen]; [|exact Hs].
      split; [lia | exact HP].
Qed.

Lemma batch_collects_every_result_witness :
  exists results,
    Sharding.collected (fun _ _ _ _ => Sharding.Raised "ThrottlingException")
      "p1" "p2" "m" "random" (fun i => Nat.even i) 3 results
    /\ length results = 3%nat.
Proof.
  destruct (proj2 (batch_collects_every_result 3 ltac:(lia))
              (fun _ _ _ _ => Sharding.Raised "ThrottlingException")
              "p1" "p2" "m" "random" (fun i => Nat.even i))
    as (_ & _ & [results Hres] & Hall).
  exists results. split; [exact Hres|].
  destruct (Hall results Hres) as [Hlen _]. lia.
Defined.

(** C9: a request count below 1 or above 100 makes [main] of demo_cris.py
    and of demo_account_sharding.py print an error and exit with status 1
    without starting the demo; so does an interval below 5 seconds in the
    looping mode of demo_load_balancing.py.  Values within the bounds start
    the demo; without [--loop] the interval is not looked at. *)
Theorem invalid_arguments_exit (requests interval : Z) (strategy : string) :
  ((requests < 1 \/ 100 < requests)%Z ->
     (exists msg, Cris.main requests = Cris.Exit 1 msg)
     /\ (exists msg, Sharding.main requests strategy = Sharding.Exit 1 msg))
  /\ ((interval < 5)%Z ->
      exists msg, LoadBalancing.main true interval = LoadBalancing.Exit 1 msg)
  /\ ((1 <= requests <= 100)%Z ->
      Cris.main requests = Cris.Run requests
      /\ Sharding.main requests strategy = Sharding.Run requests strategy)
  /\ ((5 <= interval)%Z ->
      LoadBalancing.main true interval = LoadBalancing.RunLoop interval)
  /\ LoadBalancing.main false interval = LoadBalancing.RunOnce.
Proof.
  unfold Cris.main, Sharding.main, LoadBalancing.main.
  destruct (Z.ltb_spec requests 1), (Z.ltb_spec 100 requests),
    (Z.ltb_spec interval 5); repeat split; intros; try lia; eauto.
Qed.

Lemma invalid_arguments_exit_witness :
  (exists msg, Cris.main 101 = Cris.Exit 1 msg)
  /\ (exists msg, Sharding.main 0 "split" = Sharding.Exit 1 msg)
  /\ (exists msg, LoadBalancing.main true 4 = LoadBalancing.Exit 1 msg).
Proof.
  split; [|split].
  - apply (proj1 (invalid_arguments_exit 101 4 "split")). lia.
  - apply (proj1 (invalid_arguments_exit 0 4 "split")). lia.
  - apply (proj1 (proj2 (invalid_arguments_exit 0 4 "split"))). lia.
Defined.

(** ** The polling loop of demo_cris.py *)

Section CrisPoller.
Variable query : nat -> CloudWatch.query_outcome.
Variable successful : nat.

Lemma cris_queried_app (l1 l2 : list Cris.event) :
  Cris.queried (l1 ++ l2) = Cris.queried l1 ++ Cris.queried l2.
Proof. apply flat_map_app. Qed.

Lemma cris_queried_attempt (w a : nat) (l : list Cris.event) :
  Cris.queried (Cris.EvSleep w :: Cris.EvQuery a :: l) = a :: Cris.queried l.
Proof. reflexivity. Qed.

Lemma cris_poll_loop_cons (a : nat) (rest : list nat) (cur : Cris.cw_result) :
  Cris.poll_loop query successful (a :: rest) cur
  = if Cris.complete (Cris.answer query a) successful
    then ([Cris.EvSleep (if (a =? 0)%nat then 60%nat else 30%nat); Cris.EvQuery a],
          Cris.answer query a)
    else
      (Cris.EvSleep (if (a =? 0)%nat then 60%nat else 30%nat) :: Cris.EvQuery a
       :: (if (a <? 4)%nat
           then [Cris.EvRetryLog a (Cris.found_count (Cris.answer query a))] else [])
       ++ fst (Cris.poll_loop query successful rest (Cris.answer query a)),
       snd (Cris.poll_loop query successful rest (Cris.answer query a))).
Proof.
  unfold Cris.answer. simpl.
  destruct (Cris.complete _ _); [reflexivity|].
  destruct (Cris.poll_loop _ _ _ _); reflexivity.
Qed.

(** The loop over the attempts [b, b+1, ..., b+m-1]: it queries an initial
    segment of them, stops at the first complete answer, and returns the
    answer of the last attempt made. *)
Lemma cris_poll_loop_spec (m b : nat) (cur : Cris.cw_result) :
  let r := Cris.poll_loop query successful (seq b m) cur in
  let n := length (Cris.queried (fst r)) in
  Cris.queried (fst r) = seq b n
  /\ (n <= m)%nat
  /\ ((0 < m)%nat -> (0 < n)%nat)
  /\ snd r = match n with O => cur | S k => Cris.answer query (b + k) end
  /\ (forall k, (S k < n)%nat ->
        Cris.complete (Cris.answer query (b + k)) successful = false)
  /\ (forall k, n = S k -> (n < m)%nat ->
        Cris.complete (Cris.answer query (b + k)) successful = true).
Proof.
  revert b cur. induction m as [|m IH]; intros b cur.
  - simpl. repeat split; try lia; intros; lia.
  - cbn [seq]. rewrite cris_poll_loop_cons.
    destruct (Cris.complete (Cris.answer query b) successful) eqn:Hc.
    + cbn [fst snd]. rewrite !cris_queried_attempt. simpl.
      rewrite Nat.add_0_r. repeat split; try lia.
      intros k Hk _. injection Hk as <-. now rewrite Nat.add_0_r.
    + specialize (IH (S b) (Cris.answer query b)). cbv zeta in IH.
      destruct IH as (Hq & Hle & Hpos & Hfin & Hinc & Hlast).
      cbn [fst snd]. rewrite !cris_queried_attempt, !cris_queried_app.
      assert (Cris.queried
                (if (b <? 4)%nat
                 then [Cris.EvRetryLog b (Cris.found_count (Cris.answer query b))]
                 else []) = []) as -> by (destruct (b <? 4)%nat; reflexivity).
      cbn [app length]. rewrite Hq at 1.
      set (n := length (Cris.queried
                          (fst (Cris.poll_loop query successful (seq (S b) m)
                                  (Cris.answer query b))))) in *.
      repeat split; try lia.
      * rewrite Hfin. destruct n as [|k]; [now rewrite Nat.add_0_r|].
        now rewrite Nat.add_succ_r.
      * intros [|k] Hk; [now rewrite Nat.add_0_r|].
        rewrite Nat.add_succ_r. apply Hinc. lia.
      * intros k Hk Hm. destruct k as [|k]; [lia|].
        rewrite Nat.add_succ_r. apply Hlast; lia.
Qed.

End CrisPoller.

(** ** The polling loop of demo_account_sharding.py *)

Section ShardingPoller.
Variable query : nat -> string -> CloudWatch.query_outcome.
Variable reversed : nat -> bool.
Variables primary_successful secondary_successful : nat.

Local Abbreviation futures :=
  (Sharding.futures primary_successful secondary_successful).
Local Abbreviation collect :=
  (Sharding.collect query reversed primary_successful secondary_successful).
Local Abbreviation all_complete :=
  (Sharding.all_complete primary_successful secondary_successful).
Local Abbreviation poll_loop :=
  (Sharding.poll_loop query reversed primary_successful secondary_successful).

Local Abbreviation store_from :=
  (Sharding.store_from query reversed primary_successful secondary_successful).
Local Abbreviation queries_of :=
  (Sharding.queries_of primary_successful secondary_successful).
Local Abbreviation answer := (Sharding.answer query).
Local Abbreviation latest := (Sharding.latest query).

Lemma store_from_S (all : gmap string Sharding.Snapshot) (b k : nat) :
  store_from all b (S k) = store_from (collect b all) (S b) k.
Proof. reflexivity. Qed.

Lemma sharding_queried_app (l1 l2 : list Sharding.event) :
  Sharding.queried (l1 ++ l2) = Sharding.queried l1 ++ Sharding.queried l2.
Proof. apply flat_map_app. Qed.

Lemma slept_app (l1 l2 : list Sharding.event) :
  Sharding.slept (l1 ++ l2) = Sharding.slept l1 ++ Sharding.slept l2.
Proof. apply flat_map_app. Qed.

Lemma queried_queries (a : nat) (accounts : list string) :
  Sharding.queried (map (Sharding.EvQuery a) accounts) = map (pair a) accounts.
Proof. induction accounts as [|x l IH]; simpl; [|rewrite <- IH]; reflexivity. Qed.

Lemma slept_queries (a : nat) (accounts : list string) :
  Sharding.slept (map (Sharding.EvQuery a) accounts) = [].
Proof. induction accounts as [|x l IH]; simpl; auto. Qed.

Lemma sharding_poll_loop_cons (a : nat) (rest : list nat)
    (all : gmap string Sharding.Snapshot) :
  poll_loop (a :: rest) all
  = if all_complete (collect a all)
    then (Sharding.EvSleep (if (a =? 0)%nat then 60%nat else 30%nat)
            :: map (Sharding.EvQuery a) futures,
          collect a all)
    else
      (Sharding.EvSleep (if (a =? 0)%nat then 60%nat else 30%nat)
         :: map (Sharding.EvQuery a) futures
         ++ (if (a <? 4)%nat
             then [Sharding.EvRetryLog a
                     (Sharding.missing primary_successful secondary_successful
                        (collect a all))]
             else [])
         ++ fst (poll_loop rest (collect a all)),
       snd (poll_loop rest (collect a all))).
Proof.
  simpl. destruct (all_complete _); [reflexivity|].
  destruct (Sharding.poll_loop _ _ _ _ _ _); reflexivity.
Qed.

(** The loop over the attempts [b, ..., b+m-1]: it makes the first [n] of
    them, each one querying every account that has successes; it stops
    after the first attempt that leaves the store complete; it returns the
    store as it is then. *)
Lemma sharding_poll_loop_spec (m b : nat) (all : gmap string Sharding.Snapshot) :
  let r := poll_loop (seq b m) all in
  let n := length (Sharding.slept (fst r)) in
  Sharding.queried (fst r) = flat_map queries_of (seq b n)
  /\ Sharding.slept (fst r)
     = map (fun a => if (a =? 0)%nat then 60%nat else 30%nat) (seq b n)
  /\ (n <= m)%nat
  /\ ((0 < m)%nat -> (0 < n)%nat)
  /\ snd r = store_from all b n
  /\ (forall k, (0 < k < n)%nat -> all_complete (store_from all b k) = false)
  /\ ((0 < n < m)%nat -> all_complete (store_from all b n) = true).
Proof.
  revert b all. induction m as [|m IH]; intros b all.
  - simpl. repeat split; try lia; intros; lia.
  - cbn [seq]. rewrite sharding_poll_loop_cons.
    destruct (all_complete (collect b all)) eqn:Hc.
    + cbn [fst snd]. cbn [Sharding.slept flat_map].
      fold (Sharding.slept (map (Sharding.EvQuery b) futures)).
      rewrite slept_queries. cbn [app length].
      change (Sharding.queried (Sharding.EvSleep (if (b =? 0)%nat then 60%nat else 30%nat)
                                  :: map (Sharding.EvQuery b) futures))
        with (Sharding.queried (map (Sharding.EvQuery b) futures)).
      rewrite queried_queries. simpl. rewrite app_nil_r.
      repeat split; try lia. intros _. exact Hc.
    + specialize (IH (S b) (collect b all)). cbv zeta in IH.
      destruct IH as (Hq & Hsl & Hle & Hpos & Hfin & Hinc & Hlast).
      cbn [fst snd].
      set (rest := fst (poll_loop (seq (S b) m) (collect b all))) in *.
      set (retry := if (b <? 4)%nat then _ else _).
      assert (Sharding.queried retry = []) as Hr1
        by (subst retry; destruct (b <? 4)%nat; reflexivity).
      assert (Sharding.slept retry = []) as Hr2
        by (subst retry; destruct (b <? 4)%nat; reflexivity).
      assert (Sharding.slept (Sharding.EvSleep (if (b =? 0)%nat then 60%nat else 30%nat)
                       :: map (Sharding.EvQuery b) futures ++ retry ++ rest)
              = (if (b =? 0)%nat then 60%nat else 30%nat) :: Sharding.slept rest) as ->.
      { change (Sharding.slept (Sharding.EvSleep ?w :: ?l)) with (w :: Sharding.slept l).
        now rewrite !slept_app, slept_queries, Hr2. }
      assert (Sharding.queried
                (Sharding.EvSleep (if (b =? 0)%nat then 60%nat else 30%nat)
                   :: map (Sharding.EvQuery b) futures ++ retry ++ rest)
              = queries_of b ++ Sharding.queried rest) as ->.
      { change (Sharding.queried (Sharding.EvSleep ?w :: ?l))
          with (Sharding.queried l).
        now rewrite !sharding_queried_app, queried_queries, Hr1. }
      cbn [length]. set (n := length (Sharding.slept rest)) in *.
      repeat split; try lia.
      * rewrite Hq. reflexivity.
      * rewrite Hsl. reflexivity.
      * rewrite Hfin. reflexivity.
      * intros [|[|k]] Hk; [lia | exact Hc |].
        rewrite store_from_S. apply Hinc. lia.
      * intros Hn. rewrite store_from_S. apply Hlast. lia.
Qed.

End ShardingPoller.

(** ** What the store of demo_account_sharding.py holds *)

Section ShardingStore.
Variable query : nat -> string -> CloudWatch.query_outcome.
Variable reversed : nat -> bool.
Variables primary_successful secondary_successful : nat.

Local Abbreviation futures :=
  (Sharding.futures primary_successful secondary_successful).
Local Abbreviation collect :=
  (Sharding.collect query reversed primary_successful secondary_successful).

Local Abbreviation store_from :=
  (Sharding.store_from query reversed primary_successful secondary_successful).
Local Abbreviation queries_of :=
  (Sharding.queries_of primary_successful secondary_successful).
Local Abbreviation answer := (Sharding.answer query).
Local Abbreviation latest := (Sharding.latest query).

Lemma store_answer (a : nat) (account : string)
    (all : gmap string Sharding.Snapshot) :
  Sharding.store (answer a account) all
  = match Sharding.available (answer a account) with
    | Some s => <[account := s]> all
    | None => all
    end.
Proof.
  unfold Sharding.answer, Sharding.query_cloudwatch_distribution_for_account.
  destruct (query a account) as [|rows|]; try reflexivity.
  destruct rows as [|row rows]; [reflexivity|].
  simpl. destruct (decide _); reflexivity.
Qed.

Lemma fold_store_lookup (a : nat) (accounts : list string)
    (all : gmap string Sharding.Snapshot) (label : string) :
  NoDup accounts ->
  fold_left (fun all account => Sharding.store (answer a account) all)
    accounts all !! label
  = if decide (label ∈ accounts)
    then match Sharding.available (answer a label) with
         | Some s => Some s
         | None => all !! label
         end
    else all !! label.
Proof.
  intros Hnd. revert all.
  induction Hnd as [|x l Hx Hnd IH]; intros all; simpl.
  - reflexivity.
  - rewrite IH, store_answer.
    destruct (decide (label = x)) as [->|Hne].
    + destruct (decide (x ∈ l)) as [Hin|_]; [contradiction|].
      destruct (decide (x ∈ x :: l)) as [_|Hn]; [|exfalso; apply Hn; left].
      destruct (Sharding.available (answer a x));
        [apply lookup_insert_eq | reflexivity].
    + assert ((match Sharding.available (answer a x) with
               | Some s => <[x := s]> all
               | None => all
               end) !! label = all !! label) as ->
        by (destruct (Sharding.available (answer a x));
            [now apply lookup_insert_ne | reflexivity]).
      destruct (decide (label ∈ l)) as [Hin|Hnin];
        destruct (decide (label ∈ x :: l)) as [Hin'|Hnin']; try reflexivity.
      * exfalso. apply Hnin'. now right.
      * exfalso. apply elem_of_cons in Hin' as [?|?]; contradiction.
Qed.

(** One attempt replaces the snapshot of every queried account whose answer
    makes one available and leaves the rest of the store alone, in whichever
    order the two answers arrive. *)
Lemma collect_lookup (a : nat) (all : gmap string Sharding.Snapshot)
    (label : string) :
  collect a all !! label
  = if decide (label ∈ futures)
    then match Sharding.available (answer a label) with
         | Some s => Some s
         | None => all !! label
         end
    else all !! label.
Proof.
  unfold Sharding.collect, Sharding.futures.
  change (fun all0 account =>
            Sharding.store
              (Sharding.query_cloudwatch_distribution_for_account account
                 (query a account)) all0)
    with (fun all0 account => Sharding.store (answer a account) all0).
  destruct (0 <? primary_successful)%nat, (0 <? secondary_successful)%nat,
    (reversed a); cbn [app rev];
    (rewrite fold_store_lookup
       by (apply (bool_decide_unpack _); vm_compute; exact I));
    repeat case_decide; try reflexivity; exfalso; set_unfold; tauto.
Qed.

Lemma store_from_snoc (all : gmap string Sharding.Snapshot) (b k : nat) :
  store_from all b (S k)
  = collect (b + k)
      (store_from all b k).
Proof. unfold Sharding.store_from. now rewrite seq_S, fold_left_app. Qed.

(** After [k] attempts the store holds, for each queried account, the last
    snapshot that was available for it, and nothing for other keys. *)
Lemma store_from_lookup (k : nat) (label : string) :
  store_from ∅ 0 k !! label
  = if decide (label ∈ futures) then latest label k else None.
Proof.
  induction k as [|k IH].
  - unfold Sharding.store_from. cbn [seq fold_left]. rewrite lookup_empty.
    now case_decide.
  - rewrite store_from_snoc, collect_lookup, IH. cbn [Sharding.latest Nat.add].
    case_decide; reflexivity.
Qed.

End ShardingStore.

(** ** The two loops, from the first attempt *)

Section Polls.

Lemma cris_poll_spec (query : nat -> CloudWatch.query_outcome) (E : nat) :
  let r := Cris.poll query E in
  let n := length (Cris.queried (fst r)) in
  Cris.queried (fst r) = seq 0 n
  /\ (1 <= n <= 5)%nat
  /\ snd r = Cris.answer query (n - 1)
  /\ (forall k, (S k < n)%nat -> Cris.complete (Cris.answer query k) E = false)
  /\ ((n < 5)%nat -> Cris.complete (Cris.answer query (n - 1)) E = true).
Proof.
  pose proof (cris_poll_loop_spec query E 5 0 Cris.CwNone) as H.
  unfold Cris.poll, Cris.max_attempts. cbv zeta in H |- *.
  set (n := length (Cris.queried
                      (fst (Cris.poll_loop query E (seq 0 5) Cris.CwNone)))) in *.
  destruct H as (Hq & Hle & Hpos & Hfin & Hinc & Hlast).
  specialize (Hpos ltac:(lia)).
  destruct n as [|k]; [lia|].
  cbn [Nat.add] in *. replace (S k - 1)%nat with k by lia.
  repeat split; try lia; auto;
    try (intros Hk; apply Hlast; [reflexivity | lia]).
Qed.

Lemma sharding_poll_spec (query : nat -> string -> CloudWatch.query_outcome)
    (reversed : nat -> bool) (E1 E2 : nat) :
  let r := Sharding.poll query reversed E1 E2 in
  let n := length (Sharding.slept (fst r)) in
  let store := Sharding.store_from query reversed E1 E2 ∅ 0 in
  Sharding.queried (fst r) = flat_map (Sharding.queries_of E1 E2) (seq 0 n)
  /\ (1 <= n <= 5)%nat
  /\ snd r = store n
  /\ (forall k, (0 < k < n)%nat -> Sharding.all_complete E1 E2 (store k) = false)
  /\ ((n < 5)%nat -> Sharding.all_complete E1 E2 (store n) = true).
Proof.
  pose proof (sharding_poll_loop_spec query reversed E1 E2 5 0 ∅) as H.
  unfold Sharding.poll, Sharding.max_attempts. cbv zeta in H |- *.
  set (n := length (Sharding.slept (fst (Sharding.poll_loop query reversed E1 E2
                                  (seq 0 5) ∅)))) in *.
  destruct H as (Hq & Hsl & Hle & Hpos & Hfin & Hinc & Hlast).
  specialize (Hpos ltac:(lia)).
  repeat split; try lia; auto;
    try (intros Hn; apply Hlast; lia).
Qed.

End Polls.

(** ** Completeness of a snapshot *)

Section Completeness.

Lemma sum_counts_nil : CloudWatch.sum_counts [] = 0%Z.
Proof. reflexivity. Qed.

(** In demo_cris.py an answer is complete exactly when it has rows and
    their counts add up to the expected number. *)
Lemma cris_complete_iff (query : nat -> CloudWatch.query_outcome)
    (successful a : nat) :
  Cris.complete (Cris.answer query a) successful = true
  <-> exists row rows,
        query a = CloudWatch.Results (row :: rows)
        /\ CloudWatch.sum_counts (row :: rows) = Z.of_nat successful.
Proof.
  unfold Cris.answer, Cris.query_cloudwatch_distribution,
    Cris.get_cloudwatch_results.
  destruct (query a) as [|[|row rows]|]; simpl; split;
    try discriminate; try (intros (? & ? & ? & _); discriminate).
  - intros H%Z.eqb_eq. eauto.
  - intros (row' & rows' & Heq & H). injection Heq as -> ->. now apply Z.eqb_eq.
Qed.

(** In demo_account_sharding.py the loop stops exactly when every account
    that has successes has a stored snapshot with the expected count. *)
Lemma all_complete_iff (e1 e2 : nat) (all : gmap string Sharding.Snapshot) :
  Sharding.all_complete e1 e2 all = true
  <-> ((0 < e1)%nat -> Sharding.got "ACCOUNT1" e1 all = true)
      /\ ((0 < e2)%nat -> Sharding.got "ACCOUNT2" e2 all = true).
Proof.
  unfold Sharding.all_complete.
  destruct (Nat.ltb_spec 0 e1), (Nat.ltb_spec 0 e2);
    destruct (Sharding.got "ACCOUNT1" e1 all), (Sharding.got "ACCOUNT2" e2 all);
    simpl; intuition (try discriminate; try lia).
Qed.

Lemma got_iff (label : string) (expected : nat)
    (all : gmap string Sharding.Snapshot) :
  Sharding.got label expected all = true
  <-> exists s, all !! label = Some s
                /\ Sharding.total_invocations s = Z.of_nat expected.
Proof.
  unfold Sharding.got. destruct (all !! label) as [s|].
  - rewrite Z.eqb_eq. split; [eauto | now intros (s' & [= <-] & H)].
  - split; [discriminate | now intros (s' & [=] & _)].
Qed.

Lemma distribution_of_snoc (rows : list (string * Z)) (row : string * Z) :
  CloudWatch.distribution_of (rows ++ [row])
  = <[fst row := snd row]> (CloudWatch.distribution_of rows).
Proof. unfold CloudWatch.distribution_of. now rewrite fold_left_app. Qed.

(** A result set with rows gives a region table with entries. *)
Lemma distribution_of_nonempty (row : string * Z) (rows : list (string * Z)) :
  CloudWatch.distribution_of (row :: rows) <> ∅.
Proof.
  destruct (exists_last (l := row :: rows) ltac:(discriminate))
    as (front & last & ->).
  rewrite distribution_of_snoc. apply insert_non_empty.
Qed.

(** In demo_account_sharding.py an answer makes a snapshot available
    exactly when the query returned rows. *)
Lemma available_iff (query : nat -> string -> CloudWatch.query_outcome)
    (a : nat) (account : string) (s : Sharding.Snapshot) :
  Sharding.available (Sharding.answer query a account) = Some s
  <-> exists row rows,
        query a account = CloudWatch.Results (row :: rows)
        /\ s = {| Sharding.region_distribution :=
                    CloudWatch.distribution_of (row :: rows);
                  Sharding.total_invocations :=
                    CloudWatch.sum_counts (row :: rows);
                  Sharding.cw_account_type := account |}.
Proof.
  unfold Sharding.answer, Sharding.query_cloudwatch_distribution_for_account,
    Sharding.get_cloudwatch_results.
  destruct (query a account) as [|[|row rows]|]; cbn [Sharding.available];
    try (split; [discriminate | intros (? & ? & ? & _); discriminate]).
  cbn [Sharding.region_distribution]. case_decide as Hd.
  - now apply distribution_of_nonempty in Hd.
  - split.
    + intros [= <-]. eauto.
    + intros (row' & rows' & Heq & ->). injection Heq as <- <-. reflexivity.
Qed.

Lemma in_futures (e1 e2 : nat) (label : string) :
  label ∈ Sharding.futures e1 e2
  <-> (label = "ACCOUNT1" /\ (0 < e1)%nat) \/ (label = "ACCOUNT2" /\ (0 < e2)%nat).
Proof.
  unfold Sharding.futures.
  destruct (Nat.ltb_spec 0 e1), (Nat.ltb_spec 0 e2); cbn [app];
    rewrite ?elem_of_cons, ?elem_of_nil; intuition lia.
Qed.

(** The order in which the two answers of an attempt arrive does not
    matter. *)
Lemma collect_order_irrelevant
    (query : nat -> string -> CloudWatch.query_outcome)
    (reversed reversed' : nat -> bool) (e1 e2 a : nat)
    (all : gmap string Sharding.Snapshot) :
  Sharding.collect query reversed e1 e2 a all
  = Sharding.collect query reversed' e1 e2 a all.
Proof. apply map_eq. intros label. now rewrite !collect_lookup. Qed.

End Completeness.

(** C4, as stated, fails in demo_account_sharding.py: ACCOUNT1 is complete
    after the first attempt (its stored snapshot counts 1 of 1), and it is
    queried again in the second attempt, which ACCOUNT2 makes necessary. *)
Lemma complete_partition_is_queried_again :
  let r := Sharding.poll Scenario.late_secondary (fun _ => false) 1 1 in
  Sharding.got "ACCOUNT1" 1
    (Sharding.store_from Scenario.late_secondary (fun _ => false) 1 1 ∅ 0 1) = true
  /\ Sharding.queried (fst r)
     = [(0, "ACCOUNT1"); (0, "ACCOUNT2"); (1, "ACCOUNT1"); (1, "ACCOUNT2")]%nat
  /\ In (1%nat, "ACCOUNT1") (Sharding.queried (fst r)).
Proof. vm_compute. repeat split. right. right. left. reflexivity. Qed.

(** C4, amended.  In demo_cris.py, with [E > 0] successes expected: an
    answer whose rows do not add up to [E] (fewer, in particular) or that is
    missing makes the loop query again while an attempt remains; an answer
    whose rows add up to [E] ends the loop at once, is the snapshot
    returned, and no later query is made, so that no attempt is made twice.
    In demo_account_sharding.py every attempt queries every account that has
    successes, one that is already complete included, and replaces its
    stored snapshot by the new one when there is one; the loop goes on
    while an attempt remains and some such account has no stored snapshot
    with its expected count, and ends at the first attempt after which all
    of them have one. *)
Theorem poller_acceptance :
  (forall (query : nat -> CloudWatch.query_outcome) (E : nat),
     (0 < E)%nat ->
     let r := Cris.poll query E in
     let n := length (Cris.queried (fst r)) in
     Cris.queried (fst r) = seq 0 n
     /\ (forall a, Cris.complete (Cris.answer query a) E = true
                   <-> exists rows, query a = CloudWatch.Results rows
                                    /\ CloudWatch.sum_counts rows = Z.of_nat E)
     /\ (forall a rows, (a < n)%nat -> (a < 4)%nat ->
           query a = CloudWatch.Results rows ->
           (CloudWatch.sum_counts rows < Z.of_nat E)%Z ->
           In (S a) (Cris.queried (fst r)))
     /\ (forall a, (a < n)%nat -> (a < 4)%nat ->
           Cris.complete (Cris.answer query a) E = false ->
           In (S a) (Cris.queried (fst r)))
     /\ (forall a, (a < n)%nat ->
           Cris.complete (Cris.answer query a) E = true ->
           snd r = Cris.answer query a
           /\ forall a', In a' (Cris.queried (fst r)) -> (a' <= a)%nat))
  /\
  (forall (query : nat -> string -> CloudWatch.query_outcome)
          (reversed : nat -> bool) (E1 E2 : nat),
     let r := Sharding.poll query reversed E1 E2 in
     let n := length (Sharding.slept (fst r)) in
     let store := Sharding.store_from query reversed E1 E2 ∅ 0 in
     Sharding.queried (fst r) = flat_map (Sharding.queries_of E1 E2) (seq 0 n)
     /\ snd r = store n
     /\ (forall k label, label ∈ Sharding.futures E1 E2 ->
           store k !! label = Sharding.latest query label k)
     /\ (forall k, Sharding.all_complete E1 E2 (store k) = true
                   <-> ((0 < E1)%nat -> Sharding.got "ACCOUNT1" E1 (store k) = true)
                       /\ ((0 < E2)%nat -> Sharding.got "ACCOUNT2" E2 (store k) = true))
     /\ (forall k, (1 <= k <= n)%nat -> (k < 5)%nat ->
           Sharding.all_complete E1 E2 (store k) = false -> (k < n)%nat)
     /\ (forall k, (1 <= k <= n)%nat ->
           Sharding.all_complete E1 E2 (store k) = true -> n = k)
     /\ (forall k label E s,
           (label = "ACCOUNT1" /\ E = E1) \/ (label = "ACCOUNT2" /\ E = E2) ->
           (0 < E)%nat ->
           Sharding.latest query label k = Some s ->
           (Sharding.total_invocations s < Z.of_nat E)%Z ->
           Sharding.all_complete E1 E2 (store k) = false)).
Proof.
  split.
  - intros query E HE r n.
    destruct (cris_poll_spec query E) as (Hq & Hn & Hfin & Hinc & Hlast).
    fold r in Hq, Hn, Hfin, Hinc, Hlast. fold n in Hq, Hn, Hfin, Hinc, Hlast.
    assert (forall a, (a < n)%nat -> (a < 4)%nat ->
              Cris.complete (Cris.answer query a) E = false ->
              In (S a) (Cris.queried (fst r))) as Hretry.
    { intros a Han Ha4 Hc. rewrite Hq. apply in_seq.
      destruct (Nat.eq_dec n (S a)) as [Hna|Hna]; [|lia].
      rewrite Hna in Hlast. simpl in Hlast. rewrite Nat.sub_0_r in Hlast.
      rewrite Hlast in Hc; [discriminate | lia]. }
    assert (forall a, Cris.complete (Cris.answer query a) E = true
                      <-> exists rows, query a = CloudWatch.Results rows
                                       /\ CloudWatch.sum_counts rows = Z.of_nat E)
      as Hiff.
    { intros a. rewrite cris_complete_iff. split.
      - intros (row & rows & H1 & H2). eauto.
      - intros ([|row rows] & H1 & H2); [|eauto].
        rewrite sum_counts_nil in H2. lia. }
    split; [exact Hq|]. split; [exact Hiff|]. split; [|split; [exact Hretry|]].
    + intros a rows Han Ha4 Hrows Hsum. apply Hretry; auto.
      destruct (Cris.complete (Cris.answer query a) E) eqn:Hc; [|reflexivity].
      apply Hiff in Hc as (rows' & Hrows' & Hsum'). rewrite Hrows in Hrows'.
      injection Hrows' as <-. lia.
    + intros a Han Hc.
      assert (n = S a) as Hna.
      { destruct (Nat.lt_ge_cases (S a) n) as [Hlt|Hge]; [|lia].
        rewrite (Hinc a Hlt) in Hc. discriminate. }
      split.
      * rewrite Hfin, Hna. simpl. now rewrite Nat.sub_0_r.
      * intros a' Ha'. rewrite Hq in Ha'. apply in_seq in Ha'. lia.
  - intros query reversed E1 E2 r n store.
    destruct (sharding_poll_spec query reversed E1 E2)
      as (Hq & Hn & Hfin & Hinc & Hlast).
    fold r in Hq, Hn, Hfin, Hinc, Hlast. fold n in Hq, Hn, Hfin, Hinc, Hlast.
    fold store in Hfin, Hinc, Hlast.
    assert (forall k label, label ∈ Sharding.futures E1 E2 ->
              store k !! label = Sharding.latest query label k) as Hstore.
    { intros k label Hin. unfold store. rewrite store_from_lookup.
      case_decide; [reflexivity | contradiction]. }
    split; [exact Hq|]. split; [exact Hfin|]. split; [exact Hstore|].
    split; [|split; [|split]].
    + intros k. apply all_complete_iff.
    + intros k Hk Hk5 Hc.
      destruct (Nat.eq_dec k n) as [->|Hne]; [|lia].
      rewrite Hlast in Hc; [discriminate | lia].
    + intros k Hk Hc.
      destruct (Nat.eq_dec k n) as [->|Hne]; [reflexivity|].
      rewrite Hinc in Hc; [discriminate | lia].
    + intros k label E s Hlabel HE Hlatest Hunder.
      destruct (Sharding.all_complete E1 E2 (store k)) eqn:Hc; [|reflexivity].
      apply all_complete_iff in Hc as [Hc1 Hc2].
      assert (Sharding.got label E (store k) = true) as Hgot
        by (destruct Hlabel as [[-> ->]|[-> ->]]; auto).
      apply got_iff in Hgot as (s' & Hs' & Htotal).
      rewrite Hstore, Hlatest in Hs'
        by (apply in_futures; destruct Hlabel as [[-> ->]|[-> ->]]; auto).
      injection Hs' as <-. lia.
Qed.

Lemma poller_acceptance_witness :
  let query := fun a : nat =>
    if (a <? 2)%nat then CloudWatch.Results [("us-east-1", 1%Z)]
    else CloudWatch.Results [("us-east-1", 1%Z); ("us-west-2", 2%Z)] in
  In 1%nat (Cris.queried (fst (Cris.poll query 3)))
  /\ snd (Cris.poll query 3) = Cris.answer query 2.
Proof.
  intros query.
  destruct (proj1 poller_acceptance query 3%nat ltac:(lia))
    as (_ & _ & Hunder & _ & Hstop).
  split.
  - apply (Hunder 0%nat [("us-east-1", 1%Z)]); [vm_compute | | | vm_compute];
      (lia || reflexivity).
  - apply (Hstop 2%nat); [vm_compute; lia | reflexivity].
Defined.

(** C5 fails in demo_cris.py at this input: two requests succeeded, the
    queries of the attempts 1 to 4 each find one of the two invocations,
    and the query of the fifth attempt gives nothing (it raises, or times
    out).  The loop makes its five attempts and stops, but what it returns
    is [None], not the snapshot with one invocation that the fourth attempt
    had made available: the variable is assigned anew at every attempt, so
    the report is "CloudWatch analysis unavailable".  The loop of
    demo_account_sharding.py, given the same answers for its first account,
    keeps that snapshot. *)
Lemma cris_partial_snapshot_is_lost :
  let query := fun a : nat =>
    if (a <? 4)%nat then CloudWatch.Results [("us-east-1", 1%Z)]
    else CloudWatch.Unavailable in
  Cris.queried (fst (Cris.poll query 2)) = [0; 1; 2; 3; 4]%nat
  /\ Cris.found_count (Cris.answer query 3) = 1%Z
  /\ CrisReport.display (Cris.answer query 3) <> CrisReport.Unavailable
  /\ snd (Cris.poll query 2) = Cris.CwNone
  /\ CrisReport.display (snd (Cris.poll query 2)) = CrisReport.Unavailable
  /\ Sharding.found "ACCOUNT1"
       (snd (Sharding.poll (fun a _ => query a) (fun _ => false) 2 0))
     = 1%Z.
Proof.
  intros query.
  split; [reflexivity|]. split; [reflexivity|]. split; [|split; [|split]].
  - vm_compute. discriminate.
  - reflexivity.
  - reflexivity.
  - vm_compute. reflexivity.
Qed.

(** X22.  Each polling loop makes at least one and at most five attempts, in
    order, and then returns; when no attempt is complete it makes exactly
    five.  What it returns then: in demo_cris.py the answer of the last
    query made, whatever the earlier attempts had found (the variable is
    assigned at every attempt); in demo_account_sharding.py, for each
    account, the last snapshot that a query made available. *)
Theorem poller_stops_within_budget :
  (forall (query : nat -> CloudWatch.query_outcome) (E : nat),
     let r := Cris.poll query E in
     let n := length (Cris.queried (fst r)) in
     (1 <= n <= 5)%nat
     /\ Cris.queried (fst r) = seq 0 n
     /\ snd r = Cris.answer query (n - 1)
     /\ ((forall a, (a < 5)%nat -> Cris.complete (Cris.answer query a) E = false) ->
         n = 5%nat /\ snd r = Cris.answer query 4))
  /\
  (forall (query : nat -> string -> CloudWatch.query_outcome)
          (reversed : nat -> bool) (E1 E2 : nat),
     let r := Sharding.poll query reversed E1 E2 in
     let n := length (Sharding.slept (fst r)) in
     let store := Sharding.store_from query reversed E1 E2 ∅ 0 in
     (1 <= n <= 5)%nat
     /\ Sharding.queried (fst r) = flat_map (Sharding.queries_of E1 E2) (seq 0 n)
     /\ (forall label,
           snd r !! label
           = if decide (label ∈ Sharding.futures E1 E2)
             then Sharding.latest query label n else None)
     /\ ((forall k, (1 <= k <= 5)%nat ->
            Sharding.all_complete E1 E2 (store k) = false) ->
         n = 5%nat)).
Proof.
  split.
  - intros query E r n.
    destruct (cris_poll_spec query E) as (Hq & Hn & Hfin & Hinc & Hlast).
    fold r in Hq, Hn, Hfin, Hinc, Hlast. fold n in Hq, Hn, Hfin, Hinc, Hlast.
    split; [exact Hn|]. split; [exact Hq|]. split; [exact Hfin|].
    intros Hnone.
    assert (n = 5%nat) as Hn5.
    { destruct (Nat.eq_dec n 5) as [|Hne]; [assumption|].
      rewrite Hnone in Hlast by lia. specialize (Hlast ltac:(lia)). discriminate. }
    split; [exact Hn5|]. rewrite Hfin, Hn5. reflexivity.
  - intros query reversed E1 E2 r n store.
    destruct (sharding_poll_spec query reversed E1 E2)
      as (Hq & Hn & Hfin & Hinc & Hlast).
    fold r in Hq, Hn, Hfin, Hinc, Hlast. fold n in Hq, Hn, Hfin, Hinc, Hlast.
    fold store in Hfin, Hinc, Hlast.
    split; [exact Hn|]. split; [exact Hq|]. split.
    + intros label. rewrite Hfin. apply store_from_lookup.
    + intros Hnone.
      destruct (Nat.eq_dec n 5) as [|Hne]; [assumption|].
      rewrite Hnone in Hlast by lia. specialize (Hlast ltac:(lia)). discriminate.
Qed.

Lemma poller_stops_within_budget_witness :
  let query := fun a : nat =>
    CloudWatch.Results [("us-east-1", Z.of_nat (a / 4))] in
  length (Cris.queried (fst (Cris.poll query 2))) = 5%nat
  /\ snd (Cris.poll query 2) = Cris.answer query 4.
Proof.
  intros query.
  destruct (proj1 poller_stops_within_budget query 2%nat) as (_ & _ & _ & Hex).
  assert (forall a, (a < 5)%nat ->
                    Cris.complete (Cris.answer query a) 2 = false) as Hnone.
  { intros a Ha.
    destruct a as [|[|[|[|[|a]]]]]; [reflexivity.. | lia]. }
  destruct (Hex Hnone) as [Hn Hret].
  split; [exact Hn | exact Hret].
Defined.

(** * Further properties of the code *)

(** ** What a collected batch holds *)

Section CollectedBatch.

Lemma filter_length_Permutation {A : Type} (f : A -> bool) (l l' : list A) :
  Permutation l l' -> length (List.filter f l) = length (List.filter f l').
Proof.
  induction 1 as [|x l l' _ IH|x y l|l l' l'' _ IH1 _ IH2]; simpl.
  - reflexivity.
  - destruct (f x); simpl; congruence.
  - destruct (f x), (f y); reflexivity.
  - congruence.
Qed.

Lemma filter_map_length {A B : Type} (g : A -> B) (f : B -> bool) (l : list A) :
  length (List.filter f (map g l))
  = length (List.filter (fun x => f (g x)) l).
Proof.
  induction l as [|x l IH]; simpl; [reflexivity|].
  destruct (f (g x)); simpl; congruence.
Qed.

Lemma count_below (m start n : nat) :
  length (List.filter (fun i => (i <? m)%nat) (seq start n))
  = Nat.min (m - start) n.
Proof.
  revert start. induction n as [|n IH]; intros start; simpl.
  - now rewrite Nat.min_0_r.
  - destruct (Nat.ltb_spec start m); simpl; rewrite IH; lia.
Qed.

Lemma count_even (n : nat) :
  length (List.filter Nat.even (seq 0 n)) = ((n + 1) / 2)%nat.
Proof.
  induction n as [|n IH]; [reflexivity|].
  rewrite seq_S, List.filter_app, length_app, IH.
  change (List.filter Nat.even [(0 + n)%nat])
    with (if Nat.even n then [n] else []).
  rewrite <- mod2_even.
  pose proof (Nat.div_mod_eq n 2) as Hn.
  pose proof (Nat.mod_upper_bound n 2 ltac:(lia)) as Hb.
  pose proof (Nat.div_mod_eq (n + 1) 2) as Hn1.
  pose proof (Nat.mod_upper_bound (n + 1) 2 ltac:(lia)) as Hb1.
  pose proof (Nat.div_mod_eq (S n + 1) 2) as Hn2.
  pose proof (Nat.mod_upper_bound (S n + 1) 2 ltac:(lia)) as Hb2.
  destruct (Nat.eqb_spec (n mod 2) 0); cbn [length]; lia.
Qed.

Lemma cris_worker_request_id invoke_model model_id (i : nat) :
  Cris.request_id (Cris.worker invoke_model model_id i) = S i.
Proof.
  unfold Cris.worker, Cris.send_bedrock_request.
  destruct (invoke_model _ _ _); simpl; lia.
Qed.

Lemma sharding_worker_request_id invoke_model p1 p2 model_id strategy
    random_choice n (i : nat) :
  Sharding.request_id
    (Sharding.worker invoke_model p1 p2 model_id strategy random_choice n i)
  = S i.
Proof.
  unfold Sharding.worker, Sharding.send_bedrock_request.
  destruct (invoke_model _ _ _ _); simpl; lia.
Qed.

Lemma labelled_partition (results : list Sharding.ProbeResult) :
  Forall Sharding.labelled results ->
  (length (Sharding.primary_results results)
   + length (Sharding.secondary_results results) = length results)%nat.
Proof.
  unfold Sharding.primary_results, Sharding.secondary_results.
  induction 1 as [|r l Hr _ IH]; [reflexivity|].
  simpl. destruct Hr as [Hr|Hr]; rewrite Hr; simpl; lia.
Qed.

(** The number of results that the collected list of
    demo_account_sharding.py holds for ACCOUNT1 is the number of request
    indices that [use_primary] sends there. *)
Lemma collected_primary_count invoke_model p1 p2 model_id strategy
    random_choice (n : Z) (results : list Sharding.ProbeResult) :
  (1 <= n)%Z ->
  Sharding.collected invoke_model p1 p2 model_id strategy random_choice n results ->
  length (Sharding.primary_results results)
  = length (List.filter (Sharding.use_primary strategy n random_choice)
              (seq 0 (Z.to_nat n)))
  /\ length results = Z.to_nat n
  /\ Forall Sharding.labelled results.
Proof.
  intros Hn Hcol.
  pose proof (collected_labelled _ _ _ _ _ _ _ _ Hcol) as Hlab.
  destruct Hcol as (s & Hb & <-).
  apply barrier_results in Hb as [HP Hlen];
    [|unfold Sharding.max_workers; lia].
  split; [|split; [exact Hlen | exact Hlab]].
  unfold Sharding.primary_results.
  rewrite (filter_length_Permutation _ _ _ HP), filter_map_length.
  f_equal. apply List.filter_ext. intros i.
  rewrite (proj1 (worker_account invoke_model p1 p2 model_id strategy
                    random_choice n i)).
  now destruct (Sharding.use_primary strategy n random_choice i).
Qed.

End CollectedBatch.

(** X1.  Every request id from 1 to N occurs exactly once in the collected list:
    no result is lost, none is recorded twice, in demo_cris.py and in
    demo_account_sharding.py under every strategy. *)
Theorem collected_request_ids (num_requests : Z) (Hn : (1 <= num_requests)%Z) :
  (forall invoke_model model_id results,
     Cris.collected invoke_model model_id num_requests results ->
     Permutation (map Cris.request_id results) (seq 1 (Z.to_nat num_requests))
     /\ List.NoDup (map Cris.request_id results))
  /\
  (forall invoke_model p1 p2 model_id strategy random_choice results,
     Sharding.collected invoke_model p1 p2 model_id strategy random_choice
       num_requests results ->
     Permutation (map Sharding.request_id results)
       (seq 1 (Z.to_nat num_requests))
     /\ List.NoDup (map Sharding.request_id results)).
Proof.
  split.
  - intros invoke_model model_id results (s & Hb & <-).
    apply barrier_results in Hb as [HP _]; [|unfold Cris.max_workers; lia].
    assert (Permutation (map Cris.request_id (Executor.results s))
              (seq 1 (Z.to_nat num_requests))) as HP'.
    { rewrite (Permutation_map Cris.request_id HP), List.map_map.
      rewrite (List.map_ext _ S (cris_worker_request_id invoke_model model_id)).
      now rewrite seq_shift. }
    split; [exact HP'|].
    apply (Permutation_NoDup (Permutation_sym HP')), seq_NoDup.
  - intros invoke_model p1 p2 model_id strategy random_choice results
      (s & Hb & <-).
    apply barrier_results in Hb as [HP _]; [|unfold Sharding.max_workers; lia].
    assert (Permutation (map Sharding.request_id (Executor.results s))
              (seq 1 (Z.to_nat num_requests))) as HP'.
    { rewrite (Permutation_map Sharding.request_id HP), List.map_map.
      rewrite (List.map_ext _ S
                 (sharding_worker_request_id invoke_model p1 p2 model_id
                    strategy random_choice num_requests)).
      now rewrite seq_shift. }
    split; [exact HP'|].
    apply (Permutation_NoDup (Permutation_sym HP')), seq_NoDup.
Qed.

Lemma collected_request_ids_witness :
  exists results,
    Cris.collected (fun _ _ _ => Cris.Raised "boom") "m" 4 results
    /\ Permutation (map Cris.request_id results) [1; 2; 3; 4]%nat.
Proof.
  exists (Executor.results
            (Executor.run_in_order (Cris.worker (fun _ _ _ => Cris.Raised "boom") "m") 4)).
  assert (Cris.collected (fun _ _ _ => Cris.Raised "boom") "m" 4
            (Executor.results
               (Executor.run_in_order
                  (Cris.worker (fun _ _ _ => Cris.Raised "boom") "m") 4))) as Hcol.
  { eexists. split; [apply barrier_reached; vm_compute; lia | reflexivity]. }
  split; [exact Hcol|].
  exact (proj1 (proj1 (collected_request_ids 4 ltac:(lia)) _ _ _ Hcol)).
Defined.

(** X2.  How a batch of demo_account_sharding.py is shared between the accounts.
    Under split ACCOUNT1 gets [N // 2] requests and ACCOUNT2 the other
    [N - N // 2]; under round-robin ACCOUNT1 gets [(N + 1) // 2] and ACCOUNT2
    [N // 2].  So the announced "N // 2 per account" is what both get only
    when N is even. *)
Theorem accounts_share_of_batch (num_requests : Z) (Hn : (1 <= num_requests)%Z)
    invoke_model p1 p2 model_id random_choice
    (results : list Sharding.ProbeResult) :
  (Sharding.collected invoke_model p1 p2 model_id "split" random_choice
     num_requests results ->
   Z.of_nat (length (Sharding.primary_results results)) = (num_requests / 2)%Z
   /\ Z.of_nat (length (Sharding.secondary_results results))
      = (num_requests - num_requests / 2)%Z)
  /\
  (Sharding.collected invoke_model p1 p2 model_id "round-robin" random_choice
     num_requests results ->
   Z.of_nat (length (Sharding.primary_results results))
   = ((num_requests + 1) / 2)%Z
   /\ Z.of_nat (length (Sharding.secondary_results results))
      = (num_requests / 2)%Z).
Proof.
  split; intros Hcol;
    destruct (collected_primary_count _ _ _ _ _ _ _ _ Hn Hcol)
      as (Hprim & Hlen & Hlab);
    pose proof (labelled_partition _ Hlab) as Hpart.
  - assert (length (Sharding.primary_results results)
            = Z.to_nat (num_requests / 2)) as Hp.
    { rewrite Hprim.
      rewrite (List.filter_ext _ (fun i => (i <? Z.to_nat (num_requests / 2))%nat)).
      - rewrite count_below.
        assert (0 <= num_requests / 2 <= num_requests)%Z
          by (split; [apply Z.div_pos; lia | apply Z.div_le_upper_bound; lia]).
        lia.
      - intros i. unfold Sharding.use_primary.
        change (String.eqb "split" "round-robin") with false.
        change (String.eqb "split" "split") with true. cbv iota.
        assert (0 <= num_requests / 2)%Z by (apply Z.div_pos; lia).
        destruct (Z.ltb_spec (Z.of_nat i) (num_requests / 2)),
          (Nat.ltb_spec i (Z.to_nat (num_requests / 2))); auto; lia. }
    assert (0 <= num_requests / 2)%Z by (apply Z.div_pos; lia). lia.
  - assert (length (Sharding.primary_results results)
            = ((Z.to_nat num_requests + 1) / 2)%nat) as Hp.
    { rewrite Hprim.
      rewrite (List.filter_ext _ Nat.even).
      - apply count_even.
      - intros i. apply use_primary_round_robin. }
    assert (Z.of_nat ((Z.to_nat num_requests + 1) / 2)
            = ((num_requests + 1) / 2)%Z) as Hdiv.
    { rewrite Nat2Z.inj_div, Nat2Z.inj_add, Z2Nat.id by lia. reflexivity. }
    pose proof (Z.div_mod num_requests 2 ltac:(lia)) as Hd.
    pose proof (Z.mod_pos_bound num_requests 2 ltac:(lia)) as Hb.
    pose proof (Z.div_mod (num_requests + 1) 2 ltac:(lia)) as Hd1.
    pose proof (Z.mod_pos_bound (num_requests + 1) 2 ltac:(lia)) as Hb1.
    lia.
Qed.

Lemma accounts_share_of_batch_witness :
  let invoke : Sharding.bedrock := fun _ _ _ _ => Sharding.Responded 1 "ok" in
  let results :=
    Executor.results
      (Executor.run_in_order
         (Sharding.worker invoke "p1" "p2" "m" "round-robin" (fun _ => true) 5) 5) in
  Z.of_nat (length (Sharding.primary_results results)) = 3%Z
  /\ Z.of_nat (length (Sharding.secondary_results results)) = 2%Z.
Proof.
  intros invoke results.
  apply (proj2 (accounts_share_of_batch 5 ltac:(lia) invoke "p1" "p2" "m"
                  (fun _ => true) results)).
  eexists. split; [apply barrier_reached; vm_compute; lia | reflexivity].
Defined.

(** ** Bounds on the statistics *)

Section StatisticsBounds.
Local Open Scope Q_scope.

Lemma of_int_le (a b : nat) : (a <= b)%nat -> PyNum.of_int a <= PyNum.of_int b.
Proof. intros H. unfold PyNum.of_int. rewrite <- Zle_Qle. lia. Qed.

Lemma of_int_gt_0 (n : nat) : (0 < n)%nat -> 0 < PyNum.of_int n.
Proof.
  intros H. unfold PyNum.of_int. change 0 with (inject_Z 0).
  rewrite <- Zlt_Qlt. lia.
Qed.

Lemma of_int_eq (a b : nat) : PyNum.of_int a == PyNum.of_int b <-> a = b.
Proof.
  unfold PyNum.of_int. rewrite inject_Z_injective. lia.
Qed.

(** The percentage [s / t * 100] of a part [s] of a whole [t]. *)
Lemma percentage_bounds (s t : nat) :
  (0 < t)%nat -> (s <= t)%nat ->
  0 <= PyNum.of_int s / PyNum.of_int t * 100
  /\ PyNum.of_int s / PyNum.of_int t * 100 <= 100
  /\ (PyNum.of_int s / PyNum.of_int t * 100 == 100 <-> s = t).
Proof.
  intros Ht Hst.
  pose proof (of_int_gt_0 t Ht) as Htq.
  pose proof (of_int_le 0 s ltac:(lia)) as Hs0. change (PyNum.of_int 0) with 0 in Hs0.
  pose proof (of_int_le s t Hst) as Hsq.
  assert (~ PyNum.of_int t == 0) as Hnz by (intros E; rewrite E in Htq; inversion Htq).
  assert (0 <= PyNum.of_int s / PyNum.of_int t) as Hlo
    by (apply Qle_shift_div_l; [exact Htq | now rewrite Qmult_0_l]).
  assert (PyNum.of_int s / PyNum.of_int t <= 1) as Hhi
    by (apply Qle_shift_div_r; [exact Htq | now rewrite Qmult_1_l]).
  split; [|split].
  - apply Qmult_le_0_compat; [exact Hlo | discriminate].
  - apply (Qle_trans _ (1 * 100)).
    + apply Qmult_le_compat_r; [exact Hhi | discriminate].
    + rewrite Qmult_1_l. apply Qle_refl.
  - rewrite <- of_int_eq. split.
    + intros H.
      assert (PyNum.of_int s / PyNum.of_int t == 1) as H1.
      { apply (Qmult_inj_r _ _ 100); [discriminate|]. rewrite H. ring. }
      rewrite <- (Qmult_div_r (PyNum.of_int s) (PyNum.of_int t) Hnz), H1. ring.
    + intros ->. field. exact Hnz.
Qed.



Lemma total_successful_le (results : list Sharding.ProbeResult) :
  (Sharding.total_successful results <= length results)%nat.
Proof.
  unfold Sharding.total_successful, Sharding.primary_successful,
    Sharding.secondary_successful, Sharding.count_successful,
    Sharding.primary_results, Sharding.secondary_results.
  induction results as [|r l IH]; simpl; [lia|].
  destruct (String.eqb_spec (Sharding.account_type r) "ACCOUNT1") as [E|_].
  - rewrite E. change (String.eqb "ACCOUNT1" "ACCOUNT2") with false.
    simpl. destruct (Sharding.success r); simpl; lia.
  - destruct (String.eqb (Sharding.account_type r) "ACCOUNT2"); simpl;
      try destruct (Sharding.success r); simpl; lia.
Qed.

End StatisticsBounds.

(** X3.  The success rate is a percentage: it lies between 0 and 100, and it is
    100 exactly when the batch is not empty and no request failed, which is
    when the lines of the tables are printed green. *)
Theorem success_rate_bounds (cris_results : list Cris.ProbeResult)
    (sharding_results : list Sharding.ProbeResult) (t : Q) :
  (let summary := Cris.statistics cris_results t in
   (0 <= Cris.success_rate summary)%Q
   /\ (Cris.success_rate summary <= 100)%Q
   /\ ((Cris.success_rate summary == 100)%Q
       <-> cris_results <> [] /\ Cris.failed summary = 0%nat))
  /\
  (let summary := Sharding.statistics sharding_results t in
   (0 <= Sharding.success_rate summary)%Q
   /\ (Sharding.success_rate summary <= 100)%Q
   /\ ((Sharding.success_rate summary == 100)%Q
       <-> sharding_results <> []
           /\ Sharding.successful summary = Sharding.total_requests summary)).
Proof.
  split.
  - intros summary. subst summary.
    pose proof (filter_partition_length (fun r => Cris.success r) cris_results)
      as Hlen.
    unfold Cris.statistics;
      cbn [Cris.success_rate Cris.failed Cris.successful Cris.total_requests].
    destruct cris_results as [|r l] eqn:Hres.
    + simpl. repeat split; try discriminate. intros [H _]. congruence.
    + rewrite <- Hres in *. assert (0 < length cris_results)%nat as Hpos
        by (rewrite Hres; simpl; lia).
      destruct (Nat.ltb_spec 0 (length cris_results)) as [_|]; [|lia].
      destruct (percentage_bounds
                  (length (List.filter (fun r => Cris.success r) cris_results))
                  (length cris_results) Hpos ltac:(lia)) as (H0 & H100 & Heq).
      split; [exact H0|]. split; [exact H100|].
      rewrite Heq. split.
      * intros E. split; [rewrite Hres; discriminate | lia].
      * intros [_ E]. lia.
  - intros summary. subst summary.
    pose proof (total_successful_le sharding_results) as Hle.
    unfold Sharding.statistics, Sharding.success_rate_of;
      cbn [Sharding.success_rate Sharding.successful Sharding.total_requests].
    destruct sharding_results as [|r l] eqn:Hres.
    + simpl. repeat split; try discriminate. intros [H _]. congruence.
    + rewrite <- Hres in *. assert (0 < length sharding_results)%nat as Hpos
        by (rewrite Hres; simpl; lia).
      destruct (Nat.ltb_spec 0 (length sharding_results)) as [_|]; [|lia].
      destruct (percentage_bounds (Sharding.total_successful sharding_results)
                  (length sharding_results) Hpos Hle) as (H0 & H100 & Heq).
      split; [exact H0|]. split; [exact H100|].
      rewrite Heq. split.
      * intros E. split; [rewrite Hres; discriminate | exact E].
      * intros [_ E]. exact E.
Qed.



(** ** More on the polling loops *)

Section PollingMore.

Lemma poll_loop_order_irrelevant
    (query : nat -> string -> CloudWatch.query_outcome)
    (reversed reversed' : nat -> bool) (e1 e2 : nat) (attempts : list nat)
    (all : gmap string Sharding.Snapshot) :
  Sharding.poll_loop query reversed e1 e2 attempts all
  = Sharding.poll_loop query reversed' e1 e2 attempts all.
Proof.
  revert all. induction attempts as [|a rest IH]; intros all; [reflexivity|].
  rewrite !sharding_poll_loop_cons.
  rewrite (collect_order_irrelevant query reversed reversed').
  now rewrite IH.
Qed.

Lemma cris_slept_app (l1 l2 : list Cris.event) :
  Waits.cris_slept (l1 ++ l2) = Waits.cris_slept l1 ++ Waits.cris_slept l2.
Proof. apply flat_map_app. Qed.

Lemma cris_poll_loop_slept (query : nat -> CloudWatch.query_outcome)
    (successful m b : nat) (cur : Cris.cw_result) :
  let r := Cris.poll_loop query successful (seq b m) cur in
  Waits.cris_slept (fst r)
  = map Waits.wait_before (seq b (length (Cris.queried (fst r)))).
Proof.
  revert b cur. induction m as [|m IH]; intros b cur; [reflexivity|].
  cbn [seq]. rewrite cris_poll_loop_cons.
  destruct (Cris.complete (Cris.answer query b) successful); cbn [fst].
  - reflexivity.
  - specialize (IH (S b) (Cris.answer query b)). cbv zeta in IH.
    rewrite cris_queried_attempt. cbn [length seq map].
    change (Waits.cris_slept (Cris.EvSleep ?w :: Cris.EvQuery ?a :: ?l))
      with (w :: Waits.cris_slept l).
    rewrite cris_slept_app, cris_queried_app, IH.
    destruct (b <? 4)%nat; reflexivity.
Qed.

Lemma wait_schedule (n : nat) :
  (0 < n)%nat ->
  map Waits.wait_before (seq 0 n) = 60%nat :: repeat 30%nat (n - 1).
Proof.
  intros Hn. destruct n as [|n]; [lia|]. cbn [seq map].
  change (Waits.wait_before 0) with 60%nat. f_equal.
  replace (S n - 1)%nat with n by lia.
  assert (forall b, (0 < b)%nat ->
            map Waits.wait_before (seq b n) = repeat 30%nat n) as H.
  { clear Hn. induction n as [|n IH]; intros b Hb; [reflexivity|].
    cbn [seq map repeat]. rewrite IH by lia.
    unfold Waits.wait_before. destruct (Nat.eqb_spec b 0); [lia | reflexivity]. }
  apply H. lia.
Qed.

Lemma list_sum_repeat (c n : nat) : list_sum (repeat c n) = (c * n)%nat.
Proof. induction n as [|n IH]; simpl; [lia | rewrite IH; lia]. Qed.

Lemma total_wait (n : nat) :
  (0 < n)%nat ->
  list_sum (60%nat :: repeat 30%nat (n - 1)) = (60 + 30 * (n - 1))%nat.
Proof. intros _. change (list_sum (?x :: ?l)) with (x + list_sum l)%nat.
  now rewrite list_sum_repeat. Qed.

(** The retry message of demo_account_sharding.py names an account exactly
    when the store is not complete. *)
Lemma missing_nil_iff (e1 e2 : nat) (all : gmap string Sharding.Snapshot) :
  Sharding.missing e1 e2 all = [] <-> Sharding.all_complete e1 e2 all = true.
Proof.
  unfold Sharding.missing, Sharding.all_complete.
  destruct (0 <? e1)%nat, (0 <? e2)%nat,
    (Sharding.got "ACCOUNT1" e1 all), (Sharding.got "ACCOUNT2" e2 all);
    simpl; split; intros H; congruence.
Qed.

End PollingMore.

(** X5.  The order in which the answers of the two accounts arrive within an
    attempt changes nothing: neither the queries made, nor the waits, nor
    the store that the loop of demo_account_sharding.py returns. *)
Theorem poll_order_irrelevant
    (query : nat -> string -> CloudWatch.query_outcome)
    (reversed reversed' : nat -> bool) (e1 e2 : nat) :
  Sharding.poll query reversed e1 e2 = Sharding.poll query reversed' e1 e2
  /\ forall results total_time,
       Sharding.analyze_cross_account_results query reversed results total_time
       = Sharding.analyze_cross_account_results query reversed' results total_time.
Proof.
  assert (forall a b, Sharding.poll query reversed a b
                      = Sharding.poll query reversed' a b) as H
    by (intros; apply poll_loop_order_irrelevant).
  split; [apply H|].
  intros results total_time. unfold Sharding.analyze_cross_account_results.
  now rewrite H.
Qed.

(** X6.  The polling loops wait 60 seconds before the first attempt and 30
    before each later one: with [n] attempts made, [60 + 30 (n - 1)] seconds
    in all, at most 180. *)
Theorem poll_wait_schedule :
  (forall (query : nat -> CloudWatch.query_outcome) (E : nat),
     let r := Cris.poll query E in
     let n := length (Cris.queried (fst r)) in
     Waits.cris_slept (fst r) = 60%nat :: repeat 30%nat (n - 1)
     /\ list_sum (Waits.cris_slept (fst r)) = (60 + 30 * (n - 1))%nat
     /\ (list_sum (Waits.cris_slept (fst r)) <= 180)%nat)
  /\
  (forall (query : nat -> string -> CloudWatch.query_outcome)
          (reversed : nat -> bool) (E1 E2 : nat),
     let r := Sharding.poll query reversed E1 E2 in
     let n := length (Sharding.slept (fst r)) in
     Sharding.slept (fst r) = 60%nat :: repeat 30%nat (n - 1)
     /\ list_sum (Sharding.slept (fst r)) = (60 + 30 * (n - 1))%nat
     /\ (list_sum (Sharding.slept (fst r)) <= 180)%nat).
Proof.
  split.
  - intros query E. cbv zeta.
    pose proof (cris_poll_spec query E) as H. cbv zeta in H.
    destruct H as (_ & Hn & _).
    pose proof (cris_poll_loop_slept query E 5 0 Cris.CwNone) as Hs.
    cbv zeta in Hs.
    change (Cris.poll_loop query E (seq 0 5) Cris.CwNone)
      with (Cris.poll query E) in Hs.
    set (n := length (Cris.queried (fst (Cris.poll query E)))) in *.
    rewrite Hs, wait_schedule by lia. split; [reflexivity|].
    rewrite total_wait by lia. lia.
  - intros query reversed E1 E2. cbv zeta.
    pose proof (sharding_poll_spec query reversed E1 E2) as H. cbv zeta in H.
    destruct H as (_ & Hn & _).
    pose proof (sharding_poll_loop_spec query reversed E1 E2 5 0 ∅) as Hs.
    cbv zeta in Hs. destruct Hs as (_ & Hs & _).
    change (Sharding.poll_loop query reversed E1 E2 (seq 0 5) ∅)
      with (Sharding.poll query reversed E1 E2) in Hs.
    change (fun a : nat => if (a =? 0)%nat then 60%nat else 30%nat)
      with Waits.wait_before in Hs.
    set (n := length (Sharding.slept (fst (Sharding.poll query reversed E1 E2))))
      in *.
    rewrite Hs, wait_schedule by lia. split; [reflexivity|].
    rewrite total_wait by lia. lia.
Qed.

(** X7.  In demo_account_sharding.py the loop retries exactly when the list of
    accounts named in its "Incomplete data" message is not empty, and that
    list names an account only if it had successes and its stored count is
    not the expected one. *)
Theorem retry_message_names_the_incomplete
    (e1 e2 : nat) (all : gmap string Sharding.Snapshot) :
  (Sharding.all_complete e1 e2 all = false <-> Sharding.missing e1 e2 all <> [])
  /\ (forall label found expected,
        In (label, found, expected) (Sharding.missing e1 e2 all) ->
        (0 < expected)%nat
        /\ Sharding.got label expected all = false
        /\ found = Sharding.found label all
        /\ ((label = "ACCOUNT1" /\ expected = e1)
            \/ (label = "ACCOUNT2" /\ expected = e2))).
Proof.
  split.
  - pose proof (missing_nil_iff e1 e2 all) as [H1 H2].
    destruct (Sharding.all_complete e1 e2 all); split; intros H.
    + discriminate.
    + exfalso. apply H. now apply H2.
    + intros E. specialize (H1 E). discriminate.
    + reflexivity.
  - intros label found expected Hin. unfold Sharding.missing in Hin.
    apply in_app_or in Hin as [Hin|Hin].
    + destruct (Nat.ltb_spec 0 e1); [|destruct Hin].
      destruct (Sharding.got "ACCOUNT1" e1 all) eqn:Hg; [destruct Hin|].
      destruct Hin as [[= <- <- <-]|[]]. repeat split; auto.
    + destruct (Nat.ltb_spec 0 e2); [|destruct Hin].
      destruct (Sharding.got "ACCOUNT2" e2 all) eqn:Hg; [destruct Hin|].
      destruct Hin as [[= <- <- <-]|[]]. repeat split; auto.
Qed.

(** ** The content kept of a response *)

Section Content.

Lemma string_length_append (a b : string) :
  String.length (a ++ b)%string = (String.length a + String.length b)%nat.
Proof.
  induction a as [|c a IH]; [reflexivity|].
  rewrite append_cons. simpl. now rewrite IH.
Qed.

Lemma take_split (n : nat) (s : string) :
  exists rest, s = (PyStr.take n s ++ rest)%string
               /\ String.length (PyStr.take n s) = Nat.min n (String.length s).
Proof.
  unfold PyStr.take. revert s. induction n as [|n IH]; intros s.
  - exists s. destruct s; split; reflexivity.
  - destruct s as [|c s].
    + exists ""%string. split; reflexivity.
    + destruct (IH s) as (rest & Hs & Hlen). exists rest. split.
      * change (String.substring 0 (S n) (String c s))
          with (String c (String.substring 0 n s)).
        rewrite append_cons. now rewrite <- Hs.
      * change (String.substring 0 (S n) (String c s))
          with (String c (String.substring 0 n s)).
        simpl. now rewrite Hlen.
Qed.

End Content.

(** X8.  The content kept of a successful response is the text itself when it has
    at most 50 characters, and otherwise its first 50 characters followed by
    three dots: never more than 53 characters.  A failed probe keeps no
    content. *)
Theorem content_is_truncated (text : string) :
  (String.length (Cris.truncate_content text) <= 53)%nat
  /\ ((String.length text <= 50)%nat -> Cris.truncate_content text = text)
  /\ ((50 < String.length text)%nat ->
      exists head rest,
        text = (head ++ rest)%string /\ String.length head = 50%nat
        /\ Cris.truncate_content text = (head ++ "...")%string)
  /\ Sharding.truncate_content text = Cris.truncate_content text
  /\ (forall invoke_model request_id model_id question,
        let r := snd (Cris.send_bedrock_request invoke_model request_id
                        model_id question) in
        match Cris.content r with
        | Some c => Cris.success r = true /\ (String.length c <= 53)%nat
        | None => Cris.success r = false
        end).
Proof.
  assert (String.length (Cris.truncate_content text) <= 53)%nat as Hlen.
  { unfold Cris.truncate_content.
    destruct (Nat.ltb_spec 50 (String.length text)) as [Hlong|Hshort]; [|lia].
    destruct (take_split 50 text) as (rest & _ & Hl).
    rewrite string_length_append, Hl.
    change (String.length "...") with 3%nat. lia. }
  split; [exact Hlen|]. split; [|split; [|split]].
  - intros Hshort. unfold Cris.truncate_content.
    destruct (Nat.ltb_spec 50 (String.length text)); [lia | reflexivity].
  - intros Hlong. unfold Cris.truncate_content.
    destruct (Nat.ltb_spec 50 (String.length text)); [|lia].
    destruct (take_split 50 text) as (rest & Hs & Hl).
    exists (PyStr.take 50 text), rest. split; [exact Hs|]. split; [lia | reflexivity].
  - reflexivity.
  - intros invoke_model request_id model_id question.
    unfold Cris.send_bedrock_request.
    destruct (invoke_model request_id model_id question) as [elapsed t|msg];
      cbn [snd Cris.content Cris.success]; [|reflexivity].
    split; [reflexivity|].
    unfold Cris.truncate_content.
    destruct (Nat.ltb_spec 50 (String.length t)) as [Hlong|Hshort]; [|lia].
    destruct (take_split 50 t) as (rest & _ & Hl).
    rewrite string_length_append, Hl.
    change (String.length "...") with 3%nat. lia.
Qed.

Lemma content_is_truncated_witness :
  Cris.truncate_content "short answer" = "short answer".
Proof.
  apply (proj1 (proj2 (content_is_truncated "short answer"))). simpl. lia.
Defined.

(** ** Waiting for a query to complete *)

Section QueryWait.
Local Open Scope Q_scope.
Variable describe : nat -> QueryStatus.describe_outcome.
Variable elapsed : nat -> Q.
Variable query_id : string.
Variable timeout : Q.

Local Abbreviation wait_loop :=
  (QueryStatus.wait_loop describe elapsed query_id timeout).
Local Abbreviation check := (QueryStatus.check query_id).

Lemma wait_loop_S (fuel k : nat) :
  wait_loop (S fuel) k
  = if Qlt_le_dec (elapsed k) timeout
    then match check (describe k) with
         | QueryStatus.Return b => Some (b, S k)
         | QueryStatus.SleepAndRetry => wait_loop fuel (S k)
         end
    else Some (false, k).
Proof. reflexivity. Qed.

Lemma wait_loop_more_fuel (fuel fuel' k : nat) (r : bool * nat) :
  (fuel <= fuel')%nat -> wait_loop fuel k = Some r -> wait_loop fuel' k = Some r.
Proof.
  revert fuel' k. induction fuel as [|fuel IH]; intros fuel' k Hle H.
  - discriminate.
  - destruct fuel' as [|fuel']; [lia|].
    rewrite wait_loop_S in *.
    destruct (Qlt_le_dec (elapsed k) timeout); [|exact H].
    destruct (check (describe k)); [exact H|].
    apply IH; [lia | exact H].
Qed.

Lemma wait_loop_polls (fuel k : nat) (b : bool) (polls : nat) :
  wait_loop fuel k = Some (b, polls) -> (k <= polls <= k + fuel)%nat.
Proof.
  revert k. induction fuel as [|fuel IH]; intros k H; [discriminate|].
  rewrite wait_loop_S in H.
  destruct (Qlt_le_dec (elapsed k) timeout).
  - destruct (check (describe k)).
    + injection H as _ <-. lia.
    + apply IH in H. lia.
  - injection H as _ <-. lia.
Qed.

Lemma wait_loop_true (fuel k polls : nat) :
  wait_loop fuel k = Some (true, polls) ->
  exists j, polls = S j /\ (k <= j)%nat /\ elapsed j < timeout
            /\ check (describe j) = QueryStatus.Return true
            /\ forall i, (k <= i < j)%nat ->
                 elapsed i < timeout
                 /\ QueryStatus.pending describe query_id i.
Proof.
  revert k. induction fuel as [|fuel IH]; intros k H; [discriminate|].
  rewrite wait_loop_S in H.
  destruct (Qlt_le_dec (elapsed k) timeout) as [Hlt|]; [|discriminate].
  destruct (check (describe k)) as [b|] eqn:Hc.
  - injection H as -> <-. exists k. repeat split; auto; intros; lia.
  - destruct (IH _ H) as (j & -> & Hkj & Hj & Hcj & Hbefore).
    exists j. repeat split; auto; try lia;
      destruct (Nat.eq_dec i k) as [->|]; auto; apply Hbefore; lia.
Qed.

Lemma wait_loop_complete (fuel k j : nat) :
  (k <= j)%nat -> (j < k + fuel)%nat -> elapsed j < timeout ->
  check (describe j) = QueryStatus.Return true ->
  (forall i, (k <= i < j)%nat ->
     elapsed i < timeout /\ QueryStatus.pending describe query_id i) ->
  wait_loop fuel k = Some (true, S j).
Proof.
  revert k. induction fuel as [|fuel IH]; intros k Hkj Hjf Hj Hc Hbefore; [lia|].
  rewrite wait_loop_S.
  destruct (Nat.eq_dec k j) as [->|Hne].
  - destruct (Qlt_le_dec (elapsed j) timeout) as [_|Hge].
    + now rewrite Hc.
    + exfalso. exact (Qlt_not_le _ _ Hj Hge).
  - destruct (Hbefore k ltac:(lia)) as [Hk Hp].
    destruct (Qlt_le_dec (elapsed k) timeout) as [_|Hge].
    + unfold QueryStatus.pending in Hp. rewrite Hp.
      apply IH; auto; try lia. intros i Hi. apply Hbefore. lia.
    + exfalso. exact (Qlt_not_le _ _ Hk Hge).
Qed.

End QueryWait.

Section QueryWaitClock.
Local Open Scope Q_scope.
Variable describe : nat -> QueryStatus.describe_outcome.
Variable elapsed : nat -> Q.
Variable query_id : string.
Hypothesis elapsed_start : 0 <= elapsed 0.
Hypothesis elapsed_sleep : forall k, elapsed k + 2 <= elapsed (S k).

Lemma elapsed_lower (k : nat) : inject_Z (2 * Z.of_nat k) <= elapsed k.
Proof using elapsed_start elapsed_sleep.
  induction k as [|k IH]; [exact elapsed_start|].
  apply Qle_trans with (elapsed k + 2); [|apply elapsed_sleep].
  replace (2 * Z.of_nat (S k))%Z with (2 * Z.of_nat k + 2)%Z by lia.
  rewrite inject_Z_plus. apply Qplus_le_compat; [exact IH | apply Qle_refl].
Qed.

Lemma elapsed_mono (i j : nat) : (i <= j)%nat -> elapsed i <= elapsed j.
Proof using elapsed_sleep.
  induction 1 as [|j _ IH]; [apply Qle_refl|].
  apply Qle_trans with (elapsed j); [exact IH|].
  apply Qle_trans with (elapsed j + 2); [|apply elapsed_sleep].
  rewrite <- (Qplus_0_r (elapsed j)) at 1.
  apply Qplus_le_compat; [apply Qle_refl | discriminate].
Qed.

Lemma before_timeout (k : nat) : elapsed k < 60 -> (k < 30)%nat.
Proof using elapsed_start elapsed_sleep.
  intros H. pose proof (Qle_lt_trans _ _ _ (elapsed_lower k) H) as Hk.
  change 60 with (inject_Z 60) in Hk. rewrite <- Zlt_Qlt in Hk. lia.
Qed.

Lemma wait_loop_returns (fuel k : nat) :
  (k <= 30)%nat -> (31 <= k + fuel)%nat ->
  exists b polls,
    QueryStatus.wait_loop describe elapsed query_id 60 fuel k = Some (b, polls)
    /\ (polls <= 30)%nat.
Proof using elapsed_start elapsed_sleep.
  revert k. induction fuel as [|fuel IH]; intros k Hk Hf; [lia|].
  rewrite wait_loop_S.
  destruct (Qlt_le_dec (elapsed k) 60) as [Hlt|Hge].
  - apply before_timeout in Hlt.
    destruct (QueryStatus.check query_id (describe k)).
    + exists b, (S k). split; [reflexivity | lia].
    + apply IH; lia.
  - exists false, k. split; [reflexivity | lia].
Qed.

End QueryWaitClock.

(** X9.  [wait_for_query_completion] returns: when each pass through the loop
    takes the two seconds of its sleep or more, it looks at the query at
    most 30 times within its 60 seconds, and 31 units of fuel are enough
    for the loop of the model.  It returns [True] exactly when some look,
    made before the time is out, finds the query complete and every earlier
    look found it neither complete, failed, cancelled nor missing. *)
Theorem query_wait_is_bounded
    (describe : nat -> QueryStatus.describe_outcome) (elapsed : nat -> Q)
    (query_id : string)
    (elapsed_start : (0 <= elapsed 0%nat)%Q)
    (elapsed_sleep : forall k, (elapsed k + 2 <= elapsed (S k))%Q) :
  exists b polls,
    (forall fuel, (31 <= fuel)%nat ->
       QueryStatus.wait_for_query_completion describe elapsed query_id 60 fuel
       = Some (b, polls))
    /\ (polls <= 30)%nat
    /\ (b = true <->
        exists j, (elapsed j < 60)%Q
                  /\ QueryStatus.check query_id (describe j)
                     = QueryStatus.Return true
                  /\ forall i, (i < j)%nat ->
                       QueryStatus.pending describe query_id i).
Proof.
  destruct (wait_loop_returns describe elapsed query_id elapsed_start
              elapsed_sleep 31 0 ltac:(lia) ltac:(lia)) as (b & polls & Hr & Hp).
  exists b, polls. split; [|split; [exact Hp|]].
  - intros fuel Hf. unfold QueryStatus.wait_for_query_completion.
    now apply (wait_loop_more_fuel describe elapsed query_id 60 31 fuel 0).
  - split.
    + intros ->. apply wait_loop_true in Hr as (j & _ & _ & Hj & Hc & Hbefore).
      exists j. split; [exact Hj|]. split; [exact Hc|].
      intros i Hi. apply Hbefore. lia.
    + intros (j & Hj & Hc & Hbefore).
      pose proof (before_timeout elapsed elapsed_start elapsed_sleep j Hj) as Hj30.
      assert (QueryStatus.wait_loop describe elapsed query_id 60 31 0
              = Some (true, S j)) as Hr'.
      { apply wait_loop_complete; auto; try lia.
        intros i Hi. split; [|apply Hbefore; lia].
        apply Qle_lt_trans with (elapsed j); [|exact Hj].
        apply elapsed_mono; [exact elapsed_sleep | lia]. }
      rewrite Hr in Hr'. now injection Hr' as -> _.
Qed.

Lemma query_wait_is_bounded_witness :
  exists b polls,
    QueryStatus.wait_for_query_completion
      (fun k => if (k <? 2)%nat
                then QueryStatus.Described
                       [{| QueryStatus.queryId := Some "q-1";
                           QueryStatus.status := Some "Running" |}]
                else QueryStatus.Described
                       [{| QueryStatus.queryId := Some "q-1";
                           QueryStatus.status := Some "Complete" |}])
      (fun k => inject_Z (2 * Z.of_nat k)) "q-1" 60 40
    = Some (b, polls)
    /\ (polls <= 30)%nat.
Proof.
  destruct (query_wait_is_bounded
              (fun k => if (k <? 2)%nat
                        then QueryStatus.Described
                               [{| QueryStatus.queryId := Some "q-1";
                                   QueryStatus.status := Some "Running" |}]
                        else QueryStatus.Described
                               [{| QueryStatus.queryId := Some "q-1";
                                   QueryStatus.status := Some "Complete" |}])
              (fun k => inject_Z (2 * Z.of_nat k)) "q-1")
    as (b & polls & Hfuel & Hpolls & _).
  - discriminate.
  - intros k. change 2%Q with (inject_Z 2). rewrite <- inject_Z_plus.
    rewrite <- Zle_Qle. lia.
  - exists b, polls. split; [apply Hfuel; lia | exact Hpolls].
Defined.

(** ** The rows of a query result *)

Section RawRows.
Variable int : string -> option Z.

Lemma parse_rows_counted (rows : list (list RawResults.result_field))
    (d : gmap string Z) (t : Z) :
  RawResults.parse_rows int rows d t
  = match RawResults.counted int rows with
    | Some ps =>
        Some (fold_left (fun d row => <[fst row := snd row]> d) ps d,
              fold_left (fun acc row => (acc + snd row)%Z) ps t)
    | None => None
    end.
Proof.
  revert d t. induction rows as [|row rows IH]; intros d t; [reflexivity|].
  destruct row as [|f0 [|f1 tl]]; cbn [RawResults.parse_rows RawResults.counted];
    try apply IH.
  destruct (int (RawResults.value f1)) as [count|]; [|reflexivity].
  rewrite IH. destruct (RawResults.counted int rows); reflexivity.
Qed.

(** Some count does not parse exactly when [counted] gives nothing. *)
Lemma counted_None_iff (rows : list (list RawResults.result_field)) :
  RawResults.counted int rows = None
  <-> exists f0 f1 tl, In (f0 :: f1 :: tl) rows
                       /\ int (RawResults.value f1) = None.
Proof.
  induction rows as [|row rows IH].
  - split; [discriminate | intros (? & ? & ? & [] & _)].
  - destruct row as [|f0 [|f1 tl]]; cbn [RawResults.counted].
    + rewrite IH. split; intros (g0 & g1 & gl & Hin & Hg);
        exists g0, g1, gl; split; auto; [now right|].
      destruct Hin as [Heq|Hin]; [discriminate | exact Hin].
    + rewrite IH. split; intros (g0 & g1 & gl & Hin & Hg);
        exists g0, g1, gl; split; auto; [now right|].
      destruct Hin as [Heq|Hin]; [discriminate | exact Hin].
    + destruct (int (RawResults.value f1)) as [count|] eqn:Hi.
      * destruct (RawResults.counted int rows) as [ps|] eqn:Hc.
        -- split; [discriminate|].
           intros (g0 & g1 & gl & [Heq|Hin] & Hg).
           ++ injection Heq as <- <- <-. congruence.
           ++ assert (Some ps = None) as Hn by (apply IH; eauto).
              discriminate.
        -- split; [|reflexivity]. intros _.
           destruct (proj1 IH eq_refl) as (g0 & g1 & gl & Hin & Hg).
           exists g0, g1, gl. split; [now right | exact Hg].
      * split; [|reflexivity]. intros _.
        exists f0, f1, tl. split; [now left | exact Hi].
Qed.

End RawRows.

Section RegionTable.

Lemma sum_counts_snoc (ps : list (string * Z)) (p : string * Z) :
  CloudWatch.sum_counts (ps ++ [p]) = (CloudWatch.sum_counts ps + snd p)%Z.
Proof. unfold CloudWatch.sum_counts. now rewrite fold_left_app. Qed.

Lemma distribution_lookup_None (ps : list (string * Z)) (region : string) :
  ~ In region (map fst ps) -> CloudWatch.distribution_of ps !! region = None.
Proof.
  induction ps as [|p ps IH] using rev_ind; intros Hnin.
  - apply lookup_empty.
  - rewrite distribution_of_snoc. rewrite map_app, in_app_iff in Hnin.
    rewrite lookup_insert_ne.
    + apply IH. tauto.
    + intros E. apply Hnin. right. left. exact E.
Qed.

Lemma table_total_insert (m : gmap string Z) (region : string) (count : Z) :
  m !! region = None ->
  RawResults.table_total (<[region := count]> m)
  = (RawResults.table_total m + count)%Z.
Proof.
  intros Hnone. unfold RawResults.table_total.
  rewrite map_fold_insert_L; [reflexivity | | exact Hnone].
  intros. lia.
Qed.

Lemma table_total_consistent (ps : list (string * Z)) :
  List.NoDup (map fst ps) ->
  RawResults.table_total (CloudWatch.distribution_of ps) = CloudWatch.sum_counts ps.
Proof.
  induction ps as [|p ps IH] using rev_ind; intros Hnd.
  - reflexivity.
  - rewrite map_app in Hnd. simpl in Hnd.
    apply List.NoDup_remove in Hnd as [Hnd Hnin]. rewrite app_nil_r in Hnd, Hnin.
    rewrite distribution_of_snoc, sum_counts_snoc, table_total_insert.
    + now rewrite IH.
    + now apply distribution_lookup_None.
Qed.

(** The region table holds, for a region, the count of the last row that
    names it. *)
Lemma distribution_lookup_last (ps : list (string * Z)) (region : string) :
  CloudWatch.distribution_of ps !! region
  = snd <$> List.find (fun p => String.eqb (fst p) region) (rev ps).
Proof.
  induction ps as [|p ps IH] using rev_ind.
  - apply lookup_empty.
  - rewrite distribution_of_snoc, rev_app_distr. simpl.
    destruct (String.eqb_spec (fst p) region) as [->|Hne].
    + apply lookup_insert_eq.
    + rewrite lookup_insert_ne by exact Hne. exact IH.
Qed.

End RegionTable.

(** X10.  What [get_cloudwatch_results] makes of the rows CloudWatch returns.
    Rows with fewer than two fields are passed over.  If the count of some
    other row does not parse, the whole result is the empty dictionary,
    whatever the other rows hold.  Otherwise the result is the snapshot
    built from the [(region, count)] pairs of the rows that count: the
    snapshot on which the polling loop works. *)
Theorem raw_results_snapshot (int : string -> option Z)
    (row : list RawResults.result_field)
    (rows : list (list RawResults.result_field)) :
  let result :=
    RawResults.get_cloudwatch_results int (RawResults.Fetched (Some (row :: rows))) in
  (forall ps, RawResults.counted int (row :: rows) = Some ps ->
     result = Cris.CwData
                {| Cris.region_distribution := CloudWatch.distribution_of ps;
                   Cris.total_invocations := CloudWatch.sum_counts ps |}
     /\ (ps <> [] -> result = Cris.get_cloudwatch_results ps)
     /\ (ps = [] -> Cris.found_count result = 0%Z
                    /\ forall n, Cris.complete result (S n) = false))
  /\ ((exists f0 f1 tl, In (f0 :: f1 :: tl) (row :: rows)
                        /\ int (RawResults.value f1) = None) ->
      result = Cris.CwEmpty).
Proof.
  intros result. subst result. unfold RawResults.get_cloudwatch_results.
  rewrite parse_rows_counted. split.
  - intros ps Hps. rewrite Hps.
    change (fold_left _ ps ∅) with (CloudWatch.distribution_of ps).
    change (fold_left _ ps 0%Z) with (CloudWatch.sum_counts ps).
    split; [reflexivity|]. split.
    + intros Hne. destruct ps; [contradiction | reflexivity].
    + intros ->. split; [reflexivity|]. intros n. reflexivity.
  - intros H. apply counted_None_iff in H. now rewrite H.
Qed.

Lemma raw_results_snapshot_witness :
  let int := fun s : string => if String.eqb s "7" then Some 7%Z else None in
  let good := [ {| RawResults.field := "inferenceRegion"; RawResults.value := "us-east-1" |};
                {| RawResults.field := "invocationCount"; RawResults.value := "7" |} ] in
  let bad := [ {| RawResults.field := "inferenceRegion"; RawResults.value := "us-west-2" |};
               {| RawResults.field := "invocationCount"; RawResults.value := "n/a" |} ] in
  RawResults.get_cloudwatch_results int (RawResults.Fetched (Some [good; bad]))
  = Cris.CwEmpty.
Proof.
  intros int good bad.
  apply (proj2 (raw_results_snapshot int good [bad])).
  exists {| RawResults.field := "inferenceRegion"; RawResults.value := "us-west-2" |},
         {| RawResults.field := "invocationCount"; RawResults.value := "n/a" |}, [].
  split; [right; left; reflexivity | reflexivity].
Defined.

(** X11.  A snapshot is consistent with itself when its rows name distinct
    regions: the counts of its region table add up to its total, and the
    table has an entry for exactly the regions of the rows.  With a region
    named twice the table keeps the count of the last such row. *)
Theorem snapshot_total_is_table_sum (ps : list (string * Z)) :
  (forall region,
     CloudWatch.distribution_of ps !! region
     = snd <$> List.find (fun p => String.eqb (fst p) region) (rev ps))
  /\ (List.NoDup (map fst ps) ->
      RawResults.table_total (CloudWatch.distribution_of ps)
      = CloudWatch.sum_counts ps
      /\ (forall region count,
            CloudWatch.distribution_of ps !! region = Some count
            <-> In (region, count) ps)).
Proof.
  split; [intros region; apply distribution_lookup_last|].
  intros Hnd. split; [now apply table_total_consistent|].
  intros region count. rewrite distribution_lookup_last.
  induction ps as [|p ps IH] using rev_ind.
  - simpl. split; [discriminate | intros []].
  - rewrite map_app in Hnd. simpl in Hnd.
    apply List.NoDup_remove in Hnd as [Hnd Hnin]. rewrite app_nil_r in Hnd, Hnin.
    rewrite rev_app_distr. simpl. rewrite in_app_iff.
    destruct (String.eqb_spec (fst p) region) as [E|Hne].
    + simpl. split.
      * intros [= <-]. right. left. destruct p; simpl in *; congruence.
      * intros [Hin|[Hp|[]]]; [|subst p; reflexivity].
        exfalso. apply Hnin. apply in_map_iff. exists (region, count).
        split; [symmetry; exact E | exact Hin].
    + rewrite (IH Hnd). split; [tauto|].
      intros [Hin|[Hp|[]]]; [exact Hin | subst p; contradiction].
Qed.

Lemma snapshot_total_is_table_sum_witness :
  RawResults.table_total
    (CloudWatch.distribution_of [("us-east-1", 3%Z); ("us-west-2", 2%Z)])
  = 5%Z.
Proof.
  rewrite (proj1 (proj2 (snapshot_total_is_table_sum
                           [("us-east-1", 3%Z); ("us-west-2", 2%Z)])
                    ltac:(repeat constructor; simpl; intuition discriminate))).
  reflexivity.
Defined.

(** ** The order in which results are collected *)

Section CollectionOrder.
Context {A : Type}.
Variable worker : nat -> A.
Variable max_workers : nat.

Local Abbreviation step := (Executor.step worker max_workers).
Local Abbreviation pool_state := (Executor.pool_state (A := A)).

(** Running tasks can finish in any order. *)
Lemma finish_in_any_order (order running : list nat) (res : list A) :
  Permutation order running ->
  rtc step {| Executor.queued := []; Executor.running := running;
              Executor.results := res |}
           {| Executor.queued := []; Executor.running := [];
              Executor.results := res ++ map worker order |}.
Proof.
  revert running res. induction order as [|i order IH]; intros running res HP.
  - apply Permutation_nil in HP as ->. simpl. rewrite app_nil_r. apply rtc_refl.
  - assert (In i running) as Hin
      by (apply (Permutation_in _ HP); left; reflexivity).
    apply in_split in Hin as (r1 & r2 & ->).
    apply Permutation_cons_app_inv in HP.
    eapply rtc_l; [apply Executor.step_finish|].
    specialize (IH _ (res ++ [worker i]) HP).
    simpl. rewrite <- app_assoc in IH. exact IH.
Qed.

(** With a worker for every task, every order of the results is the result
    of some schedule. *)
Lemma any_order_is_collected (n : nat) (order : list nat) :
  (0 < n)%nat -> (n <= max_workers)%nat -> Permutation order (seq 0 n) ->
  Executor.at_barrier worker max_workers n
    {| Executor.queued := []; Executor.running := [];
       Executor.results := map worker order |}.
Proof.
  intros Hn Hw HP. split.
  - etrans.
    + apply (pool_fills worker max_workers n (seq 0 n) [] []);
        [simpl; lia | rewrite length_seq; lia].
    + rewrite firstn_all2, skipn_all2 by (rewrite length_seq; lia).
      apply (finish_in_any_order order (seq 0 n) [] HP).
  - apply joined_iff; [lia | auto].
Qed.

Lemma in_order_window_step (n : nat) (s s' : pool_state) :
  PoolOrder.in_order_window worker max_workers n s -> step s s' ->
  PoolOrder.in_order_window worker max_workers n s'.
Proof.
  intros (started & ids & Hq & Hle & Hrun & Hres & Hlen & Hw & Hwin) Hstep.
  destruct Hstep as [i q r res Hfree|q r1 i r2 res]; simpl in *.
  - assert (started < n)%nat as Hlt
      by (destruct (n - started)%nat eqn:E; [discriminate | lia]).
    replace (n - started)%nat with (S (n - S started)) in Hq by lia.
    simpl in Hq. injection Hq as -> ->.
    exists (S started), ids. simpl. repeat split; auto; try lia.
    + apply List.Forall_app. split.
      * eapply List.Forall_impl; [|exact Hrun]. simpl. intros; lia.
      * repeat constructor.
    + rewrite length_app. simpl. lia.
    + rewrite length_app. simpl. lia.
  - exists started, (ids ++ [i]). simpl.
    rewrite length_app in Hlen, Hw. simpl in Hlen, Hw.
    apply List.Forall_app in Hrun as [Hr1 Hr2].
    apply List.Forall_cons_iff in Hr2 as [Hi Hr2].
    repeat split; auto.
    + apply List.Forall_app. split; assumption.
    + rewrite Hres, map_app. reflexivity.
    + rewrite !length_app. simpl. lia.
    + rewrite length_app. lia.
    + intros k j Hk.
      destruct (Nat.lt_ge_cases k (length ids)) as [Hlt|Hge].
      * rewrite nth_error_app1 in Hk by exact Hlt. now apply Hwin.
      * rewrite nth_error_app2 in Hk by exact Hge.
        destruct (k - length ids)%nat as [|d] eqn:E; simpl in Hk.
        -- injection Hk as <-. lia.
        -- destruct d; discriminate.
Qed.

Lemma in_order_window_reachable (n : nat) (s : pool_state) :
  rtc step (Executor.submitted n) s ->
  PoolOrder.in_order_window worker max_workers n s.
Proof.
  intros Hsteps.
  assert (PoolOrder.in_order_window worker max_workers n (Executor.submitted n))
    as Hinit.
  { exists 0%nat, []. simpl. rewrite Nat.sub_0_r.
    repeat split; auto; try lia. intros [|k] i; discriminate. }
  revert Hinit.
  induction Hsteps as [|s1 s2 s3 H12 _ IH]; intros Hinit; [exact Hinit|].
  apply IH. eapply in_order_window_step; eassumption.
Qed.

End CollectionOrder.

(** X12.  The order of the collected results is the order in which the calls
    complete, and nothing else.  In demo_cris.py, where every request has
    its worker, each of the orders of the N results is collected under some
    schedule.  In demo_account_sharding.py the 20 workers bound how far a
    result can move ahead: the result collected in position [k] (from 0)
    has a request id of at most [20 + k]. *)
Theorem collection_order (num_requests : Z) (Hn : (1 <= num_requests)%Z) :
  (forall invoke_model model_id (order : list nat),
     Permutation order (seq 0 (Z.to_nat num_requests)) ->
     Cris.collected invoke_model model_id num_requests
       (map (Cris.worker invoke_model model_id) order))
  /\
  (forall invoke_model p1 p2 model_id strategy random_choice results k r,
     Sharding.collected invoke_model p1 p2 model_id strategy random_choice
       num_requests results ->
     nth_error results k = Some r ->
     (Sharding.request_id r <= 20 + k)%nat).
Proof.
  split.
  - intros invoke_model model_id order HP. eexists. split.
    + apply any_order_is_collected; [lia | unfold Cris.max_workers; lia | exact HP].
    + reflexivity.
  - intros invoke_model p1 p2 model_id strategy random_choice results k r
      (s & [Hsteps _] & <-) Hk.
    apply in_order_window_reachable in Hsteps
      as (started & ids & _ & _ & _ & Hres & _ & _ & Hwin).
    rewrite Hres, nth_error_map in Hk.
    destruct (nth_error ids k) as [i|] eqn:Hi; [|discriminate].
    injection Hk as <-. rewrite sharding_worker_request_id.
    specialize (Hwin k i Hi). unfold Sharding.max_workers in Hwin. lia.
Qed.

Lemma collection_order_witness :
  Cris.collected (fun _ _ _ => Cris.Raised "boom") "m" 3
    (map (Cris.worker (fun _ _ _ => Cris.Raised "boom") "m") [2; 0; 1]%nat).
Proof.
  apply (proj1 (collection_order 3 ltac:(lia))).
  apply (Permutation_trans (perm_swap 0%nat 2%nat [1%nat])).
  apply perm_skip, perm_swap.
Defined.

(** ** One query against CloudWatch, call by call *)

Section PipelineCalls.
Variable int : string -> option Z.
Variable session_ok credentials_ok : bool.
Variable started : option string.
Variable describe : string -> nat -> QueryStatus.describe_outcome.
Variable elapsed : nat -> Q.
Variable fetch : string -> RawResults.fetch_outcome.

Local Abbreviation pipeline :=
  (QueryPipeline.query_cloudwatch_distribution int session_ok credentials_ok
     started describe elapsed fetch).

Lemma in_repeat_describe (n : nat) :
  ~ In QueryPipeline.GetQueryResults (repeat QueryPipeline.DescribeQueries n).
Proof. intros H. apply repeat_spec in H. discriminate. Qed.

Lemma in_calls_before_fetch (n : nat) :
  ~ In QueryPipeline.GetQueryResults
      ([QueryPipeline.DescribeLogGroups; QueryPipeline.StartQuery]
       ++ repeat QueryPipeline.DescribeQueries n).
Proof.
  simpl. intros [H|[H|H]]; try discriminate. now apply in_repeat_describe in H.
Qed.

Lemma pipeline_not_awaited :
  (forall query_id,
     ~ QueryPipeline.awaited session_ok credentials_ok started query_id) ->
  exists calls,
    (forall fuel, pipeline fuel = Some (calls, Cris.CwNone))
    /\ (length calls <= 2)%nat
    /\ ~ In QueryPipeline.GetQueryResults calls.
Proof.
  intros Hno. unfold QueryPipeline.query_cloudwatch_distribution.
  destruct session_ok eqn:Hs; simpl.
  2:{ exists []. split; [reflexivity|]. split; [simpl; lia | intros []]. }
  destruct credentials_ok eqn:Hc; simpl.
  2:{ exists [QueryPipeline.DescribeLogGroups]. split; [reflexivity|].
      split; [simpl; lia|]. simpl. intros [H|[]]. discriminate. }
  destruct started as [query_id|] eqn:Hst.
  2:{ exists [QueryPipeline.DescribeLogGroups; QueryPipeline.StartQuery].
      split; [reflexivity|]. split; [simpl; lia|].
      apply (in_calls_before_fetch 0). }
  destruct (String.eqb_spec query_id "") as [->|Hne].
  - exists [QueryPipeline.DescribeLogGroups; QueryPipeline.StartQuery].
    split; [reflexivity|]. split; [simpl; lia|].
    apply (in_calls_before_fetch 0).
  - exfalso. apply (Hno query_id). unfold QueryPipeline.awaited. auto.
Qed.

Lemma pipeline_awaited (query_id : string) (fuel : nat) (b : bool) (polls : nat) :
  QueryPipeline.awaited session_ok credentials_ok started query_id ->
  QueryStatus.wait_for_query_completion (describe query_id) elapsed query_id 60 fuel
  = Some (b, polls) ->
  pipeline fuel
  = Some (([QueryPipeline.DescribeLogGroups; QueryPipeline.StartQuery]
           ++ repeat QueryPipeline.DescribeQueries polls)
          ++ (if b then [QueryPipeline.GetQueryResults] else []),
          if b then RawResults.get_cloudwatch_results int (fetch query_id)
          else Cris.CwNone).
Proof.
  intros (Hs & Hc & Hst & Hne) Hw.
  unfold QueryPipeline.query_cloudwatch_distribution.
  rewrite Hs, Hc, Hst. simpl negb. cbv iota.
  destruct (String.eqb_spec query_id "") as [E|_]; [contradiction|].
  rewrite Hw. destruct b; [reflexivity|]. now rewrite app_nil_r.
Qed.

End PipelineCalls.

(** X13.  One call of [query_cloudwatch_distribution] of demo_cris.py, when each
    pass through the waiting loop takes the two seconds of its sleep or
    more.  The call returns after at most 33 calls to CloudWatch Logs.  It
    asks for the results of the query exactly when the session, the test of
    the credentials and the start of the query went well and the wait found
    the query complete in time; in that case what it returns is what
    [get_cloudwatch_results] makes of the rows, and in every other case it
    returns [None]. *)
Theorem results_are_fetched_only_when_complete
    (int : string -> option Z) (session_ok credentials_ok : bool)
    (started : option string)
    (describe : string -> nat -> QueryStatus.describe_outcome)
    (elapsed : nat -> Q) (fetch : string -> RawResults.fetch_outcome)
    (elapsed_start : (0 <= elapsed 0%nat)%Q)
    (elapsed_sleep : forall k, (elapsed k + 2 <= elapsed (S k))%Q) :
  exists calls result,
    (forall fuel, (31 <= fuel)%nat ->
       QueryPipeline.query_cloudwatch_distribution int session_ok credentials_ok
         started describe elapsed fetch fuel = Some (calls, result))
    /\ (length calls <= 33)%nat
    /\ (In QueryPipeline.GetQueryResults calls <->
        exists query_id j,
          QueryPipeline.awaited session_ok credentials_ok started query_id
          /\ (elapsed j < 60)%Q
          /\ QueryStatus.check query_id (describe query_id j)
             = QueryStatus.Return true
          /\ forall i, (i < j)%nat ->
               QueryStatus.pending (describe query_id) query_id i)
    /\ (~ In QueryPipeline.GetQueryResults calls -> result = Cris.CwNone)
    /\ (forall query_id,
          In QueryPipeline.GetQueryResults calls -> started = Some query_id ->
          result = RawResults.get_cloudwatch_results int (fetch query_id)).
Proof.
  destruct started as [query_id|] eqn:Hst.
  2:{ destruct (pipeline_not_awaited int session_ok credentials_ok None
                  describe elapsed fetch) as (calls & Hrun & Hlen & Hnot).
      { intros q (_ & _ & H & _). discriminate. }
      exists calls, Cris.CwNone. split; [intros; apply Hrun|].
      split; [lia|]. split; [|split; [reflexivity | intros; discriminate]].
      split; [contradiction|].
      intros (q & j & (_ & _ & H & _) & _). discriminate. }
  destruct (decide (QueryPipeline.awaited session_ok credentials_ok
                      (Some query_id) query_id)) as [Haw|Hnaw].
  2:{ destruct (pipeline_not_awaited int session_ok credentials_ok (Some query_id)
                  describe elapsed fetch) as (calls & Hrun & Hlen & Hnot).
      { intros q Hq. apply Hnaw. destruct Hq as (? & ? & Hq & ?).
        injection Hq as <-. unfold QueryPipeline.awaited. auto. }
      exists calls, Cris.CwNone. split; [intros; apply Hrun|].
      split; [lia|]. split; [|split; [reflexivity | contradiction]].
      split; [contradiction|].
      intros (q & j & Hq & _). exfalso. apply Hnaw.
      destruct Hq as (? & ? & Hq & ?).
      injection Hq as <-. unfold QueryPipeline.awaited. auto. }
  destruct (wait_loop_returns (describe query_id) elapsed query_id elapsed_start
              elapsed_sleep 31 0 ltac:(lia) ltac:(lia)) as (b & polls & Hr & Hp).
  eexists _, _. split; [|split; [|split; [|split]]].
  - intros fuel Hf.
    apply (pipeline_awaited int session_ok credentials_ok (Some query_id)
             describe elapsed fetch query_id fuel b polls Haw).
    unfold QueryStatus.wait_for_query_completion.
    now apply (wait_loop_more_fuel (describe query_id) elapsed query_id 60 31 fuel 0).
  - rewrite !length_app, repeat_length. destruct b; simpl; lia.
  - rewrite in_app_iff. split.
    + intros [H|H]; [now apply in_calls_before_fetch in H|].
      destruct b; [|destruct H].
      apply wait_loop_true in Hr as (j & _ & _ & Hj & Hc & Hbefore).
      exists query_id, j. split; [exact Haw|]. split; [exact Hj|].
      split; [exact Hc|]. intros i Hi. apply Hbefore. lia.
    + intros (q & j & (_ & _ & Hq & _) & Hj & Hc & Hbefore).
      injection Hq as <-. right.
      pose proof (before_timeout elapsed elapsed_start elapsed_sleep j Hj) as Hj30.
      assert (QueryStatus.wait_loop (describe query_id) elapsed query_id 60 31 0
              = Some (true, S j)) as Hr'.
      { apply wait_loop_complete; auto; try lia.
        intros i Hi. split; [|apply Hbefore; lia].
        apply Qle_lt_trans with (elapsed j); [|exact Hj].
        apply elapsed_mono; [exact elapsed_sleep | lia]. }
      rewrite Hr in Hr'. injection Hr' as -> _. left. reflexivity.
  - intros Hnot. destruct b; [|reflexivity].
    exfalso. apply Hnot. rewrite in_app_iff. right. left. reflexivity.
  - intros q Hin [= <-]. rewrite in_app_iff in Hin.
    destruct Hin as [H|H]; [now apply in_calls_before_fetch in H|].
    destruct b; [reflexivity | destruct H].
Qed.

(** ** demo_load_balancing.py: the table of models *)

Section ModelTable.
Import DefaultDict LoadBalancingDemo.

Lemma count_bump `{Countable K} (key key' : K) (n : nat) (d : gmap K nat) :
  count key (bump key' n d)
  = if decide (key' = key) then (count key d + n)%nat else count key d.
Proof.
  unfold bump, count at 1. rewrite lookup_insert.
  destruct (decide (key' = key)) as [->|Hne]; reflexivity.
Qed.

Lemma lookup_bump `{Countable K} (key key' : K) (n : nat) (d : gmap K nat) :
  bump key' n d !! key
  = if decide (key' = key) then Some (count key d + n)%nat else d !! key.
Proof.
  unfold bump. rewrite lookup_insert.
  destruct (decide (key' = key)) as [->|Hne]; reflexivity.
Qed.

Lemma table_total_bump `{Countable K} (key : K) (n : nat) (d : gmap K nat) :
  table_total (bump key n d) = (table_total d + n)%nat.
Proof.
  unfold bump, count, table_total. destruct (d !! key) as [c|] eqn:E; simpl.
  - rewrite <- insert_delete_eq.
    rewrite map_fold_insert_L; [| intros; lia | apply lookup_delete_eq].
    rewrite (map_fold_delete_L _ _ key c d); [lia | intros; lia | exact E].
  - rewrite map_fold_insert_L; [reflexivity | intros; lia | exact E].
Qed.

Lemma filter_length_le {A : Type} (f g : A -> bool) (l : list A) :
  (forall x, In x l -> f x = true -> g x = true) ->
  (length (List.filter f l) <= length (List.filter g l))%nat.
Proof.
  induction l as [|x l IH]; intros Himp; simpl; [lia|].
  assert (length (List.filter f l) <= length (List.filter g l))%nat as Hle
    by (apply IH; intros; apply Himp; [right|]; assumption).
  destruct (f x) eqn:Hf.
  - rewrite (Himp x (or_introl eq_refl) Hf). simpl. lia.
  - destruct (g x); simpl; lia.
Qed.

Lemma answered_by_cons (model : option string) (r : LoadBalancing.ProbeResult)
    (results : list LoadBalancing.ProbeResult) :
  answered_by model (r :: results)
  = ((if LoadBalancing.success r
         && bool_decide (LoadBalancing.model_used r = model)
      then 1 else 0) + answered_by model results)%nat.
Proof.
  unfold answered_by. simpl.
  destruct (LoadBalancing.success r && bool_decide _); reflexivity.
Qed.

Lemma record_fold_fst (arrivals : list LoadBalancing.ProbeResult)
    (state : list LoadBalancing.ProbeResult * gmap (option string) nat) :
  fst (fold_left record arrivals state) = fst state ++ arrivals.
Proof.
  revert state. induction arrivals as [|r arrivals IH]; intros state; simpl.
  - now rewrite app_nil_r.
  - rewrite IH. simpl. now rewrite <- app_assoc.
Qed.

Lemma record_fold_lookup (model : option string)
    (arrivals : list LoadBalancing.ProbeResult)
    (state : list LoadBalancing.ProbeResult * gmap (option string) nat) :
  snd (fold_left record arrivals state) !! model
  = if (answered_by model arrivals =? 0)%nat then snd state !! model
    else Some (count model (snd state) + answered_by model arrivals)%nat.
Proof.
  revert state. induction arrivals as [|r arrivals IH]; intros state.
  - reflexivity.
  - simpl fold_left. rewrite IH, answered_by_cons. unfold record. simpl snd.
    destruct (LoadBalancing.success r) eqn:Hs; simpl andb.
    + rewrite lookup_bump, count_bump.
      destruct (decide (LoadBalancing.model_used r = model)) as [E|Hne].
      * rewrite (bool_decide_eq_true_2 _ E).
        destruct (answered_by model arrivals); simpl; f_equal; lia.
      * rewrite (bool_decide_eq_false_2 _ Hne). reflexivity.
    + reflexivity.
Qed.

Lemma record_fold_total (arrivals : list LoadBalancing.ProbeResult)
    (state : list LoadBalancing.ProbeResult * gmap (option string) nat) :
  table_total (snd (fold_left record arrivals state))
  = (table_total (snd state)
     + length (List.filter (fun r => LoadBalancing.success r) arrivals))%nat.
Proof.
  revert state. induction arrivals as [|r arrivals IH]; intros state; simpl.
  - lia.
  - rewrite IH. unfold record. simpl snd.
    destruct (LoadBalancing.success r); simpl; [rewrite table_total_bump|]; lia.
Qed.

Lemma answered_by_Permutation (model : option string)
    (l l' : list LoadBalancing.ProbeResult) :
  Permutation l l' -> answered_by model l = answered_by model l'.
Proof. apply filter_length_Permutation. Qed.

Lemma model_distribution_lookup (model : option string)
    (arrivals : list LoadBalancing.ProbeResult) :
  model_distribution (demo_load_balancing arrivals) !! model
  = if (answered_by model arrivals =? 0)%nat then None
    else Some (answered_by model arrivals).
Proof.
  unfold demo_load_balancing, collect. simpl.
  rewrite record_fold_lookup. simpl. now rewrite lookup_empty.
Qed.

Lemma model_distribution_Permutation (l l' : list LoadBalancing.ProbeResult) :
  Permutation l l' ->
  model_distribution (demo_load_balancing l)
  = model_distribution (demo_load_balancing l').
Proof.
  intros HP. apply map_eq. intros model.
  rewrite !model_distribution_lookup. now rewrite (answered_by_Permutation _ _ _ HP).
Qed.

Lemma run_counts (arrivals : list LoadBalancing.ProbeResult) :
  successful_requests (demo_load_balancing arrivals)
  = length (List.filter (fun r => LoadBalancing.success r) arrivals)
  /\ failed_requests (demo_load_balancing arrivals)
     = length (List.filter (fun r => negb (LoadBalancing.success r)) arrivals).
Proof.
  unfold demo_load_balancing, collect. simpl. now rewrite record_fold_fst.
Qed.

Lemma run_total (arrivals : list LoadBalancing.ProbeResult) :
  table_total (model_distribution (demo_load_balancing arrivals))
  = successful_requests (demo_load_balancing arrivals).
Proof.
  rewrite (proj1 (run_counts arrivals)).
  unfold demo_load_balancing, collect. simpl. now rewrite record_fold_total.
Qed.

End ModelTable.

Lemma results_are_fetched_only_when_complete_witness :
  exists calls result,
    QueryPipeline.query_cloudwatch_distribution (fun _ => Some 1%Z) true true
      (Some "q-1")
      (fun _ _ => QueryStatus.Described
                    [{| QueryStatus.queryId := Some "q-1";
                        QueryStatus.status := Some "Running" |}])
      (fun k => inject_Z (2 * Z.of_nat k))
      (fun _ => RawResults.FetchRaised) 31
    = Some (calls, result)
    /\ (length calls <= 33)%nat.
Proof.
  destruct (results_are_fetched_only_when_complete (fun _ => Some 1%Z) true true
              (Some "q-1")
              (fun _ _ => QueryStatus.Described
                            [{| QueryStatus.queryId := Some "q-1";
                                QueryStatus.status := Some "Running" |}])
              (fun k => inject_Z (2 * Z.of_nat k))
              (fun _ => RawResults.FetchRaised))
    as (calls & result & Hrun & Hlen & _).
  - discriminate.
  - intros k. change 2%Q with (inject_Z 2). rewrite <- inject_Z_plus.
    rewrite <- Zle_Qle. lia.
  - exists calls, result. split; [apply Hrun; lia | exact Hlen].
Defined.

(** ** demo_cris.py: the table of regions *)

Section RegionReport.

Lemma string_compare_trans (a b c : string) :
  String.compare a b <> Gt -> String.compare b c <> Gt ->
  String.compare a c <> Gt.
Proof.
  revert b c. induction a as [|x a IH]; intros [|y b] [|z c]; simpl;
    try congruence.
  unfold Ascii.compare.
  destruct (N.compare_spec (Ascii.N_of_ascii x) (Ascii.N_of_ascii y));
    destruct (N.compare_spec (Ascii.N_of_ascii y) (Ascii.N_of_ascii z));
    destruct (N.compare_spec (Ascii.N_of_ascii x) (Ascii.N_of_ascii z));
    try congruence; try lia.
  apply IH.
Qed.

Lemma str_le_trans : Transitive CrisReport.str_le.
Proof.
  intros a b c. unfold CrisReport.str_le, String.leb. intros H1 H2.
  pose proof (string_compare_trans a b c) as H.
  destruct (String.compare a b), (String.compare b c), (String.compare a c);
    try discriminate; try reflexivity; exfalso; apply H; congruence.
Qed.

Lemma str_le_total : Total CrisReport.str_le.
Proof. intros a b. apply String.leb_total. Qed.

Lemma sorted_regions_Permutation (region_dist : gmap string Z) :
  Permutation (CrisReport.sorted_regions region_dist)
    (map fst (map_to_list region_dist)).
Proof. apply merge_sort_Permutation. Qed.

Lemma sorted_regions_sorted (region_dist : gmap string Z) :
  StronglySorted CrisReport.str_le (CrisReport.sorted_regions region_dist).
Proof.
  apply (@StronglySorted_merge_sort _ _ _ str_le_trans str_le_total).
Qed.

Lemma sorted_regions_NoDup (region_dist : gmap string Z) :
  List.NoDup (CrisReport.sorted_regions region_dist).
Proof.
  apply (Permutation_NoDup (Permutation_sym (sorted_regions_Permutation _))).
  apply NoDup_ListNoDup. apply (NoDup_fst_map_to_list region_dist).
Qed.

Lemma sorted_regions_In (region_dist : gmap string Z) (region : string) :
  In region (CrisReport.sorted_regions region_dist)
  <-> exists count, region_dist !! region = Some count.
Proof.
  split.
  - intros H. apply (Permutation_in _ (sorted_regions_Permutation _)) in H.
    apply in_map_iff in H as ([r c] & <- & Hin).
    exists c. apply elem_of_map_to_list, list_elem_of_In, Hin.
  - intros [c Hc].
    apply (Permutation_in _ (Permutation_sym (sorted_regions_Permutation _))).
    apply in_map_iff. exists (region, c). split; [reflexivity|].
    apply list_elem_of_In, elem_of_map_to_list, Hc.
Qed.

Lemma Zsum_Permutation (l l' : list Z) :
  Permutation l l' -> fold_right Z.add 0%Z l = fold_right Z.add 0%Z l'.
Proof. induction 1; simpl; lia. Qed.

Lemma table_total_list (region_dist : gmap string Z) :
  RawResults.table_total region_dist
  = fold_right Z.add 0%Z (map snd (map_to_list region_dist)).
Proof.
  unfold RawResults.table_total. rewrite map_fold_foldr.
  induction (map_to_list region_dist) as [|[r c] l IH]; simpl; [reflexivity|].
  rewrite IH. lia.
Qed.

Lemma counts_of_keys (region_dist : gmap string Z) :
  map (fun region => default 0%Z (region_dist !! region))
    (map fst (map_to_list region_dist))
  = map snd (map_to_list region_dist).
Proof.
  rewrite map_map. apply map_ext_in. intros [r c] Hin. simpl.
  apply list_elem_of_In, elem_of_map_to_list in Hin. now rewrite Hin.
Qed.

Lemma display_lines (s : Cris.Snapshot) :
  Cris.region_distribution s <> ∅ ->
  CrisReport.display (Cris.CwData s)
  = CrisReport.Table
      (map (fun region =>
              let count := default 0%Z (Cris.region_distribution s !! region) in
              {| CrisReport.region := region;
                 CrisReport.count := count;
                 CrisReport.percentage :=
                   CrisReport.percentage_of count (Cris.total_invocations s) |})
         (CrisReport.sorted_regions (Cris.region_distribution s))).
Proof.
  intros Hne. unfold CrisReport.display.
  destruct (decide (Cris.region_distribution s = ∅)); [contradiction | reflexivity].
Qed.

End RegionReport.

(** X14.  The table of regions that [analyze_cris_results] prints for a snapshot
    with a region in it.  It has one line for each region of the snapshot
    and no other line; the lines are in the order of [sorted], each region
    strictly before the next; the count of a line is the count of the
    snapshot for its region, so that the counts of the lines add up to the
    sum of the table of the snapshot. *)
Theorem region_table_lines (s : Cris.Snapshot)
    (some_region : Cris.region_distribution s <> ∅) :
  exists lines,
    CrisReport.display (Cris.CwData s) = CrisReport.Table lines
    /\ lines <> []
    /\ StronglySorted (fun a b => CrisReport.str_le a b /\ a <> b)
         (map CrisReport.region lines)
    /\ (forall region count,
          (exists line, In line lines
                        /\ CrisReport.region line = region
                        /\ CrisReport.count line = count)
          <-> Cris.region_distribution s !! region = Some count)
    /\ fold_right Z.add 0%Z (map CrisReport.count lines)
       = RawResults.table_total (Cris.region_distribution s)
    /\ Forall (fun line =>
                 CrisReport.percentage line
                 = CrisReport.percentage_of (CrisReport.count line)
                     (Cris.total_invocations s)) lines.
Proof.
  eexists. split; [apply display_lines, some_region|].
  set (region_dist := Cris.region_distribution s) in *.
  split; [|split; [|split; [|split]]].
  - intros E. apply map_eq_nil in E.
    apply some_region. apply map_empty. intros region.
    destruct (region_dist !! region) as [c|] eqn:Hc; [|reflexivity].
    assert (In region (CrisReport.sorted_regions region_dist)) as Hin
      by (apply sorted_regions_In; eauto).
    rewrite E in Hin. destruct Hin.
  - rewrite map_map. simpl. rewrite map_id.
    pose proof (sorted_regions_sorted region_dist) as Hs.
    pose proof (sorted_regions_NoDup region_dist) as Hnd.
    induction Hs as [|a l Hl IH Hall]; constructor.
    + apply IH. now inversion Hnd.
    + inversion Hnd as [|? ? Hnin _]; subst.
      rewrite List.Forall_forall in *. intros b Hb. split; [now apply Hall|].
      intros ->. contradiction.
  - intros region count. split.
    + intros (line & Hin & <- & <-). apply in_map_iff in Hin as (r & <- & Hr).
      simpl. apply sorted_regions_In in Hr as [c Hc]. now rewrite Hc.
    + intros Hc. eexists. split; [|split].
      * apply in_map_iff. exists region. split; [reflexivity|].
        apply sorted_regions_In. eauto.
      * reflexivity.
      * simpl. now rewrite Hc.
  - rewrite map_map. simpl. rewrite table_total_list, <- counts_of_keys.
    apply Zsum_Permutation, Permutation_map, sorted_regions_Permutation.
  - apply List.Forall_forall. intros line Hin.
    apply in_map_iff in Hin as (r & <- & _). reflexivity.
Qed.

Lemma region_table_lines_witness :
  exists lines,
    CrisReport.display
      (Cris.CwData {| Cris.region_distribution :=
                        <["us-west-2" := 2%Z]> (<["us-east-1" := 3%Z]> ∅);
                      Cris.total_invocations := 5 |})
    = CrisReport.Table lines
    /\ map CrisReport.region lines = ["us-east-1"; "us-west-2"].
Proof.
  destruct (region_table_lines
              {| Cris.region_distribution :=
                   <["us-west-2" := 2%Z]> (<["us-east-1" := 3%Z]> ∅);
                 Cris.total_invocations := 5 |}
              ltac:(apply insert_non_empty)) as (lines & Hd & _).
  exists lines. split; [exact Hd|].
  vm_compute in Hd. injection Hd as <-. reflexivity.
Defined.

(** ** demo_load_balancing.py: one run *)

(** X15.  The table of models of one run of [demo_load_balancing], whatever the
    order in which the threads hand in their results.  A model has an entry
    exactly when some successful result names it, and its count is the
    number of those results; a failed request adds to no entry.  The counts
    of the table add up to the number of successful requests, so the table
    is empty exactly when no request succeeded, and the percentage printed
    beside a model lies between 0 and 100.  Every result is either
    successful or failed. *)
Theorem model_table_counts_successes
    (arrivals : list LoadBalancing.ProbeResult) :
  let run := LoadBalancingDemo.demo_load_balancing arrivals in
  (forall model,
     LoadBalancingDemo.model_distribution run !! model
     = if (LoadBalancingDemo.answered_by model arrivals =? 0)%nat then None
       else Some (LoadBalancingDemo.answered_by model arrivals))
  /\ DefaultDict.table_total (LoadBalancingDemo.model_distribution run)
     = LoadBalancingDemo.successful_requests run
  /\ (LoadBalancingDemo.successful_requests run
      + LoadBalancingDemo.failed_requests run = length arrivals)%nat
  /\ (LoadBalancingDemo.successful_requests run = 0%nat
      <-> LoadBalancingDemo.model_distribution run = ∅)
  /\ (forall model n,
        LoadBalancingDemo.model_distribution run !! model = Some n ->
        (1 <= n <= LoadBalancingDemo.successful_requests run)%nat
        /\ (0 <= LoadBalancingDemo.percentage n
                   (LoadBalancingDemo.successful_requests run)
            /\ LoadBalancingDemo.percentage n
                 (LoadBalancingDemo.successful_requests run) <= 100)%Q).
Proof.
  intros run. subst run.
  split; [intros model; apply model_distribution_lookup|].
  split; [apply run_total|]. split; [|split].
  3:{ intros model n Hl. rewrite model_distribution_lookup in Hl.
      destruct (LoadBalancingDemo.answered_by model arrivals) as [|k] eqn:Ek;
        [discriminate|]. simpl in Hl. injection Hl as <-.
      assert (S k <= LoadBalancingDemo.successful_requests
                       (LoadBalancingDemo.demo_load_balancing arrivals))%nat
        as Hle.
      { rewrite <- Ek, (proj1 (run_counts arrivals)).
        apply filter_length_le. intros r _ Hr.
        now apply andb_true_iff in Hr as [Hr _]. }
      split; [lia|]. unfold LoadBalancingDemo.percentage.
      destruct (0 <? _)%nat eqn:Hpos; [|apply Nat.ltb_ge in Hpos; lia].
      apply Nat.ltb_lt in Hpos.
      destruct (percentage_bounds (S k) _ Hpos Hle) as (Hlo & Hhi & _).
      split; assumption. }
  - destruct (run_counts arrivals) as [-> ->]. apply filter_partition_length.
  - rewrite <- run_total. unfold DefaultDict.table_total. split.
    + intros Hz.
      destruct (decide (LoadBalancingDemo.model_distribution
                          (LoadBalancingDemo.demo_load_balancing arrivals) = ∅))
        as [E|Hne]; [exact E|]. exfalso.
      apply map_choose in Hne as (model & n & Hl).
      pose proof (model_distribution_lookup model arrivals) as Hm.
      rewrite Hl in Hm.
      destruct (LoadBalancingDemo.answered_by model arrivals) as [|k] eqn:Ek;
        [discriminate|]. simpl in Hm. injection Hm as ->.
      rewrite (map_fold_delete_L _ _ model (S k)) in Hz;
        [lia | intros; lia | exact Hl].
    + intros ->. apply map_fold_empty.
Qed.

Section ArrivalOrder.
Variable completion : nat -> LoadBalancing.completion_outcome.

Lemma arrived_Permutation (arrivals : list LoadBalancing.ProbeResult) :
  LoadBalancingDemo.arrived completion arrivals ->
  Permutation arrivals (map (LoadBalancingDemo.worker completion) (seq 0 10))
  /\ length arrivals = 10%nat.
Proof.
  intros (s & Hb & <-).
  apply (barrier_results (LoadBalancingDemo.worker completion) 10 10 s);
    [lia | exact Hb].
Qed.

End ArrivalOrder.

(** X16.  The ten threads of [demo_load_balancing] hand in their results in an
    order that the scheduler decides.  Whatever that order, the results are
    those of the requests 1 to 10, one for each, and the numbers of
    successful and failed requests and the table of models of the summary
    are those of the run in which the results arrive in the order of the
    requests. *)
Theorem run_summary_ignores_arrival_order
    (completion : nat -> LoadBalancing.completion_outcome)
    (arrivals : list LoadBalancing.ProbeResult)
    (Harrived : LoadBalancingDemo.arrived completion arrivals) :
  let run := LoadBalancingDemo.demo_load_balancing arrivals in
  let in_order :=
    LoadBalancingDemo.demo_load_balancing
      (map (fun id => LoadBalancing.send_request id (completion id)) (seq 1 10)) in
  Permutation (map LoadBalancing.request_id arrivals) (seq 1 10)
  /\ (forall r, In r arrivals ->
        r = LoadBalancing.send_request (LoadBalancing.request_id r)
              (completion (LoadBalancing.request_id r)))
  /\ (LoadBalancingDemo.successful_requests run
      + LoadBalancingDemo.failed_requests run = 10)%nat
  /\ LoadBalancingDemo.successful_requests run
     = LoadBalancingDemo.successful_requests in_order
  /\ LoadBalancingDemo.failed_requests run
     = LoadBalancingDemo.failed_requests in_order
  /\ LoadBalancingDemo.model_distribution run
     = LoadBalancingDemo.model_distribution in_order.
Proof.
  intros run in_order. subst run in_order.
  destruct (arrived_Permutation completion arrivals Harrived) as [HP Hlen].
  assert (map (LoadBalancingDemo.worker completion) (seq 0 10)
          = map (fun id => LoadBalancing.send_request id (completion id))
              (seq 1 10)) as Hw.
  { rewrite <- (seq_shift 10 0), map_map. reflexivity. }
  rewrite Hw in HP.
  assert (forall id, LoadBalancing.request_id
                       (LoadBalancing.send_request id (completion id)) = id)
    as Hid by (intros id; destruct (completion id); reflexivity).
  split; [|split; [|split; [|split; [|split]]]].
  - apply (Permutation_map LoadBalancing.request_id) in HP.
    rewrite map_map in HP. erewrite (map_ext _ id) in HP by exact Hid.
    now rewrite map_id in HP.
  - intros r Hr. apply (Permutation_in _ HP) in Hr.
    apply in_map_iff in Hr as (i & <- & _). now rewrite Hid.
  - destruct (run_counts arrivals) as [-> ->].
    rewrite filter_partition_length. exact Hlen.
  - rewrite !(proj1 (run_counts _)). now apply filter_length_Permutation.
  - rewrite !(proj2 (run_counts _)). now apply filter_length_Permutation.
  - now apply model_distribution_Permutation.
Qed.

Lemma run_summary_ignores_arrival_order_witness :
  LoadBalancingDemo.successful_requests
    (LoadBalancingDemo.demo_load_balancing
       (map (LoadBalancingDemo.worker
               (fun id => if Nat.even id
                          then LoadBalancing.Completed 1 "sonnet-4"
                          else LoadBalancing.Raised "rate limit"))
          (rev (seq 0 10))))
  = 5%nat.
Proof.
  assert (LoadBalancingDemo.arrived
            (fun id => if Nat.even id
                       then LoadBalancing.Completed 1 "sonnet-4"
                       else LoadBalancing.Raised "rate limit")
            (map (LoadBalancingDemo.worker
                    (fun id => if Nat.even id
                               then LoadBalancing.Completed 1 "sonnet-4"
                               else LoadBalancing.Raised "rate limit"))
               (rev (seq 0 10)))) as Harrived.
  { eexists {| Executor.queued := []; Executor.running := [];
               Executor.results := _ |}.
    split; [|reflexivity].
    apply (any_order_is_collected _ 10 10 (rev (seq 0 10)));
      [lia | lia | apply Permutation_sym, Permutation_rev]. }
  rewrite (proj1 (proj2 (proj2 (proj2
             (run_summary_ignores_arrival_order _ _ Harrived))))).
  reflexivity.
Defined.

(** ** demo_load_balancing.py: the loop mode *)

Section LoopMode.
Import DefaultDict LoadBalancingDemo.

Local Abbreviation add_items :=
  (fold_left (fun cumulative (item : option string * nat) =>
                bump (fst item) (snd item) cumulative)).

Lemma add_items_count (model : option string) (items : list (option string * nat))
    (d : gmap (option string) nat) :
  count model (add_items items d)
  = (count model d
     + list_sum (map snd (List.filter
                            (fun item => bool_decide (fst item = model)) items)))%nat.
Proof.
  revert d. induction items as [|[k c] items IH]; intros d; simpl.
  - lia.
  - rewrite IH, count_bump.
    destruct (decide (k = model)) as [E|Hne].
    + rewrite (bool_decide_eq_true_2 _ E). simpl. lia.
    + rewrite (bool_decide_eq_false_2 _ Hne). reflexivity.
Qed.

Lemma add_items_total (items : list (option string * nat))
    (d : gmap (option string) nat) :
  table_total (add_items items d)
  = (table_total d + list_sum (map snd items))%nat.
Proof.
  revert d. induction items as [|[k c] items IH]; intros d; simpl.
  - lia.
  - rewrite IH, table_total_bump. lia.
Qed.

Lemma filter_key_absent (model : option string) (items : list (option string * nat)) :
  ~ In model (map fst items) ->
  List.filter (fun item => bool_decide (fst item = model)) items = [].
Proof.
  induction items as [|[k c] items IH]; simpl; [reflexivity|]. intros Hnin.
  rewrite bool_decide_eq_false_2 by tauto. apply IH. tauto.
Qed.

Lemma items_of_key (model : option string) (items : list (option string * nat)) :
  List.NoDup (map fst items) ->
  list_sum (map snd (List.filter
                       (fun item => bool_decide (fst item = model)) items))
  = default 0%nat (snd <$> List.find
                     (fun item => bool_decide (fst item = model)) items).
Proof.
  induction items as [|[k c] items IH]; simpl; [reflexivity|]. intros Hnd.
  inversion Hnd as [|? ? Hnin Hnd']; subst.
  destruct (decide (k = model)) as [E|Hne].
  - rewrite (bool_decide_eq_true_2 _ E). simpl. subst k.
    rewrite filter_key_absent by exact Hnin. simpl. lia.
  - rewrite (bool_decide_eq_false_2 _ Hne). now apply IH.
Qed.

Lemma map_items_of_key (model : option string) (d : gmap (option string) nat) :
  list_sum (map snd (List.filter
                       (fun item => bool_decide (fst item = model))
                       (map_to_list d)))
  = count model d.
Proof.
  rewrite items_of_key
    by (apply NoDup_ListNoDup; apply (NoDup_fst_map_to_list d)).
  unfold count.
  destruct (List.find _ (map_to_list d)) as [[k c]|] eqn:Hf; simpl.
  - apply find_some in Hf as [Hin Hk]. simpl in Hk.
    apply bool_decide_eq_true_1 in Hk. subst k.
    apply list_elem_of_In, elem_of_map_to_list in Hin. now rewrite Hin.
  - destruct (d !! model) as [c|] eqn:Hl; [|reflexivity]. exfalso.
    apply elem_of_map_to_list, list_elem_of_In in Hl.
    apply (find_none _ _ Hf) in Hl. simpl in Hl.
    now rewrite bool_decide_eq_true_2 in Hl.
Qed.

Lemma map_items_total (d : gmap (option string) nat) :
  list_sum (map snd (map_to_list d)) = table_total d.
Proof.
  unfold table_total. rewrite map_fold_foldr.
  induction (map_to_list d) as [|[k c] l IH]; simpl; [reflexivity|].
  rewrite <- IH. lia.
Qed.

Lemma add_run_spec (stats : total_stats) (results : run_summary) :
  let stats' := add_run stats results in
  total_runs stats' = S (total_runs stats)
  /\ total_successful stats'
     = (total_successful stats + successful_requests results)%nat
  /\ total_failed stats' = (total_failed stats + failed_requests results)%nat
  /\ (forall model,
        count model (cumulative_model_distribution stats')
        = (count model (cumulative_model_distribution stats)
           + count model (model_distribution results))%nat)
  /\ table_total (cumulative_model_distribution stats')
     = (table_total (cumulative_model_distribution stats)
        + table_total (model_distribution results))%nat.
Proof.
  simpl. split; [lia|]. split; [reflexivity|]. split; [reflexivity|]. split.
  - intros model. now rewrite add_items_count, map_items_of_key.
  - now rewrite add_items_total, map_items_total.
Qed.

Lemma run_loop_spec (runs : list run_summary) (stats : total_stats) :
  let final := fold_left add_run runs stats in
  total_runs final = (total_runs stats + length runs)%nat
  /\ total_successful final
     = (total_successful stats + list_sum (map successful_requests runs))%nat
  /\ total_failed final
     = (total_failed stats + list_sum (map failed_requests runs))%nat
  /\ (forall model,
        count model (cumulative_model_distribution final)
        = (count model (cumulative_model_distribution stats)
           + list_sum (map (fun run => count model (model_distribution run))
                         runs))%nat)
  /\ table_total (cumulative_model_distribution final)
     = (table_total (cumulative_model_distribution stats)
        + list_sum (map (fun run => table_total (model_distribution run))
                      runs))%nat.
Proof.
  revert stats. induction runs as [|run runs IH]; intros stats.
  - simpl. repeat split; intros; lia.
  - cbv zeta in *. simpl fold_left.
    destruct (IH (add_run stats run)) as (H1 & H2 & H3 & H4 & H5).
    destruct (add_run_spec stats run) as (A1 & A2 & A3 & A4 & A5).
    cbv zeta in *. rewrite H1, H2, H3, H5, A1, A2, A3, A5.
    simpl. repeat split; try lia.
    intros model. rewrite H4, A4. lia.
Qed.

Lemma wait_for_next_run_spec (shutdown_requested : nat -> bool)
    (interval_seconds k : nat) :
  let slept := wait_for_next_run shutdown_requested interval_seconds k in
  (slept <= interval_seconds)%nat
  /\ (forall i, (i < slept)%nat -> shutdown_requested (k + i)%nat = false)
  /\ ((slept < interval_seconds)%nat ->
      shutdown_requested (k + slept)%nat = true).
Proof.
  revert k. induction interval_seconds as [|n IH]; intros k; simpl.
  - repeat split; intros; lia.
  - destruct (shutdown_requested k) eqn:Hk.
    + repeat split; intros; try lia. now rewrite Nat.add_0_r.
    + destruct (IH (S k)) as (H1 & H2 & H3). cbv zeta in *.
      split; [lia|]. split.
      * intros [|i] Hi; [now rewrite Nat.add_0_r|].
        replace (k + S i)%nat with (S k + i)%nat by lia. apply H2. lia.
      * intros Hlt.
        replace (k + S _)%nat
          with (S k + wait_for_next_run shutdown_requested n (S k))%nat by lia.
        apply H3. lia.
Qed.

End LoopMode.

(** X17.  The statistics that the loop mode of demo_load_balancing.py keeps over
    its runs of ten requests each.  The number of runs is the number of
    runs made and the requests counted are ten for each run; the count of a
    model in the cumulative table is the sum of its counts in the runs, and
    the counts of the cumulative table add up to the number of successful
    requests.  The success rate of the final statistics is "N/A" exactly
    when no run was made, and a percentage between 0 and 100 otherwise. *)
Theorem cumulative_statistics
    (arrivals_of_runs : list (list LoadBalancing.ProbeResult))
    (ten_each : Forall (fun arrivals => length arrivals = 10%nat) arrivals_of_runs) :
  let runs := map LoadBalancingDemo.demo_load_balancing arrivals_of_runs in
  let stats := LoadBalancingDemo.run_loop_mode runs in
  LoadBalancingDemo.total_runs stats = length arrivals_of_runs
  /\ (LoadBalancingDemo.total_successful stats
      + LoadBalancingDemo.total_failed stats
      = 10 * LoadBalancingDemo.total_runs stats)%nat
  /\ (forall model,
        DefaultDict.count model
          (LoadBalancingDemo.cumulative_model_distribution stats)
        = list_sum (map (LoadBalancingDemo.answered_by model) arrivals_of_runs))
  /\ DefaultDict.table_total
       (LoadBalancingDemo.cumulative_model_distribution stats)
     = LoadBalancingDemo.total_successful stats
  /\ (LoadBalancingDemo.final_success_rate stats = None
      <-> arrivals_of_runs = [])
  /\ (forall rate, LoadBalancingDemo.final_success_rate stats = Some rate ->
        (0 <= rate /\ rate <= 100)%Q).
Proof.
  intros runs stats.
  destruct (run_loop_spec runs LoadBalancingDemo.initial_stats)
    as (H1 & H2 & H3 & H4 & H5).
  cbv zeta in *.
  change (fold_left LoadBalancingDemo.add_run runs LoadBalancingDemo.initial_stats)
    with stats in H1, H2, H3, H4, H5.
  simpl in H1, H2, H3, H5.
  change (DefaultDict.table_total ∅) with 0%nat in H5.
  assert (list_sum (map LoadBalancingDemo.successful_requests runs)
          + list_sum (map LoadBalancingDemo.failed_requests runs)
          = 10 * length arrivals_of_runs)%nat as Hten.
  { subst runs. clear -ten_each.
    induction ten_each as [|arrivals l Hlen _ IH]; [reflexivity|].
    cbn [map list_sum fold_right length].
    destruct (run_counts arrivals) as [-> ->].
    pose proof (filter_partition_length
                  (fun r => LoadBalancing.success r) arrivals) as Hparts.
    unfold list_sum in IH. cbn beta in Hparts. lia. }
  assert (length runs = length arrivals_of_runs) as Hlen
    by (subst runs; apply length_map).
  split; [lia|]. split; [lia|]. split; [|split; [|split]].
  - intros model. rewrite H4. subst runs. rewrite map_map.
    change (DefaultDict.count model
              (LoadBalancingDemo.cumulative_model_distribution
                 LoadBalancingDemo.initial_stats)) with 0%nat.
    rewrite Nat.add_0_l. f_equal. apply map_ext. intros arrivals.
    unfold DefaultDict.count. rewrite model_distribution_lookup.
    destruct (LoadBalancingDemo.answered_by model arrivals); reflexivity.
  - rewrite H5, H2. subst runs. rewrite !map_map, Nat.add_0_l. f_equal.
    apply map_ext. intros arrivals. apply run_total.
  - unfold LoadBalancingDemo.final_success_rate.
    destruct (0 <? _)%nat eqn:Hpos.
    + apply Nat.ltb_lt in Hpos. split; [discriminate|].
      intros ->. simpl in *. lia.
    + apply Nat.ltb_ge in Hpos. split; [|reflexivity]. intros _.
      destruct arrivals_of_runs; [reflexivity | simpl in *; lia].
  - intros rate. unfold LoadBalancingDemo.final_success_rate.
    destruct (0 <? _)%nat eqn:Hpos; [|discriminate].
    apply Nat.ltb_lt in Hpos. intros [= <-].
    destruct (percentage_bounds (LoadBalancingDemo.total_successful stats)
                (LoadBalancingDemo.total_successful stats
                 + LoadBalancingDemo.total_failed stats) Hpos ltac:(lia))
      as (Hlo & Hhi & _).
    split; assumption.
Qed.

Lemma cumulative_statistics_witness :
  LoadBalancingDemo.total_runs
    (LoadBalancingDemo.run_loop_mode
       (map LoadBalancingDemo.demo_load_balancing
          [map (fun id => LoadBalancing.send_request id
                            (LoadBalancing.Completed 1 "sonnet-4")) (seq 1 10)]))
  = 1%nat.
Proof.
  apply (proj1 (cumulative_statistics
                  [map (fun id => LoadBalancing.send_request id
                                    (LoadBalancing.Completed 1 "sonnet-4"))
                     (seq 1 10)]
                  ltac:(repeat constructor))).
Defined.

(** X18.  The wait between two runs of the loop mode sleeps one second at a time
    and looks at the shutdown flag before each sleep.  It never sleeps more
    than the interval; it sleeps less exactly when a look finds the
    shutdown requested, and then it has slept once for each earlier look,
    none of which found it requested. *)
Theorem wait_stops_at_shutdown (shutdown_requested : nat -> bool)
    (interval_seconds : nat) :
  let slept :=
    LoadBalancingDemo.wait_for_next_run shutdown_requested interval_seconds 0 in
  (slept <= interval_seconds)%nat
  /\ (forall i, (i < slept)%nat -> shutdown_requested i = false)
  /\ ((slept < interval_seconds)%nat <->
      exists i, (i < interval_seconds)%nat /\ shutdown_requested i = true)
  /\ ((slept < interval_seconds)%nat -> shutdown_requested slept = true).
Proof.
  destruct (wait_for_next_run_spec shutdown_requested interval_seconds 0)
    as (H1 & H2 & H3).
  cbv zeta in *. simpl in H2, H3.
  split; [exact H1|]. split; [exact H2|]. split; [|exact H3].
  split.
  - intros Hlt. eexists. split; [exact Hlt | now apply H3].
  - intros (i & Hi & Hflag).
    destruct (Nat.lt_ge_cases
                (LoadBalancingDemo.wait_for_next_run shutdown_requested
                   interval_seconds 0) interval_seconds) as [Hlt|Hge];
      [exact Hlt|].
    rewrite H2 in Hflag by lia. discriminate.
Qed.

(** ** demo_fallback.py: the figures of the run *)

Section FallbackRun.
Import Fallback.

Lemma run_snoc (arrivals : list (nat * completion_outcome))
    (arrival : nat * completion_outcome) :
  run (arrivals ++ [arrival]) = worker (run arrivals) arrival.
Proof. unfold run. now rewrite fold_left_app. Qed.

Lemma filter_snoc {A : Type} (f : A -> bool) (l : list A) (x : A) :
  List.filter f (l ++ [x]) = List.filter f l ++ (if f x then [x] else []).
Proof. rewrite List.filter_app. reflexivity. Qed.

Lemma lower_char_idempotent (c : Ascii.ascii) :
  lower_char (lower_char c) = lower_char c.
Proof. destruct c as [[] [] [] [] [] [] [] []]; reflexivity. Qed.

Lemma lower_idempotent (s : string) : lower (lower s) = lower s.
Proof.
  induction s as [|c s IH]; simpl; [reflexivity|].
  now rewrite lower_char_idempotent, IH.
Qed.

Lemma run_results_length (arrivals : list (nat * completion_outcome)) :
  length (results (run arrivals)) = length arrivals.
Proof.
  induction arrivals as [|[req_id outcome] arrivals IH] using rev_ind;
    [reflexivity|].
  rewrite run_snoc, length_app.
  destruct outcome; simpl; rewrite length_app, IH; reflexivity.
Qed.

Lemma run_successful (arrivals : list (nat * completion_outcome)) :
  length (List.filter (fun r => success r) (results (run arrivals)))
  = (length (List.filter (answered true) arrivals)
     + length (List.filter (answered false) arrivals))%nat.
Proof.
  induction arrivals as [|[req_id outcome] arrivals IH] using rev_ind;
    [reflexivity|].
  rewrite run_snoc, !filter_snoc, !length_app.
  destruct outcome as [elapsed model_used|msg|msg|msg]; simpl;
    rewrite filter_snoc, length_app, IH; simpl;
    [unfold answered; simpl; destruct (names_fallback model_used); simpl|..];
    lia.
Qed.

Lemma run_fallback_events (arrivals : list (nat * completion_outcome)) :
  map event_request_id (fallback_events (run arrivals))
  = map fst (List.filter (answered true) arrivals)
  /\ Forall (fun e => names_fallback (event_model e) = true)
       (fallback_events (run arrivals)).
Proof.
  induction arrivals as [|[req_id outcome] arrivals [IH1 IH2]] using rev_ind;
    [split; constructor|].
  rewrite run_snoc, filter_snoc, map_app.
  destruct outcome as [elapsed model_used|msg|msg|msg]; simpl;
    rewrite ?app_nil_r; try (split; assumption).
  unfold answered at 2. simpl.
  destruct (names_fallback model_used) eqn:Hf; simpl;
    rewrite ?app_nil_r; try (split; assumption).
  rewrite map_app, IH1. split; [reflexivity|].
  apply List.Forall_app. split; [exact IH2|]. now repeat constructor.
Qed.

Lemma run_model_usage (arrivals : list (nat * completion_outcome)) :
  DefaultDict.table_total (model_usage (run arrivals))
  = length (List.filter (fun r => success r) (results (run arrivals))).
Proof.
  induction arrivals as [|[req_id outcome] arrivals IH] using rev_ind;
    [reflexivity|].
  rewrite run_snoc.
  destruct outcome as [elapsed model_used|msg|msg|msg]; simpl;
    rewrite filter_snoc, length_app, ?table_total_bump, IH; simpl; lia.
Qed.

End FallbackRun.

(** X19.  The figures that demo_fallback.py prints after its ten threads are
    joined, whatever the order in which they took the lock.  Every request
    is counted once, as successful or as failed.  The fallback events are
    the answers whose model name, in lower case, holds "sonnet-3-5" or
    "3-5-sonnet", in the order of their arrival; the test does not look at
    the case of the letters.  "Primary Model Used" is the number of the
    other answers, so it is never negative, and the counts of the table of
    models add up to the number of successful requests. *)
Theorem fallback_figures_add_up
    (arrivals : list (nat * Fallback.completion_outcome)) :
  let st := Fallback.run arrivals in
  let s := Fallback.trigger_rate_limit_scenario arrivals in
  Fallback.total_requests s = length arrivals
  /\ (Fallback.successful_requests s + Fallback.failed_requests s
      = Fallback.total_requests s)%nat
  /\ Fallback.fallback_count s
     = length (List.filter (Fallback.answered true) arrivals)
  /\ Fallback.primary_count s
     = Z.of_nat (length (List.filter (Fallback.answered false) arrivals))
  /\ map Fallback.event_request_id (Fallback.fallback_events st)
     = map fst (List.filter (Fallback.answered true) arrivals)
  /\ Forall (fun e => Fallback.names_fallback (Fallback.event_model e) = true)
       (Fallback.fallback_events st)
  /\ DefaultDict.table_total (Fallback.model_usage st)
     = Fallback.successful_requests s
  /\ (forall model_used,
        Fallback.names_fallback (Fallback.lower model_used)
        = Fallback.names_fallback model_used).
Proof.
  intros st s. subst st s.
  pose proof (run_results_length arrivals) as H1.
  pose proof (run_successful arrivals) as H2.
  destruct (run_fallback_events arrivals) as [H3 H4].
  pose proof (run_model_usage arrivals) as H5.
  unfold Fallback.trigger_rate_limit_scenario. cbn [Fallback.total_requests
    Fallback.successful_requests Fallback.failed_requests
    Fallback.fallback_count Fallback.primary_count].
  assert (length (Fallback.fallback_events (Fallback.run arrivals))
          = length (List.filter (Fallback.answered true) arrivals)) as Hev.
  { rewrite <- (length_map Fallback.event_request_id), H3. apply length_map. }
  split; [exact H1|]. split; [apply filter_partition_length|].
  split; [exact Hev|]. split; [rewrite H2, Hev; lia|].
  split; [exact H3|]. split; [exact H4|]. split; [exact H5|].
  intros model_used. unfold Fallback.names_fallback.
  now rewrite lower_idempotent.
Qed.

(** ** demo_quota_isolation.py: the statistics of a consumer *)

Section ConsumerStats.
Import QuotaIsolation.
Local Open Scope Q_scope.

Lemma workload_Permutation (consumer_id : string)
    (completion : nat -> completion_outcome) (num_requests : nat)
    (results : list Result) :
  (0 < num_requests)%nat ->
  run_consumer_workload consumer_id completion num_requests results ->
  Permutation results
    (map (fun request_id =>
            send_consumer_request consumer_id request_id (completion request_id))
       (seq 1 num_requests))
  /\ length results = num_requests.
Proof.
  intros Hn (s & Hb & <-).
  destruct (barrier_results (worker consumer_id completion) num_requests
              num_requests s Hn Hb) as [HP Hlen].
  split; [|exact Hlen].
  rewrite <- (seq_shift num_requests 0), map_map. exact HP.
Qed.

Lemma success_of_outcome (consumer_id : string) (request_id : nat)
    (outcome : completion_outcome) :
  success (send_consumer_request consumer_id request_id outcome)
  = match outcome with Completed _ _ => true | _ => false end.
Proof. destruct outcome; reflexivity. Qed.

Lemma rate_limited_fails (consumer_id : string) (request_id : nat)
    (outcome : completion_outcome) :
  is_rate_limited (send_consumer_request consumer_id request_id outcome) = true ->
  success (send_consumer_request consumer_id request_id outcome) = false.
Proof. destruct outcome; simpl; [discriminate | reflexivity | reflexivity]. Qed.

Lemma success_rate_spec (type : string) (results : list Result) :
  results <> [] ->
  success_rate (stats_of type results)
  = PyNum.of_int (successful (stats_of type results))
    / PyNum.of_int (length results) * 100.
Proof. destruct results; [contradiction | reflexivity]. Qed.

Lemma consumer_stats_lookup (results_a results_b results_c : list Result) :
  let a := demo_quota_isolation results_a results_b results_c in
  consumer_stats a !! "A"%string = Some (stats_of "NOISY" results_a)
  /\ consumer_stats a !! "B"%string = Some (stats_of "NORMAL" results_b)
  /\ consumer_stats a !! "C"%string = Some (stats_of "NORMAL" results_c).
Proof. repeat split. Qed.

Lemma verdict_fields (results_a results_b results_c : list Result) :
  isolation_effective (demo_quota_isolation results_a results_b results_c)
  = Qge_bool (success_rate (stats_of "NORMAL" results_b)) 80
    && Qge_bool (success_rate (stats_of "NORMAL" results_c)) 80
  /\ noisy_rate_limited (demo_quota_isolation results_a results_b results_c)
     = (0 <? rate_limited (stats_of "NOISY" results_a))%nat.
Proof. split; reflexivity. Qed.

Lemma rate_of_five (s : nat) :
  (s <= 5)%nat ->
  Qge_bool (PyNum.of_int s / PyNum.of_int 5 * 100) 80 = (4 <=? s)%nat.
Proof.
  intros Hs.
  destruct s as [|[|[|[|[|[|s]]]]]]; try lia; reflexivity.
Qed.

End ConsumerStats.

(** X20.  The statistics that [analyze_and_display_results] keeps for a consumer
    whose results come from [send_consumer_request].  Successful and failed
    requests add up to the total.  The rate-limited requests are among the
    failed ones; they are the requests that met [RateLimitError] and also
    those that met another exception whose text is "RateLimitError".  The
    success rate is a percentage, and the line of the consumer is printed
    without colour exactly when there is a result and none has failed. *)
Theorem consumer_statistics_add_up (consumer_id type : string)
    (outcomes : list (nat * QuotaIsolation.completion_outcome)) :
  let results :=
    map (fun o => QuotaIsolation.send_consumer_request consumer_id (fst o) (snd o))
      outcomes in
  let s := QuotaIsolation.stats_of type results in
  (QuotaIsolation.successful s + QuotaIsolation.failed s
   = QuotaIsolation.total s)%nat
  /\ QuotaIsolation.total s = length outcomes
  /\ (QuotaIsolation.rate_limited s <= QuotaIsolation.failed s)%nat
  /\ QuotaIsolation.rate_limited s
     = length (List.filter
                 (fun o => match snd o with
                           | QuotaIsolation.Completed _ _ => false
                           | QuotaIsolation.RateLimitError => true
                           | QuotaIsolation.Raised error_msg =>
                               String.eqb error_msg "RateLimitError"
                           end) outcomes)
  /\ (0 <= QuotaIsolation.success_rate s /\ QuotaIsolation.success_rate s <= 100)%Q
  /\ (QuotaIsolation.printed_plain s = true
      <-> outcomes <> [] /\ QuotaIsolation.failed s = 0%nat).
Proof.
  intros results s.
  assert (QuotaIsolation.successful s + QuotaIsolation.failed s
          = QuotaIsolation.total s)%nat as Hsum
    by apply filter_partition_length.
  assert (QuotaIsolation.total s = length outcomes) as Htotal
    by apply length_map.
  split; [exact Hsum|]. split; [exact Htotal|].
  split; [|split; [|split]].
  - apply filter_length_le. intros r Hin Hr.
    apply in_map_iff in Hin as (o & <- & _).
    apply rate_limited_fails in Hr. now rewrite Hr.
  - subst s results. simpl. rewrite filter_map_length. f_equal.
    apply List.filter_ext. intros [request_id outcome].
    destruct outcome; reflexivity.
  - destruct outcomes as [|o outcomes'] eqn:Ho.
    + simpl. split; [apply Qle_refl | discriminate].
    + assert (results <> []) as Hne by (subst results; discriminate).
      subst s. rewrite (success_rate_spec type results Hne).
      fold (QuotaIsolation.total (QuotaIsolation.stats_of type results)).
      destruct (percentage_bounds
                  (QuotaIsolation.successful (QuotaIsolation.stats_of type results))
                  (QuotaIsolation.total (QuotaIsolation.stats_of type results)))
        as (Hlo & Hhi & _); [simpl in *; lia | lia |].
      split; assumption.
  - unfold QuotaIsolation.printed_plain.
    destruct outcomes as [|o outcomes'] eqn:Ho.
    + simpl. split; [discriminate | intros [Hne _]; contradiction].
    + assert (results <> []) as Hne by (subst results; discriminate).
      subst s. rewrite (success_rate_spec type results Hne).
      fold (QuotaIsolation.total (QuotaIsolation.stats_of type results)).
      destruct (percentage_bounds
                  (QuotaIsolation.successful (QuotaIsolation.stats_of type results))
                  (QuotaIsolation.total (QuotaIsolation.stats_of type results)))
        as (_ & _ & Hfull); [simpl in *; lia | lia |].
      destruct (Qeq_dec _ 100) as [E|Hneq].
      * split; [|reflexivity]. intros _. split; [discriminate|].
        apply Hfull in E. lia.
      * split; [discriminate|]. intros [_ Hz]. exfalso. apply Hneq.
        apply Hfull. lia.
Qed.

(** X21.  The verdict of demo_quota_isolation.py after its three workloads of
    five requests each.  Every consumer has five results.  The isolation is
    reported as effective exactly when at least four of the five requests
    of consumer B and at least four of those of consumer C were answered,
    whatever happened to the requests of consumer A; and consumer A is
    reported as rate limited exactly when one of its results carries the
    error "RateLimitError". *)
Theorem isolation_verdict
    (completion_a completion_b completion_c
       : nat -> QuotaIsolation.completion_outcome)
    (results_a results_b results_c : list QuotaIsolation.Result)
    (workload_a :
       QuotaIsolation.run_consumer_workload "A" completion_a 5 results_a)
    (workload_b :
       QuotaIsolation.run_consumer_workload "B" completion_b 5 results_b)
    (workload_c :
       QuotaIsolation.run_consumer_workload "C" completion_c 5 results_c) :
  let verdict :=
    QuotaIsolation.demo_quota_isolation results_a results_b results_c in
  let answered completion :=
    length (List.filter
              (fun request_id =>
                 match completion request_id with
                 | QuotaIsolation.Completed _ _ => true
                 | _ => false
                 end) (seq 1 5)) in
  (forall consumer_id s,
     QuotaIsolation.consumer_stats verdict !! consumer_id = Some s ->
     QuotaIsolation.total s = 5%nat)
  /\ (QuotaIsolation.isolation_effective verdict = true
      <-> (4 <= answered completion_b)%nat /\ (4 <= answered completion_c)%nat)
  /\ (QuotaIsolation.noisy_rate_limited verdict = true
      <-> exists r, In r results_a
                    /\ QuotaIsolation.error r = Some "RateLimitError"%string).
Proof.
  intros verdict answered.
  destruct (consumer_stats_lookup results_a results_b results_c)
    as (Ha & Hb & Hc). cbv zeta in Ha, Hb, Hc. fold verdict in Ha, Hb, Hc.
  destruct (workload_Permutation "A" completion_a 5 results_a ltac:(lia)
              workload_a) as [Pa La].
  destruct (workload_Permutation "B" completion_b 5 results_b ltac:(lia)
              workload_b) as [Pb Lb].
  destruct (workload_Permutation "C" completion_c 5 results_c ltac:(lia)
              workload_c) as [Pc Lc].
  assert (forall consumer_id completion results,
            Permutation results
              (map (fun request_id =>
                      QuotaIsolation.send_consumer_request consumer_id
                        request_id (completion request_id)) (seq 1 5)) ->
            length (List.filter (fun r => QuotaIsolation.success r) results)
            = answered completion) as Hanswered.
  { intros consumer_id completion results HP.
    rewrite (filter_length_Permutation _ _ _ HP), filter_map_length.
    subst answered. cbv beta. f_equal. apply List.filter_ext. intros request_id.
    apply success_of_outcome. }
  assert (forall type completion results,
            length results = 5%nat ->
            length (List.filter (fun r => QuotaIsolation.success r) results)
            = answered completion ->
            QuotaIsolation.Qge_bool
              (QuotaIsolation.success_rate (QuotaIsolation.stats_of type results))
              80
            = (4 <=? answered completion)%nat) as Hrate.
  { intros type completion results Hlen Hans.
    rewrite success_rate_spec by (intros ->; discriminate).
    simpl QuotaIsolation.successful. rewrite Hlen, Hans.
    apply rate_of_five. rewrite <- Hans, <- Hlen. apply List.filter_length_le. }
  split; [|split].
  - intros consumer_id s Hs.
    assert (consumer_id = "A" \/ consumer_id = "B" \/ consumer_id = "C")%string
      as Hid.
    { subst verdict. unfold QuotaIsolation.demo_quota_isolation,
        QuotaIsolation.analyze_and_display_results in Hs. simpl in Hs.
      rewrite !lookup_insert in Hs.
      repeat case_decide; try (subst; tauto).
      rewrite lookup_empty in Hs. discriminate. }
    destruct Hid as [->|[->| ->]]; rewrite ?Ha, ?Hb, ?Hc in Hs;
      injection Hs as <-; simpl; assumption.
  - subst verdict.
    rewrite (proj1 (verdict_fields results_a results_b results_c)).
    rewrite (Hrate _ completion_b) by (auto; eapply Hanswered; eassumption).
    rewrite (Hrate _ completion_c) by (auto; eapply Hanswered; eassumption).
    rewrite andb_true_iff, !Nat.leb_le. reflexivity.
  - subst verdict.
    rewrite (proj2 (verdict_fields results_a results_b results_c)).
    simpl QuotaIsolation.rate_limited. rewrite Nat.ltb_lt. split.
    + intros Hpos.
      destruct (List.filter QuotaIsolation.is_rate_limited results_a)
        as [|r l] eqn:Hf; [simpl in Hpos; lia|].
      assert (In r (List.filter QuotaIsolation.is_rate_limited results_a)) as Hin
        by (rewrite Hf; left; reflexivity).
      apply filter_In in Hin as [Hin Hr]. exists r. split; [exact Hin|].
      unfold QuotaIsolation.is_rate_limited in Hr.
      destruct (QuotaIsolation.error r) as [e|]; [|discriminate].
      apply String.eqb_eq in Hr. now subst e.
    + intros (r & Hin & Hr).
      assert (In r (List.filter QuotaIsolation.is_rate_limited results_a)) as Hf.
      { apply filter_In. split; [exact Hin|].
        unfold QuotaIsolation.is_rate_limited. now rewrite Hr. }
      destruct (List.filter QuotaIsolation.is_rate_limited results_a);
        [destruct Hf | simpl; lia].
Qed.

Lemma isolation_verdict_witness :
  QuotaIsolation.isolation_effective
    (QuotaIsolation.demo_quota_isolation
       (map (QuotaIsolation.worker "A" (fun _ => QuotaIsolation.RateLimitError))
          (seq 0 5))
       (map (QuotaIsolation.worker "B" (fun _ => QuotaIsolation.Completed 1 "b"))
          (seq 0 5))
       (map (QuotaIsolation.worker "C" (fun _ => QuotaIsolation.Completed 1 "c"))
          (seq 0 5)))
  = true.
Proof.
  assert (forall consumer_id completion,
            QuotaIsolation.run_consumer_workload consumer_id completion 5
              (map (QuotaIsolation.worker consumer_id completion) (seq 0 5)))
    as Hworkload.
  { intros consumer_id completion.
    eexists {| Executor.queued := []; Executor.running := [];
               Executor.results := _ |}.
    split; [|reflexivity].
    apply (any_order_is_collected _ 5 5 (seq 0 5)); [lia | lia | reflexivity]. }
  apply (proj2 (proj1 (proj2 (isolation_verdict _ _ _ _ _ _
                                (Hworkload "A"%string _) (Hworkload "B"%string _)
                                (Hworkload "C"%string _))))).
  split; simpl; lia.
Defined.
